(** * Portal session and link resolution engine (api/index.py)

    A shallow embedding of the Flask proxy in [api/index.py]: the portal URL
    normaliser, the device identity generator, the three-step session
    acquisition, the link resolver with its retry loop, the single-slot
    session cache and the [getlink] handler, followed by the properties the
    specification states about them.

    Conventions of the embedding.
    - A Python [str] is a Rocq [string], one [ascii] per code point; the
      development therefore covers strings whose code points are below 256.
      Whitespace, case mapping and percent-encoding follow CPython on that
      range, but for the two letters whose capitals lie above it, which
      [upper] leaves as they are.
    - What the standard library refuses on other strings (a lone surrogate
      in a command to quote, a network location whose NFKC form has a
      delimiter) is kept as a path of the program, decided by the [Library]
      the development is parameterised by.  The MAC, which comes from the
      environment, is taken to be a string that UTF-8 can encode.
    - A value decoded from JSON is a [value]; JSON numbers are integers.
    - Exceptions are the [Raise] results of an error monad over the program
      state [world], which holds the module-level [_cache], the log of the
      requests sent so far, the wall clock and the upstream's behaviour.
    - [time.time()] readings are rationals, in seconds.
    - Handlers that run concurrently are modelled twice: [Threads] takes the
      block of [ensure_cache] as one step, [Effects] lets the handlers
      interleave between any two effects of it. *)

From Stdlib Require Import String Ascii List Bool Arith NArith ZArith QArith Lia Lqa.
From Stdlib Require Import DecimalString.
Import ListNotations.

Set Implicit Arguments.
Set Warnings "-register-all".
Open Scope string_scope.

(* ================================================================== *)
(** * Python built-ins on [str] *)
(* ================================================================== *)

Module Py.

(** Code point of a character. *)
Definition ord (c : ascii) : N := N_of_ascii c.

Definition between (lo hi n : N) : bool := ((lo <=? n) && (n <=? hi))%N.

(** [str.isspace] on one character: 9-13, 28-32, 0x85 and 0xA0. *)
Definition isspace (c : ascii) : bool :=
  between 9 13 (ord c) || between 28 32 (ord c)
  || (ord c =? 133)%N || (ord c =? 160)%N.

(** Membership of a character in a string used as a character set. *)
Fixpoint mem (c : ascii) (set : string) : bool :=
  match set with
  | EmptyString => false
  | String d set' => Ascii.eqb c d || mem c set'
  end.

(** [s.lstrip(...)], with the stripped characters given by a predicate. *)
Fixpoint lstrip_by (p : ascii -> bool) (s : string) : string :=
  match s with
  | EmptyString => EmptyString
  | String c s' => if p c then lstrip_by p s' else s
  end.

(** [s.rstrip(...)], with the stripped characters given by a predicate. *)
Fixpoint rstrip_by (p : ascii -> bool) (s : string) : string :=
  match s with
  | EmptyString => EmptyString
  | String c s' =>
      match rstrip_by p s' with
      | EmptyString => if p c then EmptyString else String c EmptyString
      | r => String c r
      end
  end.

(** [s.strip()] *)
Definition strip (s : string) : string := rstrip_by isspace (lstrip_by isspace s).

(** [s.rstrip(chars)] *)
Definition rstrip (chars : string) (s : string) : string :=
  rstrip_by (fun c => mem c chars) s.

(** [s.startswith(p)] *)
Fixpoint startswith (p s : string) : bool :=
  match p, s with
  | EmptyString, _ => true
  | String _ _, EmptyString => false
  | String a p', String b s' => Ascii.eqb a b && startswith p' s'
  end.

(** [sub in s] *)
Fixpoint contains (sub s : string) : bool :=
  startswith sub s
  || match s with
     | EmptyString => false
     | String _ s' => contains sub s'
     end.

(** [s.replace(old, new)] for a non-empty [old]: the occurrences are taken
    from the left and do not overlap.  [skip] counts the characters of the
    occurrence just matched that are still to be passed over. *)
Fixpoint replace_from (old new : string) (skip : nat) (s : string) : string :=
  match s with
  | EmptyString => EmptyString
  | String c s' =>
      match skip with
      | S k => replace_from old new k s'
      | O =>
          if startswith old s
          then new ++ replace_from old new (String.length old - 1) s'
          else String c (replace_from old new 0 s')
      end
  end.

Definition replace (old new s : string) : string := replace_from old new 0 s.

(** [s.split(sep)] for a one-character separator. *)
Fixpoint split (sep : ascii) (s : string) : list string :=
  match s with
  | EmptyString => [EmptyString]
  | String c s' =>
      if Ascii.eqb c sep then EmptyString :: split sep s'
      else match split sep s' with
           | [] => [String c EmptyString]
           | p :: ps => String c p :: ps
           end
  end.

(** [sep.join(parts)] *)
Definition join (sep : string) (parts : list string) : string :=
  String.concat sep parts.

(** [l[-2:]] *)
Definition last_two {A : Type} (l : list A) : list A :=
  skipn (List.length l - 2) l.

(** [s[:n]] *)
Definition take (n : nat) (s : string) : string := String.substring 0 n s.

(** [s[n:]] *)
Fixpoint drop (n : nat) (s : string) : string :=
  match n, s with
  | O, _ => s
  | S _, EmptyString => EmptyString
  | S k, String _ s' => drop k s'
  end.

(** [str.lower] on one code point below 256: the ASCII capitals and the
    Latin-1 capitals 0xC0-0xDE (0xD7, the multiplication sign, apart). *)
Definition lower_char (c : ascii) : ascii :=
  let n := ord c in
  if between 65 90 n || (between 192 222 n && negb (n =? 215)%N)
  then ascii_of_N (n + 32) else c.

Definition lower (s : string) : string :=
  String.string_of_list_ascii (List.map lower_char (String.list_ascii_of_string s)).

(** [str.upper] on one code point below 256.  The sharp s becomes "SS"; the
    micro sign and the y with diaeresis have capitals above 255 and are left
    as they are.  The program applies [upper] to hexadecimal digests, and
    to the MAC for the field [MAC_Encoded], which it never reads. *)
Definition upper_char (c : ascii) : string :=
  let n := ord c in
  if (n =? 223)%N then "SS"
  else if between 97 122 n || (between 224 254 n && negb (n =? 247)%N)
  then String (ascii_of_N (n - 32)) EmptyString
  else String c EmptyString.

Fixpoint upper (s : string) : string :=
  match s with
  | EmptyString => EmptyString
  | String c s' => upper_char c ++ upper s'
  end.

(** Truth value of a string. *)
Definition nonempty (s : string) : bool :=
  match s with EmptyString => false | _ => true end.

(** Hexadecimal digit, upper or lower case. *)
Definition hex_digit (uppercase : bool) (n : N) : ascii :=
  if (n <? 10)%N then ascii_of_N (48 + n)
  else ascii_of_N ((if uppercase then 55 else 87) + n).

Definition hex2 (uppercase : bool) (n : N) : string :=
  String (hex_digit uppercase (n / 16)) (String (hex_digit uppercase (n mod 16)) EmptyString).

(** [str(n)] for an integer. *)
Definition str_of_Z (n : Z) : string := NilZero.string_of_int (Z.to_int n).

Definition str_of_N (n : N) : string := NilZero.string_of_uint (N.to_uint n).

(** ** [urllib.parse.quote] *)

Definition is_alnum (c : ascii) : bool :=
  let n := ord c in between 48 57 n || between 65 90 n || between 97 122 n.

(** The characters [quote] never escapes, with its default [safe='/']. *)
Definition quote_safe (c : ascii) : bool := is_alnum c || mem c "_.-~/".

(** One code point, UTF-8 encoded and percent-escaped. *)
Definition quote_char (c : ascii) : string :=
  let n := ord c in
  if quote_safe c then String c EmptyString
  else if (n <? 128)%N then "%" ++ hex2 true n
  else "%" ++ hex2 true (192 + n / 64) ++ "%" ++ hex2 true (128 + n mod 64).

Fixpoint quote (s : string) : string :=
  match s with
  | EmptyString => EmptyString
  | String c s' => quote_char c ++ quote s'
  end.

End Py.

(* ================================================================== *)
(** * Values decoded from JSON *)
(* ================================================================== *)

(** What [resp.json()] can return: [None], a [bool], an [int], a [str], a
    [list] or a [dict] with string keys, in insertion order. *)
Inductive value : Type :=
| VNone
| VBool (b : bool)
| VInt (n : Z)
| VStr (s : string)
| VList (items : list value)
| VDict (entries : list (string * value)).

(** Truth value of an object, as [if v] and [not v] take it. *)
Definition truthy (v : value) : bool :=
  match v with
  | VNone => false
  | VBool b => b
  | VInt n => negb (n =? 0)%Z
  | VStr s => Py.nonempty s
  | VList items => match items with [] => false | _ => true end
  | VDict entries => match entries with [] => false | _ => true end
  end.

(** [isinstance(v, dict)] *)
Definition is_dict (v : value) : bool :=
  match v with VDict _ => true | _ => false end.

(** Lookup in a [dict] held as an association list. *)
Fixpoint assoc {A : Type} (k : string) (d : list (string * A)) : option A :=
  match d with
  | [] => None
  | (k', v) :: d' => if String.eqb k k' then Some v else assoc k d'
  end.

(** [d[k] = v]: the entry is replaced in place, or appended. *)
Fixpoint dict_set {A : Type} (k : string) (v : A) (d : list (string * A)) : list (string * A) :=
  match d with
  | [] => [(k, v)]
  | (k', v') :: d' =>
      if String.eqb k k' then (k, v) :: d' else (k', v') :: dict_set k v d'
  end.

Module Repr.

(** The double quote character. *)
Definition dquote : ascii := ascii_of_N 34.
Definition squote : ascii := ascii_of_N 39.
Definition backslash : ascii := ascii_of_N 92.

(** Code points [repr] writes as an escape: the C0 and C1 controls, DEL, the
    no-break space and the soft hyphen. *)
Definition unprintable (c : ascii) : bool :=
  let n := Py.ord c in
  (n <? 32)%N || Py.between 127 160 n || (n =? 173)%N.

Definition repr_char (q : ascii) (c : ascii) : string :=
  let n := Py.ord c in
  if Ascii.eqb c backslash then String backslash (String backslash EmptyString)
  else if Ascii.eqb c q then String backslash (String q EmptyString)
  else if (n =? 9)%N then String backslash "t"
  else if (n =? 10)%N then String backslash "n"
  else if (n =? 13)%N then String backslash "r"
  else if unprintable c then String backslash ("x" ++ Py.hex2 false n)
  else String c EmptyString.

Fixpoint escape (q : ascii) (s : string) : string :=
  match s with
  | EmptyString => EmptyString
  | String c s' => repr_char q c ++ escape q s'
  end.

(** [repr(s)] for a string: single quotes, unless the string has a single
    quote and no double quote. *)
Definition repr_str (s : string) : string :=
  let q := if Py.mem squote s && negb (Py.mem dquote s) then dquote else squote in
  String q (escape q s ++ String q EmptyString).

(** [repr(v)] *)
Fixpoint repr (v : value) : string :=
  match v with
  | VNone => "None"
  | VBool true => "True"
  | VBool false => "False"
  | VInt n => Py.str_of_Z n
  | VStr s => repr_str s
  | VList items =>
      "[" ++ Py.join ", " (List.map repr items) ++ "]"
  | VDict entries =>
      "{" ++ Py.join ", "
               (List.map (fun kv => repr_str (fst kv) ++ ": " ++ repr (snd kv)) entries)
          ++ "}"
  end.

End Repr.

(** [str(v)], also what an f-string writes for [{v}]. *)
Definition py_str (v : value) : string :=
  match v with
  | VStr s => s
  | _ => Repr.repr v
  end.

(* ================================================================== *)
(** * Exceptions, HTTP exchanges and the program state *)
(* ================================================================== *)

Inductive exn : Type :=
| RuntimeError (msg : string)
| ValueError (msg : string)
| AttributeError
| TypeError
| JSONDecodeError
| RequestException
| UnicodeEncodeError.

Inductive result (A : Type) : Type :=
| Ok (a : A)
| Raise (e : exn).
Arguments Ok {A} a.
Arguments Raise {A} e.

Definition is_ok {A : Type} (r : result A) : bool :=
  match r with Ok _ => true | Raise _ => false end.

Inductive http_method : Type := GET | POST.

Definition dict : Type := list (string * string).

(** A request as [requests] receives it from this program; [req_cookies]
    are the cookies the program has set on the session that sends it. *)
Record request : Type := {
  req_method : http_method;
  req_url : string;
  req_headers : option dict;
  req_cookies : dict;
  req_timeout : Q
}.

(** What the program reads of a [requests.Response]: [status_code], [text],
    and [json()], which raises when the body is not JSON. *)
Record response : Type := {
  status_code : Z;
  text : string;
  json : option value
}.

(** Truth value of a response: [Response.__bool__] is [Response.ok], false
    for the statuses 400 to 599. *)
Definition response_ok (r : response) : bool :=
  negb ((400 <=? status_code r)%Z && (status_code r <? 600)%Z).

(** What a request meets: no response (connection error or timeout, raised
    by [requests]) or a response. *)
Inductive outcome : Type :=
| NoResponse
| Reply (r : response).

(** [requests.Session()] with the cookies the program has set on it.  The
    cookies a response sets, which the session keeps and sends back as
    well, are not recorded. *)
Record Session : Type := { cookies : dict }.

(** The module-level [_cache]. *)
Record cache : Type := {
  session : option Session;
  headers : option dict;
  channels : value;
  portal_name : option string;
  expires : Q
}.

Definition _cache : cache :=
  {| session := None; headers := None; channels := VNone;
     portal_name := None; expires := 0 |}.

(** The program state: the cache, the requests sent so far, the clock, and
    the upstream, which answers the n-th request of the run with
    [upstream n] after [latency n] seconds. *)
Record world : Type := {
  the_cache : cache;
  sent : list request;
  clock : Q;
  upstream : nat -> outcome;
  latency : nat -> Q
}.

Definition with_cache (c : cache) (w : world) : world :=
  {| the_cache := c; sent := sent w; clock := clock w;
     upstream := upstream w; latency := latency w |}.

Definition with_clock (t : Q) (w : world) : world :=
  {| the_cache := the_cache w; sent := sent w; clock := t;
     upstream := upstream w; latency := latency w |}.

(** A world at start-up. *)
Definition boot (up : nat -> outcome) (lat : nat -> Q) (t : Q) : world :=
  {| the_cache := _cache; sent := []; clock := t; upstream := up; latency := lat |}.

(** ** The monad of effectful code *)

Definition M (A : Type) : Type := world -> result A * world.

Definition ret {A : Type} (a : A) : M A := fun w => (Ok a, w).

Definition raise {A : Type} (e : exn) : M A := fun w => (Raise e, w).

Definition bind {A B : Type} (m : M A) (k : A -> M B) : M B :=
  fun w =>
    match m w with
    | (Ok a, w') => k a w'
    | (Raise e, w') => (Raise e, w')
    end.

Declare Scope portal_scope.
Delimit Scope portal_scope with portal.
Notation "x <- m ;; k" := (bind m (fun x => k))
  (at level 61, m at next level, right associativity) : portal_scope.
Notation "m ;;; k" := (bind m (fun _ => k))
  (at level 61, right associativity) : portal_scope.
Open Scope portal_scope.

(** [try: body / except Exception: handler] *)
Definition try_except {A : Type} (body : M A) (handler : M A) : M A :=
  fun w =>
    match body w with
    | (Ok a, w') => (Ok a, w')
    | (Raise _, w') => handler w'
    end.

(** Lifting of a pure computation that may raise. *)
Definition lift {A : Type} (r : result A) : M A := fun w => (r, w).

(** [time.time()] *)
Definition time_time : M Q := fun w => (Ok (clock w), w).

(** [time.sleep(d)] *)
Definition time_sleep (d : Q) : M unit :=
  fun w => (Ok tt, with_clock (clock w + d) w).

(** [session.request(method, url, headers=headers, timeout=timeout)]: the
    request is logged with the session's cookies, the clock moves by the
    latency, and the upstream's outcome is returned or raised. *)
Definition session_request (m : http_method) (s : Session) (url : string)
    (hs : option dict) (timeout : Q) : M response :=
  fun w =>
    let n := List.length (sent w) in
    let rq := {| req_method := m; req_url := url; req_headers := hs;
                 req_cookies := cookies s; req_timeout := timeout |} in
    let w' := {| the_cache := the_cache w; sent := sent w ++ [rq];
                 clock := clock w + latency w n;
                 upstream := upstream w; latency := latency w |} in
    match upstream w n with
    | NoResponse => (Raise RequestException, w')
    | Reply r => (Ok r, w')
    end.

(** [resp.json()] *)
Definition resp_json (r : response) : result value :=
  match json r with
  | Some v => Ok v
  | None => Raise JSONDecodeError
  end.

(** [v.get(k, default)]: only a [dict] has the method. *)
Definition py_get (v : value) (k : string) (default : value) : result value :=
  match v with
  | VDict entries =>
      match assoc k entries with
      | Some x => Ok x
      | None => Ok default
      end
  | _ => Raise AttributeError
  end.

(* ================================================================== *)
(** * The Python standard library, as far as the program uses it *)
(* ================================================================== *)

(** Library functions the embedding takes as given.
    - The two digests of [hashlib], as
      [hashlib.md5(s.encode('utf-8')).hexdigest()] and its SHA-256 sibling.
    - The check [urllib.parse] runs on a network location that has both
      square brackets ([None] when it passes, the message of the
      [ValueError] otherwise).
    - The check [urllib.parse] runs on a network location that is not
      ASCII: it refuses, with a [ValueError], a location whose NFKC form has
      one of the characters [/?#@:].
    - Whether UTF-8 can encode a string, as [urllib.parse.quote] needs: it
      cannot when the string has a lone surrogate, and [quote] then raises
      [UnicodeEncodeError].
    On the strings the embedding holds, of code points below 256, the last
    two never refuse.  They are taken as given all the same, so that the
    program has the paths on which they do, and the statements say where
    they rely on them. *)
Class Library : Type := {
  md5_hexdigest : string -> string;
  sha256_hexdigest : string -> string;
  check_bracketed_netloc : string -> option string;
  check_nfkc_netloc : string -> option string;
  utf8_encodable : string -> bool
}.

Module Urllib.

Record SplitResult : Type := {
  scheme : string;
  netloc : string;
  path : string;
  query : string;
  fragment : string
}.

Definition uses_relative : list string :=
  [EmptyString; "ftp"; "http"; "gopher"; "nntp"; "imap"; "wais"; "file";
   "https"; "shttp"; "mms"; "prospero"; "rtsp"; "rtspu"; "sftp"; "svn";
   "svn+ssh"; "ws"; "wss"].

Definition uses_netloc : list string :=
  [EmptyString; "ftp"; "http"; "gopher"; "nntp"; "telnet"; "imap"; "wais";
   "file"; "mms"; "https"; "shttp"; "snews"; "prospero"; "rtsp"; "rtspu";
   "rsync"; "svn"; "svn+ssh"; "sftp"; "nfs"; "git"; "git+ssh"; "ws"; "wss"].

Definition scheme_chars : string :=
  "abcdefghijklmnopqrstuvwxyzABCDEFGHIJKLMNOPQRSTUVWXYZ0123456789+-.".

Definition elem (s : string) (l : list string) : bool :=
  List.existsb (String.eqb s) l.

(** [_WHATWG_C0_CONTROL_OR_SPACE]: the code points 0 to 32. *)
Definition c0_or_space (c : ascii) : bool := (Py.ord c <=? 32)%N.

(** [_UNSAFE_URL_BYTES_TO_REMOVE]: tab, carriage return, line feed. *)
Definition unsafe (c : ascii) : bool :=
  (Py.ord c =? 9)%N || (Py.ord c =? 13)%N || (Py.ord c =? 10)%N.

Fixpoint remove_unsafe (s : string) : string :=
  match s with
  | EmptyString => EmptyString
  | String c s' => if unsafe c then remove_unsafe s' else String c (remove_unsafe s')
  end.

(** The part of [s] before the first character that satisfies [p], and the
    rest, which starts at that character. *)
Fixpoint break (p : ascii -> bool) (s : string) : string * string :=
  match s with
  | EmptyString => (EmptyString, EmptyString)
  | String c s' =>
      if p c then (EmptyString, s)
      else let (a, b) := break p s' in (String c a, b)
  end.

Definition is_ascii_alpha (c : ascii) : bool :=
  Py.between 65 90 (Py.ord c) || Py.between 97 122 (Py.ord c).

Fixpoint all_in (set : string) (s : string) : bool :=
  match s with
  | EmptyString => true
  | String c s' => Py.mem c set && all_in set s'
  end.

(** The scheme of a URL when it has one, with the text after the colon. *)
Definition split_scheme (url : string) : option (string * string) :=
  match break (Ascii.eqb ":") url with
  | (String c0 pre', String _ rest) =>
      if is_ascii_alpha c0 && all_in scheme_chars (String c0 pre')
      then Some (Py.lower (String c0 pre'), rest)
      else None
  | _ => None
  end.

(** [url.split(sep, 1)] when [sep] occurs in [url]. *)
Definition split_once (sep : ascii) (url : string) : string * string :=
  match break (Ascii.eqb sep) url with
  | (a, String _ b) => (a, b)
  | (a, EmptyString) => (a, EmptyString)
  end.

Section Parse.
Context {L : Library}.

(** [str.isascii] *)
Fixpoint isascii (s : string) : bool :=
  match s with
  | EmptyString => true
  | String c s' => (Py.ord c <? 128)%N && isascii s'
  end.

(** [_checknetloc]: nothing to check on an empty or an ASCII network
    location; the others go through the NFKC check. *)
Definition checknetloc (nl : string) : option string :=
  if negb (Py.nonempty nl) || isascii nl then None else check_nfkc_netloc nl.

(** [urllib.parse.urlsplit(url, scheme)], CPython 3.11. *)
Definition urlsplit (url default_scheme : string) : result SplitResult :=
  let url := Py.lstrip_by c0_or_space url in
  let default_scheme :=
    Py.rstrip_by c0_or_space (Py.lstrip_by c0_or_space default_scheme) in
  let url := remove_unsafe url in
  let default_scheme := remove_unsafe default_scheme in
  let (sch, url) :=
    match split_scheme url with
    | Some (s, rest) => (s, rest)
    | None => (default_scheme, url)
    end in
  let located :=
    if Py.startswith "//" url then
      let (nl, rest) := break (fun c => Py.mem c "/?#") (Py.drop 2 url) in
      let lb := Py.mem "[" nl in
      let rb := Py.mem "]" nl in
      if xorb lb rb then Raise (ValueError "Invalid IPv6 URL")
      else if lb && rb then
        match check_bracketed_netloc nl with
        | Some msg => Raise (ValueError msg)
        | None => Ok (nl, rest)
        end
      else Ok (nl, rest)
    else Ok (EmptyString, url) in
  match located with
  | Raise e => Raise e
  | Ok (nl, url) =>
      let (url, frag) := split_once "#" url in
      let (url, qry) := split_once "?" url in
      match checknetloc nl with
      | Some msg => Raise (ValueError msg)
      | None =>
          Ok {| scheme := sch; netloc := nl; path := url; query := qry;
                fragment := frag |}
      end
  end.

(** [urllib.parse.urlparse(url, scheme)].  It is [urlsplit] followed by the
    separation of the parameters from the path, which the program never
    reads and which is left in [path] here. *)
Definition urlparse (url default_scheme : string) : result SplitResult :=
  urlsplit url default_scheme.

(** [urllib.parse.urlunsplit] *)
Definition urlunsplit (r : SplitResult) : string :=
  let url := path r in
  let url :=
    if Py.nonempty (netloc r)
       || (Py.nonempty (scheme r) && elem (scheme r) uses_netloc
           && negb (Py.startswith "//" url))
    then "//" ++ netloc r
         ++ (if Py.nonempty url && negb (Py.startswith "/" url) then "/" ++ url else url)
    else url in
  let url := if Py.nonempty (scheme r) then scheme r ++ ":" ++ url else url in
  let url := if Py.nonempty (query r) then url ++ "?" ++ query r else url in
  if Py.nonempty (fragment r) then url ++ "#" ++ fragment r else url.

(** [urllib.parse.urljoin(base, "/")]: the reference "/" has no scheme and no
    network location of its own, and its absolute path resolves to "/"
    whatever the path of [base]. *)
Definition urljoin_root (base : string) : result string :=
  if negb (Py.nonempty base) then Ok "/"
  else
    match urlparse base EmptyString with
    | Raise e => Raise e
    | Ok b =>
        match urlparse "/" (scheme b) with
        | Raise e => Raise e
        | Ok u =>
            if negb (String.eqb (scheme u) (scheme b))
               || negb (elem (scheme u) uses_relative)
            then Ok "/"
            else if elem (scheme u) uses_netloc && Py.nonempty (netloc u)
            then Ok (urlunsplit u)
            else
              let nl := if elem (scheme u) uses_netloc then netloc b else netloc u in
              Ok (urlunsplit {| scheme := scheme u; netloc := nl; path := "/";
                                query := query u; fragment := fragment u |})
        end
    end.

End Parse.
End Urllib.

(* ================================================================== *)
(** * The program *)
(* ================================================================== *)

(** The configuration read from the environment at import time. *)
Class Environ : Type := {
  PORTAL_BASE_URL : string;
  PORTAL_MAC : string;
  PORTAL_TYPE : string;
  CACHE_TTL : Z
}.

(** The defaults of the four [os.getenv] calls. *)
Definition default_environ : Environ :=
  {| PORTAL_BASE_URL := "http://tatatv.cc/stalker_portal/c/";
     PORTAL_MAC := "00:1A:79:00:13:DA";
     PORTAL_TYPE := "1";
     CACHE_TTL := 300 |}.

Section Helpers.
Context {L : Library}.

Definition normalize_url_and_name (input_url : string) : result (string * string) :=
  let url := Py.strip input_url in
  let url :=
    if negb (Py.startswith "http://" url) && negb (Py.startswith "https://" url)
    then "http://" ++ url else url in
  match Urllib.urljoin_root url with
  | Raise e => Raise e
  | Ok url =>
      let url := Py.rstrip "/" url in
      match Urllib.urlparse url EmptyString with
      | Raise e => Raise e
      | Ok parsed =>
          let netloc := Urllib.netloc parsed in
          let name_part :=
            if Py.contains "." netloc
            then Py.join EmptyString (Py.last_two (Py.split "." netloc))
            else Py.replace "." EmptyString netloc in
          Ok (url, Py.lower name_part)
      end
  end.

(** The [dict] returned by [generate_device_info], one field per key. *)
Record device_info : Type := {
  SN : string;
  SNCUT : string;
  Device_ID1 : string;
  Device_ID2 : string;
  Signature : string;
  MAC_Encoded : string
}.

Definition generate_device_info (mac : string) : device_info :=
  let SN := Py.upper (md5_hexdigest mac) in
  let SNCUT := Py.take 13 SN in
  let DEV1 := Py.upper (sha256_hexdigest mac) in
  let DEV2 := Py.upper (sha256_hexdigest SNCUT) in
  let SIGNATURE := Py.upper (sha256_hexdigest (SNCUT ++ mac)) in
  {| SN := SN; SNCUT := SNCUT; Device_ID1 := DEV1; Device_ID2 := DEV2;
     Signature := SIGNATURE; MAC_Encoded := Py.quote (Py.upper mac) |}.

End Helpers.

(** [x < y] on clock readings. *)
Definition Qlt_bool (x y : Q) : bool := negb (Qle_bool y x).

Definition get_cache : M cache := fun w => (Ok (the_cache w), w).

(** [_cache.update({...})] with all five keys. *)
Definition update_cache (c : cache) : M unit := fun w => (Ok tt, with_cache c w).

Definition session_get (s : Session) (url : string) (hs : option dict) (timeout : Q)
  : M response := session_request GET s url hs timeout.

Definition session_post (s : Session) (url : string) (hs : option dict) (timeout : Q)
  : M response := session_request POST s url hs timeout.

(** [session.cookies.set(name, v)] *)
Definition cookies_set (name v : string) (s : Session) : Session :=
  {| cookies := dict_set name v (cookies s) |}.

(** A method of [str] called on a value: [AttributeError] on anything else. *)
Definition as_str (v : value) : result string :=
  match v with
  | VStr s => Ok s
  | _ => Raise AttributeError
  end.

Definition portal_prefix (portal_type : string) : string :=
  if String.eqb portal_type "1" then "stalker_portal" else "c".

Section Program.
Context {L : Library} {E : Environ}.

(** ** [create_link] *)

(** The body of the [try] of one iteration: [Some link] when the function
    returns [link], [None] when the iteration ends without returning. *)
Definition create_link_attempt (url : string) (session : option Session)
    (headers : option dict) : M (option string) :=
  resp <- match session with
          | Some s => session_get s url headers 8
          | None => raise AttributeError
          end ;;
  if negb (status_code resp =? 200)%Z then ret None
  else
    body <- lift (resp_json resp) ;;
    js <- lift (py_get body "js" (VDict [])) ;;
    if is_dict js
    then
      cmd <- lift (py_get js "cmd" VNone) ;;
      if truthy cmd
      then s <- lift (as_str cmd) ;;
           ret (Some (Py.strip (Py.replace "ffrt " EmptyString s)))
      else ret None
    else ret None.

(** [for attempt in range(retries)], then [return None]. *)
Fixpoint create_link_loop (retries : nat) (url : string) (session : option Session)
    (headers : option dict) : M (option string) :=
  match retries with
  | O => ret None
  | S k =>
      r <- try_except (create_link_attempt url session headers)
                      (time_sleep (1 # 2) ;;; ret None) ;;
      match r with
      | Some link => ret (Some link)
      | None => create_link_loop k url session headers
      end
  end.

Definition create_link_url (base_url cmd portal_type : string) : string :=
  let cmd := Py.replace "ffrt " EmptyString (Py.strip cmd) in
  base_url ++ "/" ++ portal_prefix portal_type
    ++ "/server/load.php?type=itv&action=create_link&cmd=" ++ Py.quote cmd
    ++ "&JsHttpRequest=1-xml".

(** The URL is built before the loop and outside its [try]: [quote]
    encodes the command as UTF-8, and what it raises on a command that
    UTF-8 cannot encode leaves the function, before any request. *)
Definition create_link (base_url cmd : string) (session : option Session)
    (headers : option dict) (portal_type : string) (retries : nat)
  : M (option string) :=
  if utf8_encodable (Py.replace "ffrt " EmptyString (Py.strip cmd))
  then create_link_loop retries (create_link_url base_url cmd portal_type)
                        session headers
  else raise UnicodeEncodeError.

(** ** [init_portal_session_and_channels] *)

Definition stb_headers (base_url prefix : string) : dict :=
  [ ("User-Agent",
     "Mozilla/5.0 (QtEmbedded; U; Linux; C) AppleWebKit/533.3 (KHTML, like Gecko) MAG200 stbapp ver: 2 rev: 250 Safari/533.3");
    ("X-User-Agent", "Model: MAG250; Link: WiFi");
    ("Referer", base_url ++ "/" ++ prefix ++ "/c/");
    ("Accept", "*/*");
    ("Connection", "Keep-Alive");
    ("Accept-Encoding", "gzip") ].

Definition handshake_url (base_url prefix : string) : string :=
  base_url ++ "/" ++ prefix
    ++ "/server/load.php?action=handshake&type=stb&token=&JsHttpRequest=1-xml".

Definition profile_url (base_url prefix sn device_id signature : string) : string :=
  base_url ++ "/" ++ prefix ++ "/server/load.php?type=stb&action=get_profile&sn=" ++ sn
    ++ "&device_id=" ++ device_id ++ "&device_id2=" ++ device_id
    ++ "&signature=" ++ signature ++ "&JsHttpRequest=1-xml".

Definition all_url (base_url prefix : string) : string :=
  base_url ++ "/" ++ prefix
    ++ "/server/load.php?type=itv&action=get_all_channels&JsHttpRequest=1-xml".

Definition init_portal_session_and_channels (base_url mac portal_type : string)
  : M (Session * dict * value) :=
  let session := {| cookies := [] |} in
  let prefix := portal_prefix portal_type in
  let headers := stb_headers base_url prefix in
  let session := cookies_set "mac" mac session in
  (* handshake *)
  resp <- session_post session (handshake_url base_url prefix) (Some headers) 10 ;;
  js <- (if response_ok resp && (status_code resp =? 200)%Z
         then body <- lift (resp_json resp) ;; lift (py_get body "js" (VDict []))
         else ret (VDict [])) ;;
  token <- lift (py_get js "token" VNone) ;;
  if negb (truthy token) then raise (RuntimeError "Handshake failed or token missing")
  else
    let headers := dict_set "Authorization" ("Bearer " ++ py_str token) headers in
    (* validate profile *)
    let device_info := generate_device_info mac in
    let sn := SNCUT device_info in
    let device_id := Device_ID1 device_info in
    let signature := Signature device_info in
    resp <- session_get session (profile_url base_url prefix sn device_id signature)
                        (Some headers) 10 ;;
    if negb (response_ok resp) || negb (Py.contains "js" (text resp))
    then raise (RuntimeError "Profile validation failed")
    else
      (* fetch channels *)
      resp <- session_get session (all_url base_url prefix) (Some headers) 15 ;;
      data <- (if response_ok resp && (status_code resp =? 200)%Z
               then lift (resp_json resp) else ret (VDict [])) ;;
      channels <- (if is_dict data
                   then js <- lift (py_get data "js" (VDict [])) ;;
                        lift (py_get js "data" (VList []))
                   else ret (VList [])) ;;
      ret (session, headers, channels).

(** ** [ensure_cache] *)

(** The test of the fast path. *)
Definition cache_fresh (c : cache) (now : Q) : bool :=
  truthy (channels c) && Qlt_bool now (expires c).

(** The refresh, from the normalisation of the base URL to the update of
    the cache. *)
Definition refresh_cache : M unit :=
  bp <- lift (normalize_url_and_name PORTAL_BASE_URL) ;;
  let (base, pname) := bp : string * string in
  shc <- init_portal_session_and_channels base PORTAL_MAC PORTAL_TYPE ;;
  let '(session, headers, channels) := shc : Session * dict * value in
  now <- time_time ;;
  update_cache {| session := Some session; headers := Some headers;
                  channels := channels; portal_name := Some pname;
                  expires := now + inject_Z CACHE_TTL |}.

(** The body of [ensure_cache], which runs with [_lock] held. *)
Definition ensure_cache : M unit :=
  c <- get_cache ;;
  now <- time_time ;;
  if cache_fresh c now then ret tt else refresh_cache.

(** ** [getlink] *)

(** What a handler returns: a JSON error body with its status, or a
    redirect. *)
Inductive reply : Type :=
| JsonError (status : Z) (error : string) (details : option exn)
| Redirect (location : string) (code : Z).

(** The items a [for] loop draws from a value: the elements of a list, the
    keys of a dict, the characters of a string; nothing else is iterable. *)
Definition iterate (v : value) : result (list value) :=
  match v with
  | VList items => Ok items
  | VDict entries => Ok (List.map (fun kv => VStr (fst kv)) entries)
  | VStr s =>
      Ok (List.map (fun c => VStr (String c EmptyString)) (String.list_ascii_of_string s))
  | _ => Raise TypeError
  end.

(** [next((c for c in items if str(c.get("id")) == target), None)] *)
Fixpoint find_channel (target : string) (items : list value) : result value :=
  match items with
  | [] => Ok VNone
  | c :: rest =>
      match py_get c "id" VNone with
      | Raise e => Raise e
      | Ok i => if String.eqb (py_str i) target then Ok c else find_channel target rest
      end
  end.

(** The link of a command that names ffmpeg. *)
Definition local_link (cmd : string) : string :=
  Py.strip (Py.replace "ffmpeg " EmptyString cmd).

Definition getlink (ch_id : N) : M reply :=
  fun w =>
    match ensure_cache w with
    | (Raise e, w') => (Ok (JsonError 500 "init_failed" (Some e)), w')
    | (Ok _, w') =>
        (c <- get_cache ;;
         items <- lift (iterate (channels c)) ;;
         ch <- lift (find_channel (Py.str_of_N ch_id) items) ;;
         if negb (truthy ch) then ret (JsonError 404 "not_found" None)
         else
           raw <- lift (py_get ch "cmd" (VStr EmptyString)) ;;
           cmd0 <- lift (as_str raw) ;;
           let cmd := Py.strip cmd0 in
           if negb (Py.nonempty cmd) then ret (JsonError 400 "no_cmd" None)
           else
             real_url <- (if Py.contains "ffmpeg" cmd
                          then ret (Some (local_link cmd))
                          else
                            c <- get_cache ;;
                            create_link (Py.rstrip "/" PORTAL_BASE_URL) cmd
                                        (session c) (headers c) PORTAL_TYPE 3) ;;
             match real_url with
             | Some (String a u) => ret (Redirect (String a u) 302)
             | _ => ret (JsonError 502 "failed_to_create_link" None)
             end) w'
    end.

End Program.
(* ================================================================== *)
(** * The routes [/] and [/playlist.m3u] *)
(* ================================================================== *)

(** A line feed, and the double quote of the playlist attributes. *)
Definition LF : string := String (ascii_of_N 10) EmptyString.
Definition DQ : string := String Repr.dquote EmptyString.

(** A streamed body: the chunks the generator yields, in order, and the
    exception that ends it when the generator raises. *)
Record stream : Type := {
  chunks : list string;
  failure : option exn
}.

(** What the two handlers return.  [details] stands for [str(e)].
    - [PageJsonError status error e]: [jsonify({"error": error, "details":
      str(e)}), status];
    - [PageJson body]: [jsonify(body)], with status 200;
    - [PageText status prefix e content_type]: the body [prefix + str(e)]
      with its status and content type;
    - [PageStream body mimetype]: [Response(generate(), mimetype=mimetype)]. *)
Inductive page : Type :=
| PageJsonError (status : Z) (error : string) (details : exn)
| PageJson (body : dict)
| PageText (status : Z) (prefix : string) (details : exn) (content_type : string)
| PageStream (body : stream) (mimetype : string).

Section Routes.
Context {L : Library} {E : Environ}.

(** ** [index] *)

Definition index (host_url : string) : M page :=
  fun w =>
    match ensure_cache w with
    | (Raise e, w') => (Ok (PageJsonError 500 "init_failed" e), w')
    | (Ok _, w') =>
        (Ok (PageJson [("message", "IPTV playlist serverless endpoint");
                       ("playlist", host_url ++ "playlist.m3u")]), w')
    end.

(** ** [playlist] *)

(** One turn of the loop of [generate]: the chunk it yields for the channel
    [ch]. *)
Definition playlist_entry (base_url host : string) (ch : value) : result string :=
  match py_get ch "name" (VStr "Unknown") with
  | Raise e => Raise e
  | Ok name =>
      match py_get ch "id" VNone with
      | Raise e => Raise e
      | Ok ch_id =>
          match py_get ch "logo" (VStr EmptyString) with
          | Raise e => Raise e
          | Ok logo =>
              let logo_url :=
                if String.eqb PORTAL_TYPE "1"
                then base_url ++ "/stalker_portal/misc/logos/320/" ++ py_str logo
                else py_str logo in
              Ok ("#EXTINF:-1 group-title=" ++ DQ ++ "All Channels" ++ DQ
                    ++ " tvg-logo=" ++ DQ ++ logo_url ++ DQ ++ "," ++ py_str name ++ LF
                    ++ host ++ "/getlink/" ++ py_str ch_id ++ LF)
          end
      end
  end.

(** The loop of [generate] over the channels. *)
Fixpoint generate_from (base_url host : string) (items : list value) : stream :=
  match items with
  | [] => {| chunks := []; failure := None |}
  | ch :: rest =>
      match playlist_entry base_url host ch with
      | Raise e => {| chunks := []; failure := Some e |}
      | Ok line =>
          let s := generate_from base_url host rest in
          {| chunks := line :: chunks s; failure := failure s |}
      end
  end.

(** The generator [generate], run to its end on the cache [c]: the header
    comes first, whatever the cache holds. *)
Definition generate (base_url host : string) (c : cache) : stream :=
  match iterate (channels c) with
  | Raise e => {| chunks := ["#EXTM3U" ++ LF]; failure := Some e |}
  | Ok items =>
      let s := generate_from base_url host items in
      {| chunks := ("#EXTM3U" ++ LF) :: chunks s; failure := failure s |}
  end.

(** The handler.  The body is drawn as soon as the handler returns, so the
    generator reads the cache the handler leaves.  The normalisation of the
    base URL stands outside the [try]: what it raises leaves the handler. *)
Definition playlist (host_url : string) : M page :=
  fun w =>
    match ensure_cache w with
    | (Raise e, w') => (Ok (PageText 500 ("#ERROR" ++ LF) e "text/plain"), w')
    | (Ok _, w') =>
        (bp <- lift (normalize_url_and_name PORTAL_BASE_URL) ;;
         let (base_url, pname) := bp : string * string in
         let host := Py.rstrip "/" host_url in
         c <- get_cache ;;
         ret (PageStream (generate base_url host c) "application/x-mpegurl")) w'
    end.

End Routes.

(* ================================================================== *)
(** * Request handlers running concurrently *)
(* ================================================================== *)

(** Each handler thread calls [ensure_cache] once.  The body runs under
    [with _lock:], so a thread is in one of three places: before the lock,
    inside the refresh with the lock held (the fast path takes and releases
    the lock in one step), or past the call with its outcome.  This is the
    view from outside the block; [Effects] below follows the handlers
    inside it. *)
Module Threads.

Inductive pc : Type :=
| Waiting
| Refreshing
| Done (r : result unit).

Record system : Type := {
  shared : world;
  lock : option nat;
  pcs : list pc
}.

(** What can happen next: time passes, a waiting thread takes the free lock
    and tests the cache, or the refreshing thread completes its refresh and
    releases the lock. *)
Inductive event : Type :=
| Tick (d : Q)
| Enter (i : nat)
| Leave (i : nat).

Fixpoint set_pc (i : nat) (p : pc) (l : list pc) : list pc :=
  match l, i with
  | [], _ => []
  | _ :: l', O => p :: l'
  | q :: l', S j => q :: set_pc j p l'
  end.

Definition is_refreshing (p : pc) : bool :=
  match p with Refreshing => true | _ => false end.

Definition is_done (p : pc) : bool :=
  match p with Done _ => true | _ => false end.

(** Number of threads inside a refresh, that is, of handshake sequences in
    flight. *)
Definition in_flight (s : system) : nat :=
  List.length (List.filter is_refreshing (pcs s)).

Definition is_handshake (rq : request) : bool :=
  match req_method rq with POST => true | GET => false end.

(** Number of handshake sequences started so far: the handshake is the only
    request the program posts. *)
Definition handshakes (w : world) : nat :=
  List.length (List.filter is_handshake (sent w)).

Section Run.
Context {L : Library} {E : Environ}.

Definition fire (e : event) (s : system) : option system :=
  match e with
  | Tick d =>
      if Qle_bool 0 d
      then Some {| shared := with_clock (clock (shared s) + d) (shared s);
                   lock := lock s; pcs := pcs s |}
      else None
  | Enter i =>
      match nth_error (pcs s) i, lock s with
      | Some Waiting, None =>
          if cache_fresh (the_cache (shared s)) (clock (shared s))
          then Some {| shared := shared s; lock := None;
                       pcs := set_pc i (Done (Ok tt)) (pcs s) |}
          else Some {| shared := shared s; lock := Some i;
                       pcs := set_pc i Refreshing (pcs s) |}
      | _, _ => None
      end
  | Leave i =>
      match nth_error (pcs s) i, lock s with
      | Some Refreshing, Some j =>
          if Nat.eqb i j
          then let (r, w') := refresh_cache (shared s) in
               Some {| shared := w'; lock := None; pcs := set_pc i (Done r) (pcs s) |}
          else None
      | _, _ => None
      end
  end.

(** A schedule, run from the left; [None] when an event cannot fire. *)
Fixpoint run (es : list event) (s : system) : option system :=
  match es with
  | [] => Some s
  | e :: es' =>
      match fire e s with
      | Some s' => run es' s'
      | None => None
      end
  end.

Inductive reachable (s0 : system) : system -> Prop :=
| reach_refl : reachable s0 s0
| reach_step (s s' : system) (e : event) :
    reachable s0 s -> fire e s = Some s' -> reachable s0 s'.

(** [n] handlers arrive on the world [w]. *)
Definition arrive (n : nat) (w : world) : system :=
  {| shared := w; lock := None; pcs := List.repeat Waiting n |}.

End Run.
End Threads.
(* ================================================================== *)
(** * The refresh as a tree of effects, and handlers that interleave *)
(* ================================================================== *)

(** [ensure_cache] once more, with its effects kept apart so that handlers
    can interleave between any two of them: a node for taking [_lock] and
    one for releasing it, for reading the clock, for reading and for
    updating [_cache], and for sending a request and waiting for what comes
    of it.  [Effects.interp] runs such a tree on the program state, and
    gives [ensure_cache] back (lemma [interp_ensure_cache]); a handler
    alone goes through the scheduler below to the same end (lemma
    [single_handler_runs_ensure_cache]). *)
Module Effects.

Inductive tree (A : Type) : Type :=
| Leaf (r : result A)
| Acquire (k : tree A)
| Release (k : tree A)
| Now (k : Q -> tree A)
| GetCache (k : cache -> tree A)
| Update (c : cache) (k : tree A)
| Request (rq : request) (k : outcome -> tree A).
Arguments Leaf {A} r.
Arguments Acquire {A} k.
Arguments Release {A} k.
Arguments Now {A} k.
Arguments GetCache {A} k.
Arguments Update {A} c k.
Arguments Request {A} rq k.

Fixpoint tbind {A B : Type} (t : tree A) (f : A -> tree B) : tree B :=
  match t with
  | Leaf (Ok a) => f a
  | Leaf (Raise e) => Leaf (Raise e)
  | Acquire k => Acquire (tbind k f)
  | Release k => Release (tbind k f)
  | Now k => Now (fun now => tbind (k now) f)
  | GetCache k => GetCache (fun c => tbind (k c) f)
  | Update c k => Update c (tbind k f)
  | Request rq k => Request rq (fun o => tbind (k o) f)
  end.

Declare Scope effects_scope.
Delimit Scope effects_scope with effects.
Notation "x <- m ;; k" := (tbind m (fun x => k))
  (at level 61, m at next level, right associativity) : effects_scope.
Notation "m ;;; k" := (tbind m (fun _ => k))
  (at level 61, right associativity) : effects_scope.
Local Open Scope effects_scope.

Definition tret {A : Type} (a : A) : tree A := Leaf (Ok a).
Definition traise {A : Type} (e : exn) : tree A := Leaf (Raise e).
Definition tlift {A : Type} (r : result A) : tree A := Leaf r.
Definition ttime : tree Q := Now (fun now => Leaf (Ok now)).
Definition tget_cache : tree cache := GetCache (fun c => Leaf (Ok c)).
Definition tupdate_cache (c : cache) : tree unit := Update c (Leaf (Ok tt)).

(** [session.request(...)]: the request goes out, and its outcome is
    returned or raised. *)
Definition trequest (m : http_method) (s : Session) (url : string)
    (hs : option dict) (timeout : Q) : tree response :=
  Request {| req_method := m; req_url := url; req_headers := hs;
             req_cookies := cookies s; req_timeout := timeout |}
          (fun o => match o with
                    | NoResponse => Leaf (Raise RequestException)
                    | Reply r => Leaf (Ok r)
                    end).

(** The end of a [with _lock:] block: the lock is released when the body
    returns and when it raises. *)
Fixpoint finally_release {A : Type} (t : tree A) : tree A :=
  match t with
  | Leaf r => Release (Leaf r)
  | Acquire k => Acquire (finally_release k)
  | Release k => Release (finally_release k)
  | Now k => Now (fun now => finally_release (k now))
  | GetCache k => GetCache (fun c => finally_release (k c))
  | Update c k => Update c (finally_release k)
  | Request rq k => Request rq (fun o => finally_release (k o))
  end.

(** [with _lock: body] *)
Definition with_lock {A : Type} (body : tree A) : tree A :=
  Acquire (finally_release body).

Section Program.
Context {L : Library} {E : Environ}.

Definition init_portal_session_and_channels (base_url mac portal_type : string)
  : tree (Session * dict * value) :=
  let session := {| cookies := [] |} in
  let prefix := portal_prefix portal_type in
  let headers := stb_headers base_url prefix in
  let session := cookies_set "mac" mac session in
  (* handshake *)
  resp <- trequest POST session (handshake_url base_url prefix) (Some headers) 10 ;;
  js <- (if response_ok resp && (status_code resp =? 200)%Z
         then body <- tlift (resp_json resp) ;; tlift (py_get body "js" (VDict []))
         else tret (VDict [])) ;;
  token <- tlift (py_get js "token" VNone) ;;
  if negb (truthy token) then traise (RuntimeError "Handshake failed or token missing")
  else
    let headers := dict_set "Authorization" ("Bearer " ++ py_str token) headers in
    (* validate profile *)
    let device_info := generate_device_info mac in
    let sn := SNCUT device_info in
    let device_id := Device_ID1 device_info in
    let signature := Signature device_info in
    resp <- trequest GET session (profile_url base_url prefix sn device_id signature)
                     (Some headers) 10 ;;
    if negb (response_ok resp) || negb (Py.contains "js" (text resp))
    then traise (RuntimeError "Profile validation failed")
    else
      (* fetch channels *)
      resp <- trequest GET session (all_url base_url prefix) (Some headers) 15 ;;
      data <- (if response_ok resp && (status_code resp =? 200)%Z
               then tlift (resp_json resp) else tret (VDict [])) ;;
      channels <- (if is_dict data
                   then js <- tlift (py_get data "js" (VDict [])) ;;
                        tlift (py_get js "data" (VList []))
                   else tret (VList [])) ;;
      tret (session, headers, channels).

(** The lines of [ensure_cache] after the test of the fast path. *)
Definition refresh_cache : tree unit :=
  bp <- tlift (normalize_url_and_name PORTAL_BASE_URL) ;;
  let (base, pname) := bp : string * string in
  shc <- init_portal_session_and_channels base PORTAL_MAC PORTAL_TYPE ;;
  let '(session, headers, channels) := shc : Session * dict * value in
  now <- ttime ;;
  tupdate_cache {| session := Some session; headers := Some headers;
                   channels := channels; portal_name := Some pname;
                   expires := now + inject_Z CACHE_TTL |}.

Definition ensure_cache : tree unit :=
  with_lock
    (c <- tget_cache ;;
     now <- ttime ;;
     if cache_fresh c now then tret tt else refresh_cache).

End Program.

(** ** One handler at a time: the tree run on the program state *)

Fixpoint interp {A : Type} (t : tree A) : M A :=
  match t with
  | Leaf r => lift r
  | Acquire k => interp k
  | Release k => interp k
  | Now k => fun w => interp (k (clock w)) w
  | GetCache k => fun w => interp (k (the_cache w)) w
  | Update c k => fun w => interp k (with_cache c w)
  | Request rq k =>
      fun w =>
        interp (k (upstream w (List.length (sent w))))
               {| the_cache := the_cache w; sent := sent w ++ [rq];
                  clock := clock w + latency w (List.length (sent w));
                  upstream := upstream w; latency := latency w |}
  end.

(** ** Handlers that interleave *)

(** A handler is at a node of its tree, or waits for the outcome of its
    request number [n]. *)
Inductive thread : Type :=
| Running (t : tree unit)
| Awaiting (n : nat) (k : outcome -> tree unit).

(** The handlers share the program state and the lock; [updates] counts
    the updates of [_cache] so far. *)
Record system : Type := {
  shared : world;
  lock : option nat;
  updates : nat;
  threads : list thread
}.

(** What can happen next: time passes, a handler performs the effect it is
    at, or the upstream settles the request a handler waits for. *)
Inductive event : Type :=
| Tick (d : Q)
| Step (i : nat)
| Answer (i : nat).

Fixpoint set_thread (i : nat) (th : thread) (l : list thread) : list thread :=
  match l, i with
  | [], _ => []
  | _ :: l', O => th :: l'
  | x :: l', S j => x :: set_thread j th l'
  end.

(** The request [rq] has gone out and no answer has come yet. *)
Definition posted (rq : request) (w : world) : world :=
  {| the_cache := the_cache w; sent := sent w ++ [rq]; clock := clock w;
     upstream := upstream w; latency := latency w |}.

(** A handler takes the lock when it is free and releases it when it holds
    it; a request goes out at once, and its outcome comes with the latency
    of the exchange. *)
Definition fire (e : event) (s : system) : option system :=
  match e with
  | Tick d =>
      if Qle_bool 0 d
      then Some {| shared := with_clock (clock (shared s) + d) (shared s);
                   lock := lock s; updates := updates s;
                   threads := threads s |}
      else None
  | Step i =>
      match nth_error (threads s) i with
      | Some (Running (Acquire k)) =>
          match lock s with
          | None => Some {| shared := shared s; lock := Some i; updates := updates s;
                            threads := set_thread i (Running k) (threads s) |}
          | Some _ => None
          end
      | Some (Running (Release k)) =>
          match lock s with
          | Some j =>
              if Nat.eqb i j
              then Some {| shared := shared s; lock := None; updates := updates s;
                           threads := set_thread i (Running k) (threads s) |}
              else None
          | None => None
          end
      | Some (Running (Now k)) =>
          Some {| shared := shared s; lock := lock s; updates := updates s;
                  threads := set_thread i (Running (k (clock (shared s)))) (threads s) |}
      | Some (Running (GetCache k)) =>
          Some {| shared := shared s; lock := lock s; updates := updates s;
                  threads := set_thread i (Running (k (the_cache (shared s))))
                                        (threads s) |}
      | Some (Running (Update c k)) =>
          Some {| shared := with_cache c (shared s); lock := lock s;
                  updates := S (updates s);
                  threads := set_thread i (Running k) (threads s) |}
      | Some (Running (Request rq k)) =>
          Some {| shared := posted rq (shared s);
                  lock := lock s; updates := updates s;
                  threads := set_thread i (Awaiting (List.length (sent (shared s))) k)
                                        (threads s) |}
      | _ => None
      end
  | Answer i =>
      match nth_error (threads s) i with
      | Some (Awaiting n k) =>
          Some {| shared := with_clock (clock (shared s) + latency (shared s) n)
                                       (shared s);
                  lock := lock s; updates := updates s;
                  threads := set_thread i (Running (k (upstream (shared s) n)))
                                        (threads s) |}
      | _ => None
      end
  end.

(** A schedule, run from the left; [None] when an event cannot fire. *)
Fixpoint run (es : list event) (s : system) : option system :=
  match es with
  | [] => Some s
  | e :: es' =>
      match fire e s with
      | Some s' => run es' s'
      | None => None
      end
  end.

Inductive reachable (s0 : system) : system -> Prop :=
| reach_refl : reachable s0 s0
| reach_step (s s' : system) (e : event) :
    reachable s0 s -> fire e s = Some s' -> reachable s0 s'.

(** [n] handlers arrive on the world [w], each about to call
    [ensure_cache]. *)
Definition arrive {L : Library} {E : Environ} (n : nat) (w : world) : system :=
  {| shared := w; lock := None; updates := 0;
     threads := List.repeat (Running ensure_cache) n |}.

(** A handler has a request to send or waits for the outcome of one: it
    is inside a handshake sequence, every request of [ensure_cache] being
    one of [init_portal_session_and_channels]. *)
Definition exchanging (th : thread) : bool :=
  match th with
  | Awaiting _ _ => true
  | Running (Request _ _) => true
  | Running _ => false
  end.

(** Number of handshake sequences in flight. *)
Definition in_flight (s : system) : nat :=
  List.length (List.filter exchanging (threads s)).

(** A handler has returned from [ensure_cache], or raised. *)
Definition finished (th : thread) : bool :=
  match th with
  | Running (Leaf _) => true
  | _ => false
  end.

(** What a handler that has left [ensure_cache] got from it. *)
Definition returned (th : thread) : option (result unit) :=
  match th with
  | Running (Leaf r) => Some r
  | _ => None
  end.

(** A tree without lock operations. *)
Inductive lockfree {A : Type} : tree A -> Prop :=
| lockfree_leaf (r : result A) : lockfree (Leaf r)
| lockfree_now (k : Q -> tree A) : (forall now, lockfree (k now)) -> lockfree (Now k)
| lockfree_get (k : cache -> tree A) : (forall c, lockfree (k c)) -> lockfree (GetCache k)
| lockfree_update (c : cache) (k : tree A) : lockfree k -> lockfree (Update c k)
| lockfree_request (rq : request) (k : outcome -> tree A) :
    (forall o, lockfree (k o)) -> lockfree (Request rq k).

(** A tree that runs with the lock held: it does not take the lock, and
    every path of it ends with the release of the lock, and then
    returns or raises. *)
Inductive critical {A : Type} : tree A -> Prop :=
| critical_release (r : result A) : critical (Release (Leaf r))
| critical_now (k : Q -> tree A) : (forall now, critical (k now)) -> critical (Now k)
| critical_get (k : cache -> tree A) : (forall c, critical (k c)) -> critical (GetCache k)
| critical_update (c : cache) (k : tree A) : critical k -> critical (Update c k)
| critical_request (rq : request) (k : outcome -> tree A) :
    (forall o, critical (k o)) -> critical (Request rq k).

(** A handler is inside the [with _lock:] block. *)
Definition inside (th : thread) : Prop :=
  match th with
  | Running t => critical t
  | Awaiting _ k => forall o, critical (k o)
  end.

(** Every handler is about to call [ensure_cache], has left it, or is
    inside the block and holds the lock; and whoever holds the lock is
    inside the block. *)
Definition exclusive {L : Library} {E : Environ} (s : system) : Prop :=
  (forall i th, nth_error (threads s) i = Some th ->
     th = Running ensure_cache \/ finished th = true
     \/ (lock s = Some i /\ inside th))
  /\ (forall i, lock s = Some i ->
        exists th, nth_error (threads s) i = Some th /\ inside th).

(** ** Handlers that test the cache in time *)

(** Once [_cache] has been updated, a handler that reads the clock does so
    before the expiry the cache holds. *)
Definition reads_in_time (e : event) (s : system) : bool :=
  match e with
  | Step i =>
      match nth_error (threads s) i with
      | Some (Running (Now _)) =>
          Nat.eqb (updates s) 0
          || Qlt_bool (clock (shared s)) (expires (the_cache (shared s)))
      | _ => true
      end
  | _ => true
  end.

(** The states the handlers reach from [s0] when each reads the clock in
    time. *)
Inductive in_time (s0 : system) : system -> Prop :=
| in_time_refl : in_time s0 s0
| in_time_step (s s' : system) (e : event) :
    in_time s0 s -> reads_in_time e s = true -> fire e s = Some s' ->
    in_time s0 s'.

(** A schedule each event of which fires in time. *)
Fixpoint timely (es : list event) (s : system) : bool :=
  match es with
  | [] => true
  | e :: es' =>
      reads_in_time e s
      && match fire e s with
         | Some s' => timely es' s'
         | None => false
         end
  end.

(** Number of handshake sequences started so far: the handshake is the only
    request the program posts. *)
Definition handshakes (s : system) : nat := Threads.handshakes (shared s).

(** ** What a tree brings about *)

(** [wp t Q w u]: the tree [t], run on the world [w] after [u] updates of
    the cache, ends with a result, a world and a count of updates of which
    [Q] holds, whatever the clock reads. *)
Fixpoint wp {A : Type} (t : tree A) (Q : result A -> world -> nat -> Prop)
    (w : world) (u : nat) : Prop :=
  match t with
  | Leaf r => Q r w u
  | Acquire k => wp k Q w u
  | Release k => wp k Q w u
  | Now k => forall now, wp (k now) Q w u
  | GetCache k => wp (k (the_cache w)) Q w u
  | Update c k => wp k Q (with_cache c w) (S u)
  | Request rq k => wp (k (upstream w (List.length (sent w)))) Q (posted rq w) u
  end.

(** A tree that only exchanges requests. *)
Inductive requests_only {A : Type} : tree A -> Prop :=
| requests_only_leaf (r : result A) : requests_only (Leaf r)
| requests_only_request (rq : request) (k : outcome -> tree A) :
    (forall o, requests_only (k o)) -> requests_only (Request rq k).

(** A property that does not look at the clock. *)
Definition clockless {A : Type} (Q : result A -> world -> nat -> Prop) : Prop :=
  forall r w u now, Q r w u -> Q r (with_clock now w) u.

Section OneRefresh.
Context {L : Library} {E : Environ}.
Variable w0 : world.

(** The refresh is over: the block returns, one handshake has been posted
    since the arrival on [w0], the cache has been updated and holds a
    catalog that Python takes as true. *)
Definition settled (r : result unit) (w : world) (u : nat) : Prop :=
  r = Ok tt /\ Threads.handshakes w = S (Threads.handshakes w0)
  /\ truthy (channels (the_cache w)) = true /\ (1 <= u)%nat.

(** The block of [ensure_cache] once the lock is taken, and once the cache
    [c] is read. *)
Definition after_acquire : tree unit :=
  finally_release
    (c <- tget_cache ;;
     now <- ttime ;;
     if cache_fresh c now then tret tt else refresh_cache).

Definition after_get (c : cache) : tree unit :=
  finally_release
    (now <- ttime ;;
     if cache_fresh c now then tret tt else refresh_cache).

Definition idle (th : thread) : Prop := th = Running ensure_cache.

Definition idle_or_left (th : thread) : Prop :=
  th = Running ensure_cache \/ th = Running (Leaf (Ok tt)).

Definition others (P : thread -> Prop) (i : nat) (l : list thread) : Prop :=
  forall j th, j <> i -> nth_error l j = Some th -> P th.

(** The handler is about to test the cache [c]. *)
Definition testing (c : cache) (th : thread) : Prop :=
  th = Running after_acquire \/ th = Running (after_get c).

(** The handler is in a refresh that will settle. *)
Definition refreshing (s : system) (th : thread) : Prop :=
  match th with
  | Running t => wp t settled (shared s) (updates s)
  | Awaiting n k => wp (k (upstream (shared s) n)) settled (shared s) (updates s)
  end.

(** Nothing has happened to the world since the arrival but the passing of
    time. *)
Definition before (s : system) : Prop :=
  updates s = 0%nat /\ (clock w0 <= clock (shared s))%Q
  /\ shared s = with_clock (clock (shared s)) w0.

(** The refresh has settled. *)
Definition after (s : system) : Prop :=
  (1 <= updates s)%nat /\ handshakes s = S (Threads.handshakes w0)
  /\ truthy (channels (the_cache (shared s))) = true.

(** Where the handlers that arrived on [w0] can be: nobody has entered; one
    handler is about to test the cache and the others wait; that handler
    is in the refresh; the refresh is over and handlers wait or have been
    served; one of them is about to test the cache or to leave. *)
Definition one_refresh (n : nat) (s : system) : Prop :=
  List.length (threads s) = n
  /\ ((lock s = None /\ Forall idle (threads s) /\ before s)
      \/ (exists i th, lock s = Some i /\ nth_error (threads s) i = Some th
                       /\ others idle i (threads s)
                       /\ testing (the_cache (shared s)) th /\ before s)
      \/ (exists i th, lock s = Some i /\ nth_error (threads s) i = Some th
                       /\ others idle i (threads s) /\ refreshing s th)
      \/ (lock s = None /\ Forall idle_or_left (threads s) /\ after s)
      \/ (exists i th, lock s = Some i /\ nth_error (threads s) i = Some th
                       /\ others idle_or_left i (threads s)
                       /\ (testing (the_cache (shared s)) th
                           \/ th = Running (Release (Leaf (Ok tt))))
                       /\ after s)).

End OneRefresh.

End Effects.

(* ================================================================== *)
(** * The digests of [hashlib] *)
(* ================================================================== *)

(** MD5 (RFC 1321) and SHA-256 (FIPS 180-4) on the UTF-8 encoding of a
    string, with [hexdigest] as [hashlib] prints it.  They give the examples
    a [Library] to run on; the theorems hold for every [Library]. *)
Module Hashlib.

Local Open Scope N_scope.
Local Open Scope list_scope.

Definition mask32 : N := 2 ^ 32 - 1.
Definition w32 (x : N) : N := N.land x mask32.
Definition add32 (x y : N) : N := w32 (x + y).
Definition not32 (x : N) : N := N.lxor (w32 x) mask32.
Definition rotl (n x : N) : N := w32 (N.lor (N.shiftl x n) (N.shiftr x (32 - n))).
Definition rotr (n x : N) : N := rotl (32 - n) x.

(** [s.encode('utf-8')] for code points below 256. *)
Definition utf8 (s : string) : list N :=
  List.flat_map
    (fun c => let n := Py.ord c in
              if n <? 128 then [n] else [192 + n / 64; 128 + n mod 64])
    (String.list_ascii_of_string s).

Fixpoint le_bytes (k : nat) (x : N) : list N :=
  match k with
  | O => []
  | S k' => (x mod 256) :: le_bytes k' (x / 256)
  end.

Definition be_bytes (k : nat) (x : N) : list N := List.rev (le_bytes k x).

Definition be_word (bytes : list N) : N :=
  List.fold_left (fun acc b => acc * 256 + b) bytes 0.

Definition le_word (bytes : list N) : N := be_word (List.rev bytes).

(** Consecutive groups of [n] items; [fuel] bounds their number. *)
Fixpoint group_by {A : Type} (fuel n : nat) (l : list A) : list (list A) :=
  match fuel with
  | O => []
  | S fuel' =>
      match l with
      | [] => []
      | _ => List.firstn n l :: group_by fuel' n (List.skipn n l)
      end
  end.

Definition groups {A : Type} (n : nat) (l : list A) : list (list A) :=
  group_by (List.length l) n l.

(** The padding both digests share: a 0x80 byte, zeros up to 56 modulo 64,
    then the bit length on eight bytes, written by [len_bytes]. *)
Definition pad (len_bytes : nat -> N -> list N) (msg : list N) : list N :=
  let len := List.length msg in
  let zeros := Nat.modulo (119 - Nat.modulo len 64) 64 in
  msg ++ [128] ++ List.repeat 0 zeros ++ len_bytes 8%nat (8 * N.of_nat len).

Definition hex (bytes : list N) : string :=
  String.concat EmptyString (List.map (Py.hex2 false) bytes).

(** ** SHA-256 *)

Definition K256 : list N :=
  [1116352408; 1899447441; 3049323471; 3921009573; 961987163; 1508970993;
   2453635748; 2870763221; 3624381080; 310598401; 607225278; 1426881987;
   1925078388; 2162078206; 2614888103; 3248222580; 3835390401; 4022224774;
   264347078; 604807628; 770255983; 1249150122; 1555081692; 1996064986;
   2554220882; 2821834349; 2952996808; 3210313671; 3336571891; 3584528711;
   113926993; 338241895; 666307205; 773529912; 1294757372; 1396182291;
   1695183700; 1986661051; 2177026350; 2456956037; 2730485921; 2820302411;
   3259730800; 3345764771; 3516065817; 3600352804; 4094571909; 275423344;
   430227734; 506948616; 659060556; 883997877; 958139571; 1322822218;
   1537002063; 1747873779; 1955562222; 2024104815; 2227730452; 2361852424;
   2428436474; 2756734187; 3204031479; 3329325298].

Definition H256 : list N :=
  [1779033703; 3144134277; 1013904242; 2773480762; 1359893119; 2600822924;
   528734635; 1541459225].

Definition xor3 (x y z : N) : N := N.lxor (N.lxor x y) z.
Definition bsig0 (x : N) : N := xor3 (rotr 2 x) (rotr 13 x) (rotr 22 x).
Definition bsig1 (x : N) : N := xor3 (rotr 6 x) (rotr 11 x) (rotr 25 x).
Definition ssig0 (x : N) : N := xor3 (rotr 7 x) (rotr 18 x) (N.shiftr x 3).
Definition ssig1 (x : N) : N := xor3 (rotr 17 x) (rotr 19 x) (N.shiftr x 10).
Definition ch (x y z : N) : N := N.lxor (N.land x y) (N.land (not32 x) z).
Definition maj (x y z : N) : N := xor3 (N.land x y) (N.land x z) (N.land y z).

(** The words 16 to 63 of the message schedule; [recent] holds the words
    computed so far, the latest first. *)
Fixpoint schedule (k : nat) (recent : list N) : list N :=
  match k with
  | O => []
  | S k' =>
      let w := add32 (add32 (ssig1 (List.nth 1 recent 0)) (List.nth 6 recent 0))
                     (add32 (ssig0 (List.nth 14 recent 0)) (List.nth 15 recent 0)) in
      w :: schedule k' (w :: recent)
  end.

Definition round256 (st : list N) (kw : N * N) : list N :=
  match st with
  | [a; b; c; d; e; f; g; h] =>
      let t1 := w32 (h + bsig1 e + ch e f g + fst kw + snd kw) in
      let t2 := add32 (bsig0 a) (maj a b c) in
      [add32 t1 t2; a; b; c; add32 d t1; e; f; g]
  | _ => st
  end.

Definition compress256 (st : list N) (block : list N) : list N :=
  let ws := List.map be_word (groups 4 block) in
  let ws := ws ++ schedule 48 (List.rev ws) in
  List.map (fun p => add32 (fst p) (snd p))
           (List.combine st (List.fold_left round256 (List.combine K256 ws) st)).

Definition sha256 (msg : list N) : list N :=
  List.flat_map (be_bytes 4)
    (List.fold_left compress256 (groups 64 (pad be_bytes msg)) H256).

(** ** MD5 *)

Definition T5 : list N :=
  [3614090360; 3905402710; 606105819; 3250441966; 4118548399; 1200080426;
   2821735955; 4249261313; 1770035416; 2336552879; 4294925233; 2304563134;
   1804603682; 4254626195; 2792965006; 1236535329; 4129170786; 3225465664;
   643717713; 3921069994; 3593408605; 38016083; 3634488961; 3889429448;
   568446438; 3275163606; 4107603335; 1163531501; 2850285829; 4243563512;
   1735328473; 2368359562; 4294588738; 2272392833; 1839030562; 4259657740;
   2763975236; 1272893353; 4139469664; 3200236656; 681279174; 3936430074;
   3572445317; 76029189; 3654602809; 3873151461; 530742520; 3299628645;
   4096336452; 1126891415; 2878612391; 4237533241; 1700485571; 2399980690;
   4293915773; 2240044497; 1873313359; 4264355552; 2734768916; 1309151649;
   4149444226; 3174756917; 718787259; 3951481745].

Definition S5 : list N :=
  let four (l : list N) := l ++ l ++ l ++ l in
  four [7; 12; 17; 22] ++ four [5; 9; 14; 20]
  ++ four [4; 11; 16; 23] ++ four [6; 10; 15; 21].

Definition H5 : list N := [1732584193; 4023233417; 2562383102; 271733878].

Definition round5 (m : list N) (st : list N) (iks : nat * (N * N)) : list N :=
  match st with
  | [a; b; c; d] =>
      let i := fst iks in
      let fg :=
        if Nat.ltb i 16 then (N.lor (N.land b c) (N.land (not32 b) d), i)
        else if Nat.ltb i 32
        then (N.lor (N.land d b) (N.land (not32 d) c), Nat.modulo (5 * i + 1) 16)
        else if Nat.ltb i 48 then (xor3 b c d, Nat.modulo (3 * i + 5) 16)
        else (N.lxor c (N.lor b (not32 d)), Nat.modulo (7 * i) 16) in
      let f := w32 (fst fg + a + fst (snd iks) + List.nth (snd fg) m 0) in
      [d; add32 b (rotl (snd (snd iks)) f); b; c]
  | _ => st
  end.

Definition compress5 (st : list N) (block : list N) : list N :=
  let m := List.map le_word (groups 4 block) in
  List.map (fun p => add32 (fst p) (snd p))
           (List.combine st
              (List.fold_left (round5 m)
                 (List.combine (List.seq 0 64) (List.combine T5 S5)) st)).

Definition md5 (msg : list N) : list N :=
  List.flat_map (le_bytes 4)
    (List.fold_left compress5 (groups 64 (pad le_bytes msg)) H5).

End Hashlib.

(* ================================================================== *)
(** * Upstreams and inputs used in the examples *)
(* ================================================================== *)

Module Scenario.

(** The library of the examples: the two digests computed, every
    bracketed host refused (telling the valid ones apart takes a parser of
    IP literals; no example has a bracket), and no string refused by the
    NFKC check or by the UTF-8 encoder, as on every string of code points
    below 256. *)
Definition reference_library : Library :=
  {| md5_hexdigest := fun s => Hashlib.hex (Hashlib.md5 (Hashlib.utf8 s));
     sha256_hexdigest := fun s => Hashlib.hex (Hashlib.sha256 (Hashlib.utf8 s));
     check_bracketed_netloc := fun _ => Some "Invalid IPv6 URL";
     check_nfkc_netloc := fun _ => None;
     utf8_encodable := fun _ => true |}.

(** A JSON body as an upstream writes it, for the bodies used below: no
    character of their strings needs an escape. *)
Fixpoint dumps (v : value) : string :=
  match v with
  | VNone => "null"
  | VBool true => "true"
  | VBool false => "false"
  | VInt n => Py.str_of_Z n
  | VStr s => String Repr.dquote (s ++ String Repr.dquote EmptyString)
  | VList items => "[" ++ Py.join ", " (List.map dumps items) ++ "]"
  | VDict entries =>
      "{" ++ Py.join ", "
               (List.map (fun kv => String Repr.dquote (fst kv ++ String Repr.dquote ": ")
                                      ++ dumps (snd kv)) entries)
          ++ "}"
  end.

(** A 200 response whose body is the JSON text of [v]. *)
Definition json_reply (v : value) : outcome :=
  Reply {| status_code := 200; text := dumps v; json := Some v |}.

(** A response with a status and a body that is not JSON. *)
Definition plain_reply (status : Z) (body : string) : outcome :=
  Reply {| status_code := status; text := body; json := None |}.

Definition handshake_T1 : value := VDict [("js", VDict [("token", VStr "T1")])].

Definition profile_ok : value := VDict [("js", VDict [])].

Definition news : value :=
  VDict [("id", VInt 5); ("name", VStr "News"); ("logo", VStr "n.png");
         ("cmd", VStr "ffrt http://n/play")].

Definition local_channel : value :=
  VDict [("id", VStr "7"); ("name", VStr "Local"); ("logo", VStr "l.png");
         ("cmd", VStr "ffmpeg http://x/stream")].

Definition catalog (chs : list value) : value :=
  VDict [("js", VDict [("data", VList chs)])].

(** The upstream of the end-to-end scenario: a token, a profile, a catalog
    of two channels, then a link for every [create_link]. *)
Definition portal (n : nat) : outcome :=
  match n with
  | 0%nat => json_reply handshake_T1
  | 1%nat => json_reply profile_ok
  | 2%nat => json_reply (catalog [news; local_channel])
  | _ => json_reply (VDict [("js", VDict [("cmd", VStr "ffrt http://n/play")])])
  end.

(** An upstream that serves every session acquisition with an empty
    catalog. *)
Definition empty_portal (n : nat) : outcome :=
  match Nat.modulo n 3 with
  | 0%nat => json_reply handshake_T1
  | 1%nat => json_reply profile_ok
  | _ => json_reply (catalog [])
  end.

(** An upstream that serves every session acquisition with a catalog of
    one channel. *)
Definition steady_portal (n : nat) : outcome :=
  match Nat.modulo n 3 with
  | 0%nat => json_reply handshake_T1
  | 1%nat => json_reply profile_ok
  | _ => json_reply (catalog [news])
  end.

(** An upstream that is down. *)
Definition dead_portal (n : nat) : outcome := NoResponse.

(** An upstream whose catalog answer has [null] where the result object
    should be. *)
Definition null_js_portal (n : nat) : outcome :=
  match n with
  | 0%nat => json_reply handshake_T1
  | 1%nat => json_reply profile_ok
  | _ => json_reply (VDict [("js", VNone)])
  end.

(** An upstream whose catalog answer is a 200 with a body that is not
    JSON. *)
Definition html_catalog_portal (n : nat) : outcome :=
  match n with
  | 0%nat => json_reply handshake_T1
  | 1%nat => json_reply profile_ok
  | _ => plain_reply 200 "<html>maintenance</html>"
  end.

(** An upstream whose profile answer has the result wrapper but comes with
    status 500. *)
Definition profile_500_portal (n : nat) : outcome :=
  match n with
  | 0%nat => json_reply handshake_T1
  | 1%nat => Reply {| status_code := 500; text := dumps profile_ok;
                      json := Some profile_ok |}
  | _ => json_reply (catalog [news])
  end.

(** An upstream whose profile answer has no [js] key, only a key that
    starts with the same two letters. *)
Definition jsx_portal (n : nat) : outcome :=
  match n with
  | 0%nat => json_reply handshake_T1
  | 1%nat => json_reply (VDict [("jsx", VInt 1)])
  | _ => json_reply (catalog [news])
  end.

(** An upstream that fails twice on [create_link] and then answers. *)
Definition flaky_portal (n : nat) : outcome :=
  match n with
  | 0%nat => json_reply handshake_T1
  | 1%nat => json_reply profile_ok
  | 2%nat => json_reply (catalog [news])
  | 3%nat => NoResponse
  | 4%nat => plain_reply 503 "busy"
  | _ => json_reply (VDict [("js", VDict [("cmd", VStr "ffrt http://n/play")])])
  end.

(** Every exchange takes a quarter of a second. *)
Definition quarter (n : nat) : Q := 1 # 4.

(** The defaults, but for a cache that expires as soon as it is stored. *)
Definition no_ttl_environ : Environ :=
  {| PORTAL_BASE_URL := "http://tatatv.cc/stalker_portal/c/";
     PORTAL_MAC := "00:1A:79:00:13:DA";
     PORTAL_TYPE := "1";
     CACHE_TTL := 0 |}.

(** The handler [i] goes through [ensure_cache] on its own: it takes the
    lock, reads the cache and the clock, and then
    - [refresh_pass]: exchanges the three requests, reads the clock,
      updates the cache and releases the lock;
    - [failed_pass]: gets no answer to its first request and releases the
      lock;
    - [served_pass]: releases the lock. *)
Definition refresh_pass (i : nat) : list Effects.event :=
  [Effects.Step i; Effects.Step i; Effects.Step i;
   Effects.Step i; Effects.Answer i;
   Effects.Step i; Effects.Answer i;
   Effects.Step i; Effects.Answer i;
   Effects.Step i; Effects.Step i; Effects.Step i].

Definition failed_pass (i : nat) : list Effects.event :=
  [Effects.Step i; Effects.Step i; Effects.Step i;
   Effects.Step i; Effects.Answer i; Effects.Step i].

Definition served_pass (i : nat) : list Effects.event :=
  [Effects.Step i; Effects.Step i; Effects.Step i; Effects.Step i].

End Scenario.

(* ================================================================== *)
(** * Notions the statements and the proofs use *)
(* ================================================================== *)

(** The command a [create_link] exchange yields, if any: a 200 response
    whose JSON body is an object, with an object under [js], with a
    non-empty string under [cmd]. *)
Definition usable_cmd (o : outcome) : option string :=
  match o with
  | NoResponse => None
  | Reply r =>
      if (status_code r =? 200)%Z then
        match json r with
        | Some (VDict body) =>
            match assoc "js" body with
            | Some (VDict js) =>
                match assoc "cmd" js with
                | Some (VStr (String a c)) => Some (String a c)
                | _ => None
                end
            | _ => None
            end
        | _ => None
        end
      else None
  end.

(** The world once a request has been sent. *)
Definition log_request (rq : request) (w : world) : world :=
  {| the_cache := the_cache w;
     sent := (sent w ++ [rq])%list;
     clock := clock w + latency w (List.length (sent w));
     upstream := upstream w;
     latency := latency w |}.

(** The handshake answer carries a token: status 200 and a JSON object
    with an object under [js] and a true value under [token]. *)
Definition grants (r0 : response) (tok : value) : Prop :=
  status_code r0 = 200%Z
  /\ exists body js,
       json r0 = Some (VDict body) /\ assoc "js" body = Some (VDict js)
       /\ assoc "token" js = Some tok /\ truthy tok = true.

(** The last lines of [init_portal_session_and_channels]: what it does
    with the answer to the catalog request. *)
Definition parse_catalog (session : Session) (headers : dict) (resp : response)
  : M (Session * dict * value) :=
  data <- (if response_ok resp && (status_code resp =? 200)%Z
           then lift (resp_json resp) else ret (VDict [])) ;;
  channels <- (if is_dict data
               then js <- lift (py_get data "js" (VDict [])) ;;
                    lift (py_get js "data" (VList []))
               else ret (VList [])) ;;
  ret (session, headers, channels).

(** The delimiters that end the network location of a URL. *)
Definition is_delim (c : ascii) : bool := Py.mem c "/?#".

(** The short name [normalize_url_and_name] derives from a network
    location. *)
Definition name_of (netloc : string) : string :=
  Py.lower (if Py.contains "." netloc
            then Py.join EmptyString (Py.last_two (Py.split "." netloc))
            else Py.replace "." EmptyString netloc).

(** The input of [normalize_url_and_name] once stripped and given a
    scheme. *)
Definition with_scheme (input_url : string) : string :=
  let url := Py.strip input_url in
  if negb (Py.startswith "http://" url) && negb (Py.startswith "https://" url)
  then "http://" ++ url else url.

(** The network location [urlsplit] finds in that input: what follows
    "http://" or "https://", without its tabs, carriage returns and line
    feeds, up to the first of the characters [/?#]. *)
Definition netloc_of (input_url : string) : string :=
  let url := with_scheme input_url in
  let r := if Py.startswith "http://" url then Py.drop 7 url else Py.drop 8 url in
  fst (Urllib.break (fun c => Py.mem c "/?#") (Urllib.remove_unsafe r)).

(** Every character of the string satisfies [p]. *)
Fixpoint all_chars (p : ascii -> bool) (s : string) : bool :=
  match s with
  | EmptyString => true
  | String c s' => p c && all_chars p s'
  end.

(** The last character of the string satisfies [p]. *)
Fixpoint last_char (p : ascii -> bool) (s : string) : bool :=
  match s with
  | EmptyString => false
  | String c EmptyString => p c
  | String _ s' => last_char p s'
  end.

(** What the log keeps of a request, its cookies apart: the method, the
    URL, the headers and the timeout the program passed. *)
Definition request_line (rq : request) : http_method * string * option dict * Q :=
  (req_method rq, req_url rq, req_headers rq, req_timeout rq).

(** What [create_link] returns for the command [c] of an answer. *)
Definition clean_link (c : string) : string :=
  Py.strip (Py.replace "ffrt " EmptyString c).

(** [w'] extends [w]: same cache, same upstream, a log that has grown by
    [extra], and a clock that has not gone back when no latency is
    negative. *)
Definition extends (w w' : world) (extra : list request) : Prop :=
  the_cache w' = the_cache w /\ upstream w' = upstream w
  /\ latency w' = latency w /\ sent w' = (sent w ++ extra)%list
  /\ ((forall k, (0 <= latency w k)%Q) -> (clock w <= clock w')%Q).

(** The computation touches the log and the clock only, and what it logs
    satisfies [P]. *)
Definition logs (P : list request -> Prop) {A : Type} (m : M A) : Prop :=
  forall w r w', m w = (r, w') -> exists extra, extends w w' extra /\ P extra.

(** The two instances: any requests, and GET requests only. *)
Definition any_requests (l : list request) : Prop := True.

Definition only_gets (l : list request) : Prop :=
  Forall (fun rq => req_method rq = GET) l.

Definition not_delim (c : ascii) : bool := negb (is_delim c).
Definition not_unsafe (c : ascii) : bool := negb (Urllib.unsafe c).

Section Notions.
Context {L : Library} {E : Environ}.

(** A cache written by one refresh: all five fields come from one
    successful run of the session acquisition. *)
Definition populated (c : cache) : Prop :=
  exists (base pname : string) (w w' : world) (s : Session) (h : dict) (ch : value),
    normalize_url_and_name PORTAL_BASE_URL = Ok (base, pname)
    /\ init_portal_session_and_channels base PORTAL_MAC PORTAL_TYPE w = (Ok (s, h, ch), w')
    /\ c = {| session := Some s; headers := Some h; channels := ch;
              portal_name := Some pname;
              expires := clock w' + inject_Z CACHE_TTL |}.

(** The check [urlsplit] runs on the brackets of a network location: the
    exception it raises, if any. *)
Definition bracket_check (nl : string) : option exn :=
  let lb := Py.mem "[" nl in
  let rb := Py.mem "]" nl in
  if xorb lb rb then Some (ValueError "Invalid IPv6 URL")
  else if lb && rb then option_map ValueError (check_bracketed_netloc nl)
  else None.

(** What [urlsplit] does with the text [r] that follows "scheme://": the
    unsafe characters go, the network location runs up to the first
    delimiter and is checked, and the rest is split at the fragment and the
    query. *)
Definition parse_tail (sch : string) (r : string) : result Urllib.SplitResult :=
  let (nl, rest) := Urllib.break is_delim (Urllib.remove_unsafe r) in
  match bracket_check nl with
  | Some e => Raise e
  | None =>
      let (url, frag) := Urllib.split_once "#" rest in
      let (url, qry) := Urllib.split_once "?" url in
      match Urllib.checknetloc nl with
      | Some msg => Raise (ValueError msg)
      | None =>
          Ok {| Urllib.scheme := sch; Urllib.netloc := nl; Urllib.path := url;
                Urllib.query := qry; Urllib.fragment := frag |}
      end
  end.

(** What [urlsplit] holds against a network location: the exception of
    the check of its brackets, or else of the check of its NFKC form. *)
Definition netloc_check (nl : string) : option exn :=
  match bracket_check nl with
  | Some e => Some e
  | None => option_map ValueError (Urllib.checknetloc nl)
  end.

End Notions.
(* ================================================================== *)
(** * Further notions: time, well-formed catalogs, more upstreams *)
(* ================================================================== *)

(** The time the [n] exchanges numbered from [from] take. *)
Fixpoint waited (lat : nat -> Q) (from n : nat) : Q :=
  match n with
  | O => 0
  | S k => lat from + waited lat (S from) k
  end.

(** The characters a quoted text is made of: those [quote] leaves alone,
    and the percent sign of its escapes. *)
Definition quoted_char (c : ascii) : bool := Py.quote_safe c || Ascii.eqb c "%".

(** A turn of the loop of [create_link] that yields nothing: it sends its
    request and pauses for [d] seconds. *)
Definition idle_turn (url : string) (s : Session) (hs : option dict) (d : Q)
    (w : world) : Prop :=
  exists w1,
    try_except (create_link_attempt url (Some s) hs)
               (time_sleep (1 # 2) ;;; ret None) w = (Ok None, w1)
    /\ upstream w1 = upstream w /\ latency w1 = latency w
    /\ List.length (sent w1) = S (List.length (sent w))
    /\ (clock w1 == clock w + latency w (List.length (sent w)) + d)%Q.

(** The handshake answer carries no token: another status than 200, or a
    JSON object without [js], or with an object under [js] that has no
    token, or one that Python takes as false. *)
Definition refuses (r0 : response) : Prop :=
  status_code r0 <> 200%Z
  \/ exists body,
       json r0 = Some (VDict body)
       /\ (assoc "js" body = None
           \/ exists js, assoc "js" body = Some (VDict js)
                         /\ forall tok, assoc "token" js = Some tok -> truthy tok = false).

(** The catalog answer carries no catalog: another status than 200, or a
    JSON value that is not an object, or an object without [js]. *)
Definition no_catalog (r2 : response) : Prop :=
  status_code r2 <> 200%Z
  \/ (exists v, json r2 = Some v /\ is_dict v = false)
  \/ (exists body, json r2 = Some (VDict body) /\ assoc "js" body = None).

(** The three requests of a session acquisition that runs to its end. *)
Definition acquisition_requests (base_url mac portal_type : string) (h : dict)
    (sn device_id signature : string) : list request :=
  let prefix := portal_prefix portal_type in
  [ {| req_method := POST; req_url := handshake_url base_url prefix;
       req_headers := Some (stb_headers base_url prefix);
       req_cookies := [("mac", mac)]; req_timeout := 10 |};
    {| req_method := GET;
       req_url := profile_url base_url prefix sn device_id signature;
       req_headers := Some h; req_cookies := [("mac", mac)]; req_timeout := 10 |};
    {| req_method := GET; req_url := all_url base_url prefix;
       req_headers := Some h; req_cookies := [("mac", mac)]; req_timeout := 15 |} ].

(** A catalog item [getlink] can serve: an object whose [cmd], when it has
    one, is a string. *)
Definition well_formed (item : value) : bool :=
  match item with
  | VDict d =>
      match assoc "cmd" d with
      | None => true
      | Some (VStr _) => true
      | Some _ => false
      end
  | _ => false
  end.

(** The command of a catalog item, when it is a string, is one that
    [create_link] can put in its URL: UTF-8 can encode it, once stripped by
    [getlink] and stripped and freed of its "ffrt " by [create_link]. *)
Definition encodable_cmd {L : Library} (item : value) : bool :=
  match item with
  | VDict d =>
      match assoc "cmd" d with
      | Some (VStr raw) =>
          utf8_encodable (Py.replace "ffrt " EmptyString (Py.strip (Py.strip raw)))
      | _ => true
      end
  | _ => true
  end.

(** The item is an object whose [id], written as [str] writes it, is
    [target]. *)
Definition has_id (target : string) (item : value) : bool :=
  match py_get item "id" VNone with
  | Ok i => String.eqb (py_str i) target
  | Raise _ => false
  end.

(** Hexadecimal digits, in lower and in upper case. *)
Definition hex_lower (c : ascii) : bool :=
  Py.between 48 57 (Py.ord c) || Py.between 97 102 (Py.ord c).

Definition hex_upper (c : ascii) : bool :=
  Py.between 48 57 (Py.ord c) || Py.between 65 70 (Py.ord c).

(** A digest as [hexdigest] prints it: [n] hexadecimal digits in lower
    case. *)
Definition is_hexdigest (n : nat) (s : string) : bool :=
  Nat.eqb (String.length s) n && all_chars hex_lower s.

(** The same digits once [upper] has been applied. *)
Definition is_upper_hex (n : nat) (s : string) : bool :=
  Nat.eqb (String.length s) n && all_chars hex_upper s.

(* ================================================================== *)
(** * Properties *)
(* ================================================================== *)

Unset Implicit Arguments.

(** Discharge the first hypothesis of [H] as a goal of its own. *)
Ltac feed H :=
  match type of H with
  | ?A -> _ =>
      let Hx := fresh in
      assert (Hx : A); [ | specialize (H Hx); clear Hx ]
  end.

(** Case analysis on the innermost scrutinee of a hypothesis. *)
Ltac break_innermost H :=
  match type of H with
  | context [match ?x with _ => _ end] =>
      lazymatch x with
      | context [match _ with _ => _ end] => fail
      | negb ?b => destruct b; cbn [negb] in H
      | _ => destruct x
      end
  end.

(** ** Clock readings *)

Lemma Qlt_bool_true (x y : Q) : Qlt_bool x y = true <-> (x < y)%Q.
Proof.
  unfold Qlt_bool. rewrite negb_true_iff. split.
  - intros H. apply Qnot_le_lt. intros Hle.
    apply Qle_bool_iff in Hle. congruence.
  - intros H. destruct (Qle_bool y x) eqn:Hb; [|reflexivity].
    apply Qle_bool_iff in Hb. exfalso. apply (Qlt_not_le _ _ H Hb).
Qed.

Lemma Qlt_bool_false (x y : Q) : Qlt_bool x y = false <-> (y <= x)%Q.
Proof.
  unfold Qlt_bool. rewrite negb_false_iff. apply Qle_bool_iff.
Qed.

(** ** What a computation leaves alone *)

Lemma extends_refl (w : world) : extends w w [].
Proof.
  unfold extends. rewrite app_nil_r. repeat split; auto. intros _. apply Qle_refl.
Qed.

Lemma extends_trans (w1 w2 w3 : world) (e1 e2 : list request) :
  extends w1 w2 e1 -> extends w2 w3 e2 -> extends w1 w3 (e1 ++ e2)%list.
Proof.
  unfold extends.
  intros (Hc1 & Hu1 & Hl1 & Hs1 & Hk1) (Hc2 & Hu2 & Hl2 & Hs2 & Hk2).
  repeat split; try congruence.
  - rewrite Hs2, Hs1, app_assoc. reflexivity.
  - intros Hlat. eapply Qle_trans; [apply Hk1; exact Hlat|].
    apply Hk2. rewrite Hl1. exact Hlat.
Qed.

Section Frame.

(** A property of the requests a computation adds to the log, which holds
    of no request at all and of two runs in a row. *)
Variable P : list request -> Prop.
Hypothesis P_nil : P [].
Hypothesis P_app : forall a b, P a -> P b -> P (a ++ b)%list.

Lemma logs_ret {A : Type} (a : A) : logs P (ret a).
Proof. intros w r w' H. inversion H; subst. exists []. auto using extends_refl. Qed.

Lemma logs_raise {A : Type} (e : exn) : logs P (@raise A e).
Proof. intros w r w' H. inversion H; subst. exists []. auto using extends_refl. Qed.

Lemma logs_lift {A : Type} (x : result A) : logs P (lift x).
Proof. intros w r w' H. inversion H; subst. exists []. auto using extends_refl. Qed.

Lemma logs_time : logs P time_time.
Proof. intros w r w' H. inversion H; subst. exists []. auto using extends_refl. Qed.

Lemma logs_get_cache : logs P get_cache.
Proof. intros w r w' H. inversion H; subst. exists []. auto using extends_refl. Qed.

Lemma logs_sleep (d : Q) : (0 <= d)%Q -> logs P (time_sleep d).
Proof.
  intros Hd w r w' H. inversion H; subst. exists []. split; [|exact P_nil].
  unfold extends; simpl. rewrite app_nil_r. repeat split; auto.
  intros _. lra.
Qed.

Lemma logs_bind {A B : Type} (m : M A) (k : A -> M B) :
  logs P m -> (forall a, logs P (k a)) -> logs P (bind m k).
Proof.
  intros Hm Hk w r w' H. unfold bind in H.
  destruct (m w) as [[a|e] w1] eqn:Em.
  - destruct (Hm _ _ _ Em) as (e1 & H1 & P1).
    destruct (Hk a _ _ _ H) as (e2 & H2 & P2).
    exists (e1 ++ e2)%list. split; [eapply extends_trans; eauto|auto].
  - inversion H; subst. eapply Hm; eauto.
Qed.

Lemma logs_try {A : Type} (m h : M A) :
  logs P m -> logs P h -> logs P (try_except m h).
Proof.
  intros Hm Hh w r w' H. unfold try_except in H.
  destruct (m w) as [[a|e] w1] eqn:Em.
  - inversion H; subst. eapply Hm; eauto.
  - destruct (Hm _ _ _ Em) as (e1 & H1 & P1).
    destruct (Hh _ _ _ H) as (e2 & H2 & P2).
    exists (e1 ++ e2)%list. split; [eapply extends_trans; eauto|auto].
Qed.

Lemma logs_if {A : Type} (b : bool) (m1 m2 : M A) :
  logs P m1 -> logs P m2 -> logs P (if b then m1 else m2).
Proof. destruct b; auto. Qed.

Lemma request_extends (m : http_method) (s : Session) (url : string)
    (hs : option dict) (t : Q) (w : world) (r : result response) (w' : world) :
  session_request m s url hs t w = (r, w') ->
  extends w w' [{| req_method := m; req_url := url; req_headers := hs;
                   req_cookies := cookies s; req_timeout := t |}].
Proof.
  intros H. unfold session_request in H.
  assert (Hw : w' = {| the_cache := the_cache w;
                       sent := (sent w ++ [{| req_method := m; req_url := url;
                                              req_headers := hs;
                                              req_cookies := cookies s;
                                              req_timeout := t |}])%list;
                       clock := clock w + latency w (List.length (sent w));
                       upstream := upstream w; latency := latency w |}).
  { destruct (upstream w (List.length (sent w))); inversion H; reflexivity. }
  subst w'. unfold extends; simpl. repeat split; auto.
  intros Hlat. specialize (Hlat (List.length (sent w))). lra.
Qed.

Lemma logs_request (m : http_method) (s : Session) (url : string)
    (hs : option dict) (t : Q) :
  P [{| req_method := m; req_url := url; req_headers := hs;
        req_cookies := cookies s; req_timeout := t |}] ->
  logs P (session_request m s url hs t).
Proof.
  intros HP w r w' H. eexists. split; [eapply request_extends; eauto|exact HP].
Qed.

End Frame.

Lemma only_gets_app (a b : list request) :
  only_gets a -> only_gets b -> only_gets (a ++ b)%list.
Proof. unfold only_gets. intros. apply Forall_app. auto. Qed.

Lemma only_gets_nil : only_gets [].
Proof. constructor. Qed.

Lemma half_nonneg : (0 <= 1 # 2)%Q.
Proof. unfold Qle; simpl; lia. Qed.

Ltac logs_tac :=
  repeat first
    [ exact only_gets_nil | exact only_gets_app
    | exact I | solve [ intros; exact I ]
    | apply half_nonneg
    | solve [ repeat constructor ]
    | apply logs_bind; [ .. | intros ? ]
    | apply logs_try
    | apply logs_if
    | apply logs_ret | apply logs_raise | apply logs_lift | apply logs_time
    | apply logs_get_cache
    | apply logs_sleep
    | apply logs_request
    | match goal with
      | |- logs _ (match ?x with _ => _ end) => destruct x
      end ].

Section ProgramFacts.
Context {L : Library} {E : Environ}.

(** After its first request the session acquisition sends GET requests
    only. *)
Lemma init_portal_trace (base mac ptype : string) (w : world)
    (r : result (Session * dict * value)) (w' : world) :
  init_portal_session_and_channels base mac ptype w = (r, w') ->
  exists gets,
    extends w w'
      ({| req_method := POST;
          req_url := handshake_url base (portal_prefix ptype);
          req_headers := Some (stb_headers base (portal_prefix ptype));
          req_cookies := [("mac", mac)];
          req_timeout := 10 |} :: gets)
    /\ only_gets gets.
Proof.
  unfold init_portal_session_and_channels, session_post. intros H.
  unfold bind at 1 in H.
  match type of H with
  | context [session_request ?m ?s ?u ?h ?t w] =>
      destruct (session_request m s u h t w) as [[resp|e] w1] eqn:Eq;
      apply request_extends in Eq
  end.
  - match type of H with
    | ?m w1 = _ =>
        assert (Hl : logs only_gets m)
    end.
    { unfold session_get. logs_tac. }
    destruct (Hl _ _ _ H) as (gets & Hx & Hg).
    exists gets. split; [|exact Hg].
    exact (extends_trans _ _ _ _ _ Eq Hx).
  - inversion H; subst. exists []. split; [exact Eq|exact only_gets_nil].
Qed.

Lemma create_link_loop_logs (n : nat) (url : string) (s : option Session)
    (hs : option dict) : logs only_gets (create_link_loop n url s hs).
Proof.
  induction n as [|n IH]; simpl.
  - logs_tac.
  - apply logs_bind; [exact only_gets_app| |].
    + unfold create_link_attempt, session_get. logs_tac.
    + intros [link|]; [logs_tac|exact IH].
Qed.

End ProgramFacts.

(** ** The session cache *)

Section CacheFacts.
Context {L : Library} {E : Environ}.

Lemma refresh_cache_ok (w w1 : world) :
  refresh_cache w = (Ok tt, w1) ->
  exists (base pname : string) (w' : world) (s : Session) (h : dict) (ch : value),
    normalize_url_and_name PORTAL_BASE_URL = Ok (base, pname)
    /\ init_portal_session_and_channels base PORTAL_MAC PORTAL_TYPE w = (Ok (s, h, ch), w')
    /\ w1 = with_cache {| session := Some s; headers := Some h; channels := ch;
                          portal_name := Some pname;
                          expires := clock w' + inject_Z CACHE_TTL |} w'.
Proof.
  unfold refresh_cache, bind, lift. intros H.
  destruct (normalize_url_and_name PORTAL_BASE_URL) as [[base pname]|e] eqn:En;
    [|discriminate].
  destruct (init_portal_session_and_channels base PORTAL_MAC PORTAL_TYPE w)
    as [[[[s h] ch]|e] w'] eqn:Ei; [|discriminate].
  unfold time_time, update_cache in H. inversion H; subst.
  exists base, pname, w', s, h, ch. auto.
Qed.

Lemma refresh_cache_raise (w w1 : world) (e : exn) :
  refresh_cache w = (Raise e, w1) ->
  the_cache w1 = the_cache w
  /\ ((normalize_url_and_name PORTAL_BASE_URL = Raise e /\ w1 = w)
      \/ exists base pname,
           normalize_url_and_name PORTAL_BASE_URL = Ok (base, pname)
           /\ init_portal_session_and_channels base PORTAL_MAC PORTAL_TYPE w
              = (Raise e, w1)).
Proof.
  unfold refresh_cache, bind, lift. intros H.
  destruct (normalize_url_and_name PORTAL_BASE_URL) as [[base pname]|e0] eqn:En.
  - destruct (init_portal_session_and_channels base PORTAL_MAC PORTAL_TYPE w)
      as [[[[s h] ch]|e1] w'] eqn:Ei.
    + unfold time_time, update_cache in H. discriminate.
    + inversion H; subst. split.
      * apply init_portal_trace in Ei. destruct Ei as (gets & Hx & _). apply Hx.
      * right. exists base, pname. auto.
  - inversion H; subst. auto.
Qed.

Lemma ensure_cache_unfold (w : world) :
  ensure_cache w
  = if cache_fresh (the_cache w) (clock w) then (Ok tt, w) else refresh_cache w.
Proof.
  unfold ensure_cache, bind, get_cache, time_time, ret.
  destruct (cache_fresh (the_cache w) (clock w)); reflexivity.
Qed.

Lemma refresh_cache_populated (w w1 : world) :
  refresh_cache w = (Ok tt, w1) -> populated (the_cache w1).
Proof.
  intros H. apply refresh_cache_ok in H. destruct H as (base & pname & w' & s & h & ch & Hn & Hi & ->).
  exists base, pname, w, w', s, h, ch. auto.
Qed.


End CacheFacts.

(** C1, as amended.  After a refresh that succeeded and cached a catalog
    that Python takes as true (a non-empty list), the expiry is the time of
    the update plus the TTL, and every call of [ensure_cache] made before
    that time returns normally, leaves the cache as it is and sends no
    request. *)
Theorem ensure_cache_hit_before_expiry
    {L : Library} {E : Environ} (w w1 : world) :
  refresh_cache w = (Ok tt, w1) ->
  truthy (channels (the_cache w1)) = true ->
  expires (the_cache w1) = (clock w1 + inject_Z CACHE_TTL)%Q
  /\ forall (t : Q) (r : result unit) (w2 : world),
       (t < clock w1 + inject_Z CACHE_TTL)%Q ->
       ensure_cache (with_clock t w1) = (r, w2) ->
       r = Ok tt /\ the_cache w2 = the_cache w1 /\ sent w2 = sent w1.
Proof.
  intros Hr Ht.
  apply refresh_cache_ok in Hr. destruct Hr as (base & pname & w' & s & h & ch & _ & _ & ->).
  simpl in *. split; [reflexivity|].
  intros t r w2 Hlt Hc. rewrite ensure_cache_unfold in Hc.
  unfold cache_fresh in Hc. simpl in Hc. rewrite Ht in Hc.
  apply Qlt_bool_true in Hlt. rewrite Hlt in Hc. simpl in Hc.
  inversion Hc; subst. auto.
Qed.

(** The claim holds on the end-to-end upstream, one second into the life of
    the cached state. *)
Lemma ensure_cache_hit_before_expiry_witness :
  let L := Scenario.reference_library in
  let E := default_environ in
  let w1 := snd (refresh_cache (boot Scenario.portal Scenario.quarter 0)) in
  expires (the_cache w1) = (clock w1 + inject_Z CACHE_TTL)%Q
  /\ forall (t : Q) (r : result unit) (w2 : world),
       (t < clock w1 + inject_Z CACHE_TTL)%Q ->
       ensure_cache (with_clock t w1) = (r, w2) ->
       r = Ok tt /\ the_cache w2 = the_cache w1 /\ sent w2 = sent w1.
Proof.
  intros L E w1.
  apply (@ensure_cache_hit_before_expiry L E (boot Scenario.portal Scenario.quarter 0) w1).
  - vm_compute. reflexivity.
  - vm_compute. reflexivity.
Defined.

(** C1 as stated fails on an empty catalog: the refresh succeeds and caches
    the empty list, the next call comes one second later, well before the
    expiry, and runs the whole acquisition again, with three more requests. *)
Lemma ensure_cache_refetches_empty_catalog :
  let L := Scenario.reference_library in
  let E := default_environ in
  let w0 := boot Scenario.empty_portal Scenario.quarter 0 in
  let w1 := snd (ensure_cache w0) in
  let w2 := snd (ensure_cache (with_clock (clock w1 + 1) w1)) in
  fst (ensure_cache w0) = Ok tt
  /\ channels (the_cache w1) = VList []
  /\ Qlt_bool (clock w1 + 1) (expires (the_cache w1)) = true
  /\ List.length (sent w1) = 3%nat
  /\ List.length (sent w2) = 6%nat
  /\ List.map req_method (List.skipn 3 (sent w2)) = [POST; GET; GET].
Proof.
  vm_compute. repeat split; reflexivity.
Qed.

Section Schedules.
Context {L : Library} {E : Environ}.



End Schedules.



(** ** Concurrent handlers *)

Section ThreadFacts.
Context {L : Library} {E : Environ}.

Import Threads.

Lemma only_gets_no_handshake (gets : list request) :
  only_gets gets -> List.filter is_handshake gets = [].
Proof.
  induction 1 as [|rq l Hrq Hl IH]; simpl; auto.
  unfold is_handshake. rewrite Hrq. exact IH.
Qed.

(** A successful refresh starts one handshake, keeps the latencies, does
    not turn the clock back and sets the expiry from the clock it ends on. *)
Lemma refresh_cache_success (w w1 : world) :
  refresh_cache w = (Ok tt, w1) ->
  handshakes w1 = S (handshakes w)
  /\ latency w1 = latency w
  /\ ((forall k, (0 <= latency w k)%Q) -> (clock w <= clock w1)%Q)
  /\ expires (the_cache w1) = (clock w1 + inject_Z CACHE_TTL)%Q.
Proof.
  intros H. apply refresh_cache_ok in H.
  destruct H as (base & pname & w' & s & h & ch & _ & Hi & ->).
  apply init_portal_trace in Hi. destruct Hi as (gets & Hx & Hg).
  destruct Hx as (_ & _ & Hl & Hs & Hk). simpl.
  repeat split; auto.
  unfold handshakes. simpl. rewrite Hs, filter_app, length_app. simpl.
  rewrite (only_gets_no_handshake _ Hg). simpl. lia.
Qed.

(** A cache that is stale stays stale as time passes. *)
Lemma stale_later (c : cache) (t t' : Q) :
  cache_fresh c t = false -> (t <= t')%Q -> cache_fresh c t' = false.
Proof.
  unfold cache_fresh. intros H Hle.
  destruct (truthy (channels c)); simpl in *; [|reflexivity].
  apply Qlt_bool_false in H. apply Qlt_bool_false. lra.
Qed.

End ThreadFacts.
(** ** The tree of effects *)

Lemma forallb_nth_error {A : Type} (f : A -> bool) (l : list A) (i : nat) (x : A) :
  forallb f l = true -> nth_error l i = Some x -> f x = true.
Proof.
  intros Hall Hn. rewrite forallb_forall in Hall.
  apply Hall. eapply nth_error_In. exact Hn.
Qed.


Section EffectFacts.
Context {L : Library} {E : Environ}.

Lemma bind_ext {A B : Type} (m1 m2 : M A) (k1 k2 : A -> M B) (w : world) :
  (forall w', m1 w' = m2 w') -> (forall a w', k1 a w' = k2 a w') ->
  bind m1 k1 w = bind m2 k2 w.
Proof.
  intros Hm Hk. unfold bind. rewrite Hm.
  destruct (m2 w) as [[a|e] w']; auto.
Qed.

Lemma interp_bind {A B : Type} (t : Effects.tree A) (f : A -> Effects.tree B) (w : world) :
  Effects.interp (Effects.tbind t f) w = bind (Effects.interp t) (fun a => Effects.interp (f a)) w.
Proof.
  revert w. induction t as [[a|e]|k IH|k IH|k IH|k IH|c k IH|rq k IH]; intros w; simpl;
    try reflexivity; auto.
Qed.

(** The release of the lock changes nothing for a handler alone. *)
Lemma interp_finally_release {A : Type} (t : Effects.tree A) (w : world) :
  Effects.interp (Effects.finally_release t) w = Effects.interp t w.
Proof.
  revert w. induction t as [r|k IH|k IH|k IH|k IH|c k IH|rq k IH]; intros w; simpl;
    try reflexivity; auto.
Qed.

Lemma interp_trequest (m : http_method) (s : Session) (url : string)
    (hs : option dict) (timeout : Q) (w : world) :
  Effects.interp (Effects.trequest m s url hs timeout) w = session_request m s url hs timeout w.
Proof.
  unfold Effects.trequest, session_request. simpl.
  destruct (upstream w (List.length (sent w))); reflexivity.
Qed.

Ltac interp_steps :=
  repeat first
    [ reflexivity
    | apply interp_trequest
    | rewrite interp_bind; apply bind_ext; [intros ?|intros ? ?]
    | match goal with
      | |- context [if ?b then _ else _] => destruct b
      end ].

Lemma interp_init_portal (base_url mac portal_type : string) (w : world) :
  Effects.interp (Effects.init_portal_session_and_channels base_url mac portal_type) w
  = init_portal_session_and_channels base_url mac portal_type w.
Proof.
  unfold Effects.init_portal_session_and_channels, init_portal_session_and_channels,
    session_post, session_get.
  cbv zeta. interp_steps.
Qed.

Lemma interp_refresh_cache (w : world) :
  Effects.interp Effects.refresh_cache w = refresh_cache w.
Proof.
  unfold Effects.refresh_cache, refresh_cache.
  rewrite interp_bind. apply bind_ext; [reflexivity|]. intros [base pname] w1.
  rewrite interp_bind. apply bind_ext; [apply interp_init_portal|].
  intros [[s h] ch] w2. reflexivity.
Qed.

(** The tree is the program: run by one handler alone, it is the body of
    [ensure_cache]. *)
Lemma interp_ensure_cache (w : world) :
  Effects.interp Effects.ensure_cache w = ensure_cache w.
Proof.
  unfold Effects.ensure_cache, Effects.with_lock, ensure_cache. simpl.
  rewrite interp_finally_release. simpl.
  unfold bind, get_cache, time_time. simpl.
  destruct (cache_fresh (the_cache w) (clock w)); [reflexivity|].
  apply interp_refresh_cache.
Qed.

(** *** The block runs with the lock held *)

Lemma lockfree_bind {A B : Type} (t : Effects.tree A) (f : A -> Effects.tree B) :
  Effects.lockfree t -> (forall a, Effects.lockfree (f a)) -> Effects.lockfree (Effects.tbind t f).
Proof.
  intros Ht Hf. induction Ht as [[a|e]|k Hk IH|k Hk IH|c k Hk IH|rq k Hk IH]; simpl;
    try (constructor; auto).
  apply Hf.
Qed.

Lemma lockfree_trequest (m : http_method) (s : Session) (url : string)
    (hs : option dict) (timeout : Q) :
  Effects.lockfree (Effects.trequest m s url hs timeout).
Proof.
  unfold Effects.trequest. constructor. intros [|r]; constructor.
Qed.

Ltac lockfree_steps :=
  repeat first
    [ apply Effects.lockfree_leaf
    | apply lockfree_trequest
    | apply lockfree_bind; [|intros ?]
    | match goal with
      | |- context [if ?b then _ else _] => destruct b
      end ].

Lemma lockfree_init_portal (base_url mac portal_type : string) :
  Effects.lockfree (Effects.init_portal_session_and_channels base_url mac portal_type).
Proof.
  unfold Effects.init_portal_session_and_channels, Effects.tret, Effects.traise, Effects.tlift.
  cbv zeta. lockfree_steps.
Qed.

Lemma lockfree_refresh_cache : Effects.lockfree Effects.refresh_cache.
Proof.
  unfold Effects.refresh_cache.
  apply lockfree_bind; [constructor|]. intros [base pname].
  apply lockfree_bind; [apply lockfree_init_portal|]. intros [[s h] ch].
  apply lockfree_bind; [constructor; intros; constructor|]. intros now.
  constructor. constructor.
Qed.

Lemma critical_finally_release {A : Type} (t : Effects.tree A) :
  Effects.lockfree t -> Effects.critical (Effects.finally_release t).
Proof.
  induction 1; simpl; constructor; auto.
Qed.

(** [ensure_cache] takes the lock and then runs a block that keeps it to
    its end. *)
Lemma ensure_cache_block :
  exists body, Effects.ensure_cache = Effects.Acquire body /\ Effects.critical body.
Proof.
  unfold Effects.ensure_cache, Effects.with_lock. eexists. split; [reflexivity|].
  apply critical_finally_release.
  apply lockfree_bind; [constructor; intros; constructor|]. intros c.
  apply lockfree_bind; [constructor; intros; constructor|]. intros now.
  destruct (cache_fresh c now); [constructor|apply lockfree_refresh_cache].
Qed.

(** *** Mutual exclusion *)

Lemma nth_error_set_thread (l : list Effects.thread) (i j : nat) (th x : Effects.thread) :
  nth_error (Effects.set_thread i th l) j = Some x ->
  (i = j /\ x = th) \/ (i <> j /\ nth_error l j = Some x).
Proof.
  revert i j. induction l as [|y l IH]; intros [|i] [|j] H; simpl in *;
    try discriminate.
  - inversion H; subst. left; split; reflexivity.
  - right. split; [lia|exact H].
  - right. split; [lia|exact H].
  - apply IH in H. destruct H as [[-> ->]|[Hne H]]; [left|right]; split; auto.
Qed.

Lemma nth_error_set_thread_same (l : list Effects.thread) (i : nat) (old th : Effects.thread) :
  nth_error l i = Some old -> nth_error (Effects.set_thread i th l) i = Some th.
Proof.
  revert i. induction l as [|y l IH]; intros [|i] H; simpl in *; try discriminate; auto.
Qed.

Lemma nth_error_set_thread_other (l : list Effects.thread) (i j : nat) (th : Effects.thread) :
  i <> j -> nth_error (Effects.set_thread i th l) j = nth_error l j.
Proof.
  revert i j. induction l as [|y l IH]; intros [|i] [|j] H; simpl; auto; try lia.
Qed.

Lemma not_inside_finished (th : Effects.thread) : Effects.inside th -> Effects.finished th = false.
Proof.
  destruct th as [t|n k]; simpl; [|reflexivity].
  intros H. inversion H; reflexivity.
Qed.

(** The handler [i] moves from a state where nobody else holds the lock:
    it ends up out of the block without the lock, or in it with the lock. *)
Lemma exclusive_set (s : Effects.system) (i : nat) (old th : Effects.thread)
    (sh : world) (lk : option nat) (u : nat) :
  Effects.exclusive s -> nth_error (Effects.threads s) i = Some old ->
  (forall j, Effects.lock s = Some j -> j = i) ->
  (lk = None /\ Effects.finished th = true) \/ (lk = Some i /\ Effects.inside th) ->
  Effects.exclusive {| Effects.shared := sh; Effects.lock := lk; Effects.updates := u;
                       Effects.threads := Effects.set_thread i th (Effects.threads s) |}.
Proof.
  intros [Hx Hh] Hi Hlock Hth. split; simpl.
  - intros j x Hn. apply nth_error_set_thread in Hn.
    destruct Hn as [[<- ->]|[Hne Hn]].
    + destruct Hth as [[_ Hf]|Hin]; auto.
    + destruct (Hx j x Hn) as [H|[H|[H _]]]; auto.
      apply Hlock in H. congruence.
  - intros j Hj. destruct Hth as [[-> _]|[-> Hin]]; [discriminate|].
    inversion Hj; subst j. exists th. split; [|exact Hin].
    eapply nth_error_set_thread_same. exact Hi.
Qed.

Lemma exclusive_start (n : nat) (w : world) : Effects.exclusive (Effects.arrive n w).
Proof.
  split; simpl.
  - intros i th Hn. left. apply nth_error_In in Hn. apply repeat_spec in Hn. exact Hn.
  - intros i Hi. discriminate.
Qed.

Lemma exclusive_step (s s' : Effects.system) (e : Effects.event) :
  Effects.exclusive s -> Effects.fire e s = Some s' -> Effects.exclusive s'.
Proof.
  intros Hx Hf. destruct e as [d|i|i]; simpl in Hf.
  - destruct (Qle_bool 0 d); inversion Hf; subst. exact Hx.
  - destruct (nth_error (Effects.threads s) i) as [[t|n k]|] eqn:Hi; try discriminate.
    pose proof (proj1 Hx i _ Hi) as Hcase.
    destruct ensure_cache_block as (body & Hbody & Hcrit).
    rewrite Hbody in Hcase.
    assert (Hholder : Effects.lock s = Some i -> forall j, Effects.lock s = Some j -> j = i)
      by (intros; congruence).
    destruct t as [r|k|k|k|k|c k|rq k]; try discriminate.
    + (* the lock is taken *)
      destruct (Effects.lock s) eqn:Hl; [discriminate|]. inversion Hf; subst; clear Hf.
      eapply exclusive_set; eauto; [rewrite Hl; discriminate|].
      right. split; [reflexivity|].
      destruct Hcase as [H|[H|[H _]]]; try discriminate.
      inversion H; subst. exact Hcrit.
    + (* the lock is released *)
      destruct (Effects.lock s) as [j|] eqn:Hl; [|discriminate].
      destruct (Nat.eqb i j) eqn:Hij; [|discriminate].
      apply Nat.eqb_eq in Hij. subst j. inversion Hf; subst; clear Hf.
      eapply exclusive_set; eauto; [rewrite Hl; intros; congruence|].
      left. split; [reflexivity|].
      destruct Hcase as [H|[H|[_ H]]]; try discriminate.
      simpl in H. inversion H; subst. reflexivity.
    + inversion Hf; subst; clear Hf.
      destruct Hcase as [H|[H|[Hl H]]]; try discriminate.
      eapply exclusive_set; eauto.
      right. split; [exact Hl|]. simpl in *. inversion H; subst; auto.
    + inversion Hf; subst; clear Hf.
      destruct Hcase as [H|[H|[Hl H]]]; try discriminate.
      eapply exclusive_set; eauto.
      right. split; [exact Hl|]. simpl in *. inversion H; subst; auto.
    + inversion Hf; subst; clear Hf.
      destruct Hcase as [H|[H|[Hl H]]]; try discriminate.
      eapply exclusive_set; eauto.
      right. split; [exact Hl|]. simpl in *. inversion H; subst; auto.
    + inversion Hf; subst; clear Hf.
      destruct Hcase as [H|[H|[Hl H]]]; try discriminate.
      eapply exclusive_set; eauto.
      right. split; [exact Hl|]. simpl in *. inversion H; subst; auto.
  - destruct (nth_error (Effects.threads s) i) as [[t|n k]|] eqn:Hi; try discriminate.
    inversion Hf; subst; clear Hf.
    destruct (proj1 Hx i _ Hi) as [H|[H|[Hl H]]]; try discriminate.
    eapply exclusive_set; eauto; [intros; congruence|].
    right. split; [exact Hl|]. simpl in *. auto.
Qed.

Lemma exclusive_reachable (n : nat) (w : world) (s : Effects.system) :
  Effects.reachable (Effects.arrive n w) s -> Effects.exclusive s.
Proof.
  induction 1 as [|s s' e Hr IH Hf].
  - apply exclusive_start.
  - eapply exclusive_step; eauto.
Qed.

Lemma filter_none {A : Type} (p : A -> bool) (l : list A) :
  (forall j y, nth_error l j = Some y -> p y = false) -> List.filter p l = [].
Proof.
  induction l as [|a l IH]; intros H; simpl; [reflexivity|].
  rewrite (H 0%nat a eq_refl). apply IH. intros j y Hj. apply (H (S j) y Hj).
Qed.

Lemma filter_at_most_one {A : Type} (p : A -> bool) (l : list A) :
  (forall i j x y, nth_error l i = Some x -> nth_error l j = Some y ->
                   p x = true -> p y = true -> i = j) ->
  (List.length (List.filter p l) <= 1)%nat.
Proof.
  induction l as [|a l IH]; intros H; simpl; [lia|].
  destruct (p a) eqn:Ha.
  - rewrite filter_none; [simpl; lia|].
    intros j y Hj. destruct (p y) eqn:Hy; [|reflexivity].
    specialize (H 0%nat (S j) a y eq_refl Hj Ha Hy). discriminate.
  - apply IH. intros i j x y Hi Hj Hx Hy.
    specialize (H (S i) (S j) x y Hi Hj Hx Hy). lia.
Qed.

(** Whoever is inside a handshake sequence holds the lock. *)
Lemma exchanging_holds_lock (s : Effects.system) (i : nat) (th : Effects.thread) :
  Effects.exclusive s -> nth_error (Effects.threads s) i = Some th ->
  Effects.exchanging th = true -> Effects.lock s = Some i.
Proof.
  intros [Hx _] Hi He.
  destruct ensure_cache_block as (body & Hbody & _).
  destruct (Hx i th Hi) as [H|[H|[H _]]]; auto.
  - rewrite Hbody in H. subst th. discriminate.
  - destruct th as [[]|]; discriminate.
Qed.

Lemma exclusive_in_flight (s : Effects.system) :
  Effects.exclusive s -> (Effects.in_flight s <= 1)%nat.
Proof.
  intros Hx. unfold Effects.in_flight. apply filter_at_most_one.
  intros i j x y Hi Hj Hpx Hpy.
  pose proof (exchanging_holds_lock s i x Hx Hi Hpx) as H1.
  pose proof (exchanging_holds_lock s j y Hx Hj Hpy) as H2.
  congruence.
Qed.

Lemma effects_run_reachable (es : list Effects.event) (s0 s : Effects.system) :
  Effects.run es s0 = Some s -> Effects.reachable s0 s.
Proof.
  assert (Hgen : forall s1, Effects.reachable s0 s1 -> Effects.run es s1 = Some s ->
                            Effects.reachable s0 s).
  { induction es as [|e es IH]; intros s1 Hr Hrun; simpl in Hrun.
    - inversion Hrun; subst. exact Hr.
    - destruct (Effects.fire e s1) as [s2|] eqn:Hf; [|discriminate].
      apply (IH s2); [eapply Effects.reach_step; eauto|exact Hrun]. }
  apply Hgen. constructor.
Qed.

(** *** One handler through the scheduler *)

Lemma run_cons (e : Effects.event) (es : list Effects.event) (s s1 s' : Effects.system) :
  Effects.fire e s = Some s1 -> Effects.run es s1 = Some s' ->
  Effects.run (e :: es) s = Some s'.
Proof.
  intros Hf Hr. simpl. rewrite Hf. exact Hr.
Qed.

(** A handler that holds the lock and is alone goes through its block as
    [interp] says, and ends without the lock. *)
Lemma single_handler_block (t : Effects.tree unit) :
  Effects.critical t ->
  forall (sh : world) (u : nat),
  exists es s',
    Effects.run es {| Effects.shared := sh; Effects.lock := Some 0%nat;
                      Effects.updates := u;
                      Effects.threads := [Effects.Running t] |} = Some s'
    /\ Effects.shared s' = snd (Effects.interp t sh)
    /\ Effects.lock s' = None
    /\ Effects.threads s'
       = [Effects.Running (Effects.Leaf (fst (Effects.interp t sh)))].
Proof.
  induction 1 as [r|k Hk IH|k Hk IH|c k Hk IH|rq k Hk IH]; intros sh u.
  - exists [Effects.Step 0], {| Effects.shared := sh; Effects.lock := None;
                                Effects.updates := u;
                                Effects.threads := [Effects.Running (Effects.Leaf r)] |}.
    repeat split.
  - destruct (IH (clock sh) sh u) as (es & s' & Hr & Hs).
    exists (Effects.Step 0 :: es), s'. split; [|exact Hs].
    eapply run_cons; [reflexivity|exact Hr].
  - destruct (IH (the_cache sh) sh u) as (es & s' & Hr & Hs).
    exists (Effects.Step 0 :: es), s'. split; [|exact Hs].
    eapply run_cons; [reflexivity|exact Hr].
  - destruct (IH (with_cache c sh) (S u)) as (es & s' & Hr & Hs).
    exists (Effects.Step 0 :: es), s'. split; [|exact Hs].
    eapply run_cons; [reflexivity|exact Hr].
  - destruct (IH (upstream sh (List.length (sent sh)))
                 {| the_cache := the_cache sh; sent := sent sh ++ [rq];
                    clock := clock sh + latency sh (List.length (sent sh));
                    upstream := upstream sh; latency := latency sh |} u)
      as (es & s' & Hr & Hs).
    exists (Effects.Step 0 :: Effects.Answer 0 :: es), s'. split; [|exact Hs].
    eapply run_cons; [reflexivity|].
    eapply run_cons; [reflexivity|exact Hr].
Qed.

(** The scheduler and the monad agree: a handler alone, run to the end of
    [ensure_cache], leaves the world and returns the result that
    [ensure_cache] gives, and the lock is free again. *)
Lemma single_handler_runs_ensure_cache (w : world) :
  exists es s',
    Effects.run es (Effects.arrive 1 w) = Some s'
    /\ Effects.shared s' = snd (ensure_cache w)
    /\ Effects.lock s' = None
    /\ Effects.threads s' = [Effects.Running (Effects.Leaf (fst (ensure_cache w)))].
Proof.
  destruct ensure_cache_block as (body & Hbody & Hcrit).
  destruct (single_handler_block body Hcrit w 0%nat) as (es & s' & Hr & Hs).
  exists (Effects.Step 0 :: es), s'. split.
  - eapply run_cons; [|exact Hr].
    unfold Effects.arrive. cbn [List.repeat]. rewrite Hbody. reflexivity.
  - rewrite <- interp_ensure_cache. rewrite Hbody. exact Hs.
Qed.

End EffectFacts.
(** ** One refresh for the handlers that arrive together *)

Section OneRefreshFacts.
Context {L : Library} {E : Environ}.

Lemma wp_bind {A B : Type} (t : Effects.tree A) (f : A -> Effects.tree B)
    (post : result B -> world -> nat -> Prop) (w : world) (u : nat) :
  Effects.wp t (fun r w' u' => match r with
                               | Ok a => Effects.wp (f a) post w' u'
                               | Raise e => post (Raise e) w' u'
                               end) w u ->
  Effects.wp (Effects.tbind t f) post w u.
Proof.
  revert w u. induction t as [[a|e]|k IH|k IH|k IH|k IH|c k IH|rq k IH];
    intros w u H; simpl in *; auto.
Qed.

Lemma wp_finally_release {A : Type} (t : Effects.tree A)
    (post : result A -> world -> nat -> Prop) (w : world) (u : nat) :
  Effects.wp t post w u -> Effects.wp (Effects.finally_release t) post w u.
Proof.
  revert w u. induction t as [r|k IH|k IH|k IH|k IH|c k IH|rq k IH];
    intros w u H; simpl in *; auto.
Qed.

Lemma wp_clock {A : Type} (t : Effects.tree A)
    (post : result A -> world -> nat -> Prop) (w : world) (u : nat) (now : Q) :
  Effects.clockless post -> Effects.wp t post w u -> Effects.wp t post (with_clock now w) u.
Proof.
  intros Hpost. revert w u.
  induction t as [r|k IH|k IH|k IH|k IH|c k IH|rq k IH]; intros w u H; simpl in *; auto.
  - apply (IH (with_cache c w) (S u) H).
  - apply (IH _ (Effects.posted rq w) u H).
Qed.

Lemma clockless_continuation {A B : Type} (f : A -> Effects.tree B)
    (post : result B -> world -> nat -> Prop) :
  Effects.clockless post ->
  Effects.clockless (fun r w' u' => match r with
                                    | Ok a => Effects.wp (f a) post w' u'
                                    | Raise e => post (Raise e) w' u'
                                    end).
Proof.
  intros Hpost [a|e] w u now H; [apply wp_clock; assumption|apply Hpost; assumption].
Qed.

(** A tree that only exchanges requests brings about what it returns when
    it is run by one handler alone, the clock apart. *)
Lemma wp_interp {A : Type} (t : Effects.tree A)
    (post : result A -> world -> nat -> Prop) (w : world) (u : nat) :
  Effects.requests_only t -> Effects.clockless post ->
  post (fst (Effects.interp t w)) (snd (Effects.interp t w)) u -> Effects.wp t post w u.
Proof.
  intros Ht Hpost. revert w. induction Ht as [r|rq k Hk IH]; intros w H; simpl in *.
  - exact H.
  - apply IH in H.
    apply (wp_clock _ _ _ _ (clock w) Hpost) in H. exact H.
Qed.

Lemma requests_only_bind {A B : Type} (t : Effects.tree A) (f : A -> Effects.tree B) :
  Effects.requests_only t -> (forall a, Effects.requests_only (f a)) ->
  Effects.requests_only (Effects.tbind t f).
Proof.
  intros Ht Hf. induction Ht as [[a|e]|rq k Hk IH]; simpl;
    try (constructor; auto).
  apply Hf.
Qed.

Lemma requests_only_trequest (m : http_method) (s : Session) (url : string)
    (hs : option dict) (timeout : Q) :
  Effects.requests_only (Effects.trequest m s url hs timeout).
Proof.
  unfold Effects.trequest. constructor. intros [|r]; constructor.
Qed.

Ltac requests_only_steps :=
  repeat first
    [ apply Effects.requests_only_leaf
    | apply requests_only_trequest
    | apply requests_only_bind; [|intros ?]
    | match goal with
      | |- context [if ?b then _ else _] => destruct b
      end ].

Lemma requests_only_init_portal (base_url mac portal_type : string) :
  Effects.requests_only
    (Effects.init_portal_session_and_channels base_url mac portal_type).
Proof.
  unfold Effects.init_portal_session_and_channels, Effects.tret, Effects.traise,
    Effects.tlift.
  cbv zeta. requests_only_steps.
Qed.

(** What a tree brings about comes after what has been sent. *)
Lemma wp_sent {A : Type} (t : Effects.tree A)
    (post : result A -> world -> nat -> Prop) (w : world) (u : nat) :
  Effects.wp t post w u ->
  exists r w' u' new, post r w' u' /\ sent w' = (sent w ++ new)%list.
Proof.
  revert w u. induction t as [r|k IH|k IH|k IH|k IH|c k IH|rq k IH];
    intros w u H; simpl in *.
  - exists r, w, u, []. split; [exact H|]. rewrite app_nil_r. reflexivity.
  - apply (IH w u H).
  - apply (IH w u H).
  - apply (IH 0%Q w u (H 0%Q)).
  - apply (IH _ w u H).
  - apply (IH _ _ H).
  - apply IH in H. destruct H as (r & w' & u' & new & HQ & Hs).
    exists r, w', u', (rq :: new). split; [exact HQ|].
    rewrite Hs. simpl. rewrite <- app_assoc. reflexivity.
Qed.

Lemma handshakes_app (w w' : world) (new : list request) :
  sent w' = (sent w ++ new)%list ->
  (Threads.handshakes w <= Threads.handshakes w')%nat.
Proof.
  intros H. unfold Threads.handshakes. rewrite H, filter_app, length_app. lia.
Qed.

Section Arrival.
Variable w0 : world.

Lemma clockless_settled : Effects.clockless (Effects.settled w0).
Proof.
  intros r w u now H. exact H.
Qed.

(** When the refresh, run alone on [w0], succeeds with a catalog that
    Python takes as true, its tree settles from [w0] at any time. *)
Lemma refresh_settles (w1 : world) (now : Q) :
  refresh_cache w0 = (Ok tt, w1) ->
  truthy (channels (the_cache w1)) = true ->
  Effects.wp (Effects.finally_release Effects.refresh_cache) (Effects.settled w0)
             (with_clock now w0) 0.
Proof.
  intros Hr Ht. apply wp_clock; [apply clockless_settled|].
  apply wp_finally_release.
  pose proof (refresh_cache_success _ _ Hr) as (Hh & _).
  apply refresh_cache_ok in Hr.
  destruct Hr as (base & pname & w' & s & h & ch & Hn & Hi & ->).
  unfold Effects.refresh_cache. apply wp_bind. unfold Effects.tlift.
  rewrite Hn. cbn [Effects.wp].
  apply wp_bind. apply wp_interp.
  - apply requests_only_init_portal.
  - apply clockless_continuation. apply clockless_settled.
  - rewrite interp_init_portal, Hi. cbn [fst snd]. apply wp_bind.
    unfold Effects.ttime, Effects.tupdate_cache. cbn [Effects.wp]. intros t.
    unfold Effects.settled. simpl in *. repeat split; auto.
Qed.

Lemma after_acquire_eq : Effects.after_acquire = Effects.GetCache Effects.after_get.
Proof. reflexivity. Qed.

Lemma after_get_eq (c : cache) :
  Effects.after_get c
  = Effects.Now (fun now => Effects.finally_release
                              (if cache_fresh c now then Effects.tret tt
                               else Effects.refresh_cache)).
Proof. reflexivity. Qed.

Lemma ensure_cache_eq : Effects.ensure_cache = Effects.Acquire Effects.after_acquire.
Proof. reflexivity. Qed.

Lemma length_set_thread (l : list Effects.thread) (i : nat) (th : Effects.thread) :
  List.length (Effects.set_thread i th l) = List.length l.
Proof.
  revert i. induction l as [|x l IH]; intros [|i]; simpl; auto.
Qed.

Lemma others_set (P : Effects.thread -> Prop) (i : nat) (th : Effects.thread)
    (l : list Effects.thread) :
  Effects.others P i l -> Effects.others P i (Effects.set_thread i th l).
Proof.
  intros H j x Hne Hj. rewrite nth_error_set_thread_other in Hj by auto.
  apply (H j x Hne Hj).
Qed.

Lemma others_of_Forall (P : Effects.thread -> Prop) (i : nat)
    (l : list Effects.thread) :
  Forall P l -> Effects.others P i l.
Proof.
  intros H j x _ Hj. rewrite Forall_forall in H. apply H.
  eapply nth_error_In. exact Hj.
Qed.

Lemma others_impl (P P' : Effects.thread -> Prop) (i : nat)
    (l : list Effects.thread) :
  (forall th, P th -> P' th) -> Effects.others P i l -> Effects.others P' i l.
Proof.
  intros HP H j x Hne Hj. apply HP. apply (H j x Hne Hj).
Qed.

Lemma Forall_of_others (P : Effects.thread -> Prop) (i : nat) (th : Effects.thread)
    (l : list Effects.thread) :
  Effects.others P i l -> P th -> Forall P (Effects.set_thread i th l).
Proof.
  intros H Hth. apply Forall_forall. intros x Hx.
  apply In_nth_error in Hx. destruct Hx as [j Hj].
  apply nth_error_set_thread in Hj. destruct Hj as [[_ ->]|[Hne Hj]]; [exact Hth|].
  apply (H j x); auto.
Qed.

Lemma Forall_nth_error {A : Type} (P : A -> Prop) (l : list A) (j : nat) (x : A) :
  Forall P l -> nth_error l j = Some x -> P x.
Proof.
  intros H Hj. rewrite Forall_forall in H. apply H. eapply nth_error_In. exact Hj.
Qed.

(** A handler that waits or has left cannot move while the lock is held,
    and has no answer to receive. *)
Lemma blocked_step (s : Effects.system) (i j : nat) (th : Effects.thread) :
  Effects.lock s = Some i -> nth_error (Effects.threads s) j = Some th ->
  Effects.idle_or_left th -> Effects.fire (Effects.Step j) s = None.
Proof.
  intros Hl Hj [->| ->]; simpl; rewrite Hj.
  - rewrite ensure_cache_eq, Hl. reflexivity.
  - reflexivity.
Qed.

Lemma no_answer (s : Effects.system) (j : nat) (t : Effects.tree unit) :
  nth_error (Effects.threads s) j = Some (Effects.Running t) ->
  Effects.fire (Effects.Answer j) s = None.
Proof.
  intros Hj. simpl. rewrite Hj. reflexivity.
Qed.

Lemma before_tick (s : Effects.system) (d : Q) (lk : option nat)
    (l : list Effects.thread) :
  (0 <= d)%Q -> Effects.before w0 s ->
  Effects.before w0 {| Effects.shared := with_clock (clock (Effects.shared s) + d)
                                                    (Effects.shared s);
                       Effects.lock := lk; Effects.updates := Effects.updates s;
                       Effects.threads := l |}.
Proof.
  intros Hd (Hu & Hclk & Hs). unfold Effects.before; simpl.
  repeat split; auto; [lra|].
  transitivity (with_clock (clock (Effects.shared s) + d)
                           (with_clock (clock (Effects.shared s)) w0));
    [f_equal; exact Hs|reflexivity].
Qed.

Hypothesis stale0 : cache_fresh (the_cache w0) (clock w0) = false.
Hypothesis upstream_good :
  exists w1, refresh_cache w0 = (Ok tt, w1)
             /\ truthy (channels (the_cache w1)) = true.

Lemma one_refresh_start (n : nat) : Effects.one_refresh w0 n (Effects.arrive n w0).
Proof.
  split; simpl; [apply repeat_length|].
  left. repeat split; simpl.
  - apply Forall_forall. intros th Hth. apply repeat_spec in Hth. exact Hth.
  - apply Qle_refl.
  - destruct w0; reflexivity.
Qed.

Lemma one_refresh_tick (n : nat) (s s' : Effects.system) (d : Q) :
  Effects.one_refresh w0 n s -> Effects.fire (Effects.Tick d) s = Some s' ->
  Effects.one_refresh w0 n s'.
Proof.
  intros (Hlen & Hph) Hf. simpl in Hf.
  destruct (Qle_bool 0 d) eqn:Hd; [|discriminate].
  injection Hf as Hs'. subst s'.
  apply Qle_bool_iff in Hd.
  split; [exact Hlen|]. simpl.
  destruct Hph as [(Hl & Hall & Hb)|[(i & th & Hl & Hi & Ho & Ht & Hb)
                   |[(i & th & Hl & Hi & Ho & Hr)|[(Hl & Hall & Ha)
                   |(i & th & Hl & Hi & Ho & Ht & Ha)]]]].
  - left. split; [exact Hl|]. split; [exact Hall|]. apply before_tick; auto.
  - right; left. exists i, th.
    split; [exact Hl|]. split; [exact Hi|]. split; [exact Ho|]. split; [exact Ht|].
    apply before_tick; auto.
  - right; right; left. exists i, th.
    split; [exact Hl|]. split; [exact Hi|]. split; [exact Ho|].
    destruct th as [t|k m]; simpl in *; apply wp_clock; auto using clockless_settled.
  - right; right; right; left. split; [exact Hl|]. split; [exact Hall|]. exact Ha.
  - right; right; right; right. exists i, th.
    split; [exact Hl|]. split; [exact Hi|]. split; [exact Ho|]. split; [exact Ht|].
    exact Ha.
Qed.

Lemma one_refresh_answer (n : nat) (s s' : Effects.system) (j : nat) :
  Effects.one_refresh w0 n s -> Effects.fire (Effects.Answer j) s = Some s' ->
  Effects.one_refresh w0 n s'.
Proof.
  intros (Hlen & Hph) Hf.
  destruct (nth_error (Effects.threads s) j) as [[t|m k]|] eqn:Hj;
    try (simpl in Hf; rewrite Hj in Hf; discriminate).
  simpl in Hf. rewrite Hj in Hf. injection Hf as Hs'. subst s'.
  split; [simpl; rewrite length_set_thread; exact Hlen|]. simpl.
  assert (Hbusy : forall P : Effects.thread -> Prop,
             (forall th, P th -> exists t, th = Effects.Running t) ->
             P (Effects.Awaiting m k) -> False).
  { intros P HP H. apply HP in H. destruct H as [t H]. discriminate. }
  assert (Hidle : Effects.idle (Effects.Awaiting m k) -> False) by (intros H; discriminate).
  assert (Hleft : Effects.idle_or_left (Effects.Awaiting m k) -> False)
    by (intros [H|H]; discriminate).
  destruct Hph as [(Hl & Hall & Hb)|[(i & th & Hl & Hi & Ho & Ht & Hb)
                   |[(i & th & Hl & Hi & Ho & Hr)|[(Hl & Hall & Ha)
                   |(i & th & Hl & Hi & Ho & Ht & Ha)]]]].
  - exfalso. apply Hidle. eapply Forall_nth_error; eauto.
  - exfalso. destruct (Nat.eq_dec j i) as [->|Hne].
    + rewrite Hj in Hi. inversion Hi; subst. destruct Ht; discriminate.
    + apply Hidle. apply (Ho j _ Hne Hj).
  - destruct (Nat.eq_dec j i) as [->|Hne]; [|exfalso; apply Hidle; apply (Ho j _ Hne Hj)].
    rewrite Hj in Hi. inversion Hi; subst; clear Hi.
    right; right; left. exists i, (Effects.Running (k (upstream (Effects.shared s) m))).
    split; [exact Hl|].
    split; [eapply nth_error_set_thread_same; eauto|].
    split; [apply others_set; exact Ho|].
    simpl in *. apply wp_clock; auto using clockless_settled.
  - exfalso. apply Hleft. eapply Forall_nth_error; eauto.
  - exfalso. destruct (Nat.eq_dec j i) as [->|Hne].
    + rewrite Hj in Hi. inversion Hi; subst. destruct Ht as [[H|H]|H]; discriminate.
    + apply Hleft. apply (Ho j _ Hne Hj).
Qed.

Lemma one_refresh_step (n : nat) (s s' : Effects.system) (j : nat) :
  Effects.exclusive s -> Effects.one_refresh w0 n s ->
  Effects.reads_in_time (Effects.Step j) s = true ->
  Effects.fire (Effects.Step j) s = Some s' ->
  Effects.one_refresh w0 n s'.
Proof.
  intros Hx (Hlen & Hph) Htime Hf.
  assert (Hblocked : forall i th, Effects.lock s = Some i ->
            nth_error (Effects.threads s) j = Some th ->
            Effects.idle_or_left th -> False).
  { intros i th Hl Hj Hth. rewrite (blocked_step s i j th Hl Hj Hth) in Hf.
    discriminate. }
  assert (Hidle : forall th, Effects.idle th -> Effects.idle_or_left th)
    by (intros th H; left; exact H).
  destruct Hph as [(Hl & Hall & Hb)|[(i & th & Hl & Hi & Ho & Ht & Hb)
                   |[(i & th & Hl & Hi & Ho & Hr)|[(Hl & Hall & Ha)
                   |(i & th & Hl & Hi & Ho & Ht & Ha)]]]].
  - (* a handler takes the lock first *)
    destruct (nth_error (Effects.threads s) j) as [th|] eqn:Hj;
      [|simpl in Hf; rewrite Hj in Hf; discriminate].
    pose proof (Forall_nth_error _ _ _ _ Hall Hj) as Hth. red in Hth. subst th.
    simpl in Hf. rewrite Hj, ensure_cache_eq, Hl in Hf.
    injection Hf as Hs'. subst s'.
    split; [simpl; rewrite length_set_thread; exact Hlen|]. simpl.
    right; left. exists j, (Effects.Running Effects.after_acquire).
    split; [reflexivity|].
    split; [eapply nth_error_set_thread_same; eauto|].
    split; [apply others_set, others_of_Forall; exact Hall|].
    split; [left; reflexivity|]. exact Hb.
  - (* the first handler tests the cache, which is stale *)
    destruct (Nat.eq_dec j i) as [->|Hne];
      [|destruct (nth_error (Effects.threads s) j) as [x|] eqn:Hj;
        [exfalso; apply (Hblocked i x Hl eq_refl); apply Hidle; apply (Ho j x Hne Hj)
        |simpl in Hf; rewrite Hj in Hf; discriminate]].
    destruct Ht as [->| ->].
    + simpl in Hf. rewrite Hi, after_acquire_eq in Hf.
      injection Hf as Hs'. subst s'.
      split; [simpl; rewrite length_set_thread; exact Hlen|]. simpl.
      right; left.
      exists i, (Effects.Running (Effects.after_get (the_cache (Effects.shared s)))).
      split; [exact Hl|].
      split; [eapply nth_error_set_thread_same; eauto|].
      split; [apply others_set; exact Ho|].
      split; [right; reflexivity|]. exact Hb.
    + simpl in Hf. rewrite Hi, after_get_eq in Hf.
      injection Hf as Hs'. subst s'.
      split; [simpl; rewrite length_set_thread; exact Hlen|]. simpl.
      destruct Hb as (Hu & Hclk & Hs).
      assert (Hstale : cache_fresh (the_cache (Effects.shared s))
                                   (clock (Effects.shared s)) = false).
      { rewrite Hs. simpl. apply (stale_later _ _ _ stale0 Hclk). }
      rewrite Hstale.
      right; right; left.
      exists i, (Effects.Running (Effects.finally_release Effects.refresh_cache)).
      split; [exact Hl|].
      split; [eapply nth_error_set_thread_same; eauto|].
      split; [apply others_set; exact Ho|].
      simpl. rewrite Hu, Hs.
      destruct upstream_good as (w1 & Hgood & Htruthy).
      apply (refresh_settles w1 _ Hgood Htruthy).
  - (* the first handler goes through the refresh *)
    destruct (Nat.eq_dec j i) as [->|Hne];
      [|destruct (nth_error (Effects.threads s) j) as [x|] eqn:Hj;
        [exfalso; apply (Hblocked i x Hl eq_refl); apply Hidle; apply (Ho j x Hne Hj)
        |simpl in Hf; rewrite Hj in Hf; discriminate]].
    destruct (proj2 Hx i Hl) as (th' & Hi' & Hin).
    rewrite Hi in Hi'. injection Hi' as <-.
    destruct th as [t|m k]; [|simpl in Hf; rewrite Hi in Hf; discriminate].
    simpl in Hin, Hr.
    destruct Hin as [r|k Hk|k Hk|c k Hk|rq k Hk]; simpl in Hf; rewrite Hi in Hf.
    + (* the lock is released *)
      rewrite Hl, Nat.eqb_refl in Hf. injection Hf as Hs'. subst s'.
      simpl in Hr. destruct Hr as (-> & Hh & Htruthy & Hu).
      split; [simpl; rewrite length_set_thread; exact Hlen|]. simpl.
      right; right; right; left.
      split; [reflexivity|].
      split; [|split; [exact Hu|split; [exact Hh|exact Htruthy]]].
      apply Forall_of_others; [|right; reflexivity].
      eapply others_impl; [|exact Ho]. exact Hidle.
    + injection Hf as Hs'. subst s'.
      split; [simpl; rewrite length_set_thread; exact Hlen|]. simpl.
      right; right; left. exists i, (Effects.Running (k (clock (Effects.shared s)))).
      split; [exact Hl|].
      split; [eapply nth_error_set_thread_same; eauto|].
      split; [apply others_set; exact Ho|].
      simpl in *. apply Hr.
    + injection Hf as Hs'. subst s'.
      split; [simpl; rewrite length_set_thread; exact Hlen|]. simpl.
      right; right; left. exists i, (Effects.Running (k (the_cache (Effects.shared s)))).
      split; [exact Hl|].
      split; [eapply nth_error_set_thread_same; eauto|].
      split; [apply others_set; exact Ho|].
      simpl in *. exact Hr.
    + injection Hf as Hs'. subst s'.
      split; [simpl; rewrite length_set_thread; exact Hlen|]. simpl.
      right; right; left. exists i, (Effects.Running k).
      split; [exact Hl|].
      split; [eapply nth_error_set_thread_same; eauto|].
      split; [apply others_set; exact Ho|].
      simpl in *. exact Hr.
    + injection Hf as Hs'. subst s'.
      split; [simpl; rewrite length_set_thread; exact Hlen|]. simpl.
      right; right; left.
      exists i, (Effects.Awaiting (List.length (sent (Effects.shared s))) k).
      split; [exact Hl|].
      split; [eapply nth_error_set_thread_same; eauto|].
      split; [apply others_set; exact Ho|].
      simpl in *. exact Hr.
  - (* a handler takes the lock after the refresh *)
    destruct (nth_error (Effects.threads s) j) as [th|] eqn:Hj;
      [|simpl in Hf; rewrite Hj in Hf; discriminate].
    destruct (Forall_nth_error _ _ _ _ Hall Hj) as [->| ->];
      [|simpl in Hf; rewrite Hj in Hf; discriminate].
    simpl in Hf. rewrite Hj, ensure_cache_eq, Hl in Hf.
    injection Hf as Hs'. subst s'.
    split; [simpl; rewrite length_set_thread; exact Hlen|]. simpl.
    right; right; right; right. exists j, (Effects.Running Effects.after_acquire).
    split; [reflexivity|].
    split; [eapply nth_error_set_thread_same; eauto|].
    split; [apply others_set, others_of_Forall; exact Hall|].
    split; [left; left; reflexivity|]. exact Ha.
  - (* that handler tests the cache, which is fresh, and leaves *)
    destruct (Nat.eq_dec j i) as [->|Hne];
      [|destruct (nth_error (Effects.threads s) j) as [x|] eqn:Hj;
        [exfalso; apply (Hblocked i x Hl eq_refl); apply (Ho j x Hne Hj)
        |simpl in Hf; rewrite Hj in Hf; discriminate]].
    destruct Ht as [[->| ->]| ->].
    + simpl in Hf. rewrite Hi, after_acquire_eq in Hf.
      injection Hf as Hs'. subst s'.
      split; [simpl; rewrite length_set_thread; exact Hlen|]. simpl.
      right; right; right; right.
      exists i, (Effects.Running (Effects.after_get (the_cache (Effects.shared s)))).
      split; [exact Hl|].
      split; [eapply nth_error_set_thread_same; eauto|].
      split; [apply others_set; exact Ho|].
      split; [left; right; reflexivity|]. exact Ha.
    + simpl in Hf, Htime. rewrite Hi, after_get_eq in Hf, Htime.
      injection Hf as Hs'. subst s'.
      split; [simpl; rewrite length_set_thread; exact Hlen|]. simpl.
      destruct Ha as (Hu & Hh & Htruthy).
      assert (Hfresh : cache_fresh (the_cache (Effects.shared s))
                                   (clock (Effects.shared s)) = true).
      { unfold cache_fresh. rewrite Htruthy. simpl.
        destruct (Nat.eqb (Effects.updates s) 0) eqn:Hz; [|exact Htime].
        apply Nat.eqb_eq in Hz. lia. }
      rewrite Hfresh.
      right; right; right; right.
      exists i, (Effects.Running (Effects.Release (Effects.Leaf (Ok tt)))).
      split; [exact Hl|].
      split; [eapply nth_error_set_thread_same; eauto|].
      split; [apply others_set; exact Ho|].
      split; [right; reflexivity|]. split; [exact Hu|split; [exact Hh|exact Htruthy]].
    + simpl in Hf. rewrite Hi, Hl, Nat.eqb_refl in Hf.
      injection Hf as Hs'. subst s'.
      split; [simpl; rewrite length_set_thread; exact Hlen|]. simpl.
      right; right; right; left.
      split; [reflexivity|]. split; [|exact Ha].
      apply Forall_of_others; [exact Ho|right; reflexivity].
Qed.

Lemma one_refresh_in_time (n : nat) (s : Effects.system) :
  Effects.in_time (Effects.arrive n w0) s ->
  Effects.one_refresh w0 n s /\ Effects.exclusive s.
Proof.
  induction 1 as [|s s' e Hr [IH Hx] Ht Hf].
  - split; [apply one_refresh_start|apply exclusive_start].
  - split; [|eapply exclusive_step; eauto].
    destruct e as [d|j|j].
    + eapply one_refresh_tick; eauto.
    + eapply one_refresh_step; eauto.
    + eapply one_refresh_answer; eauto.
Qed.

(** While the handlers read the clock in time, at most one handshake is
    posted, and when all have left, one has been and all have returned. *)
Lemma one_refresh_outcome (n : nat) (s : Effects.system) :
  (1 <= n)%nat -> Effects.exclusive s -> Effects.one_refresh w0 n s ->
  (Effects.handshakes s <= S (Threads.handshakes w0))%nat
  /\ (forallb Effects.finished (Effects.threads s) = true ->
      Effects.handshakes s = S (Threads.handshakes w0)
      /\ Forall (fun th => th = Effects.Running (Effects.Leaf (Ok tt)))
                (Effects.threads s)).
Proof.
  intros Hn Hx (Hlen & Hph).
  assert (Hbusy : forall i th, nth_error (Effects.threads s) i = Some th ->
            Effects.finished th = false ->
            forallb Effects.finished (Effects.threads s) = true -> False).
  { intros i th Hi Hth Hall. rewrite (forallb_nth_error _ _ _ _ Hall Hi) in Hth.
    discriminate. }
  destruct Hph as [(Hl & Hall & Hb)|[(i & th & Hl & Hi & Ho & Ht & Hb)
                   |[(i & th & Hl & Hi & Ho & Hr)|[(Hl & Hall & Ha)
                   |(i & th & Hl & Hi & Ho & Ht & Ha)]]]].
  - destruct Hb as (_ & _ & Hs). unfold Effects.handshakes. rewrite Hs.
    split; [unfold Threads.handshakes; simpl; lia|].
    intros Hfin. exfalso.
    destruct (Effects.threads s) as [|th l] eqn:Hths; [simpl in Hlen; lia|].
    inversion Hall; subst. simpl in Hfin. 
    match goal with H : Effects.idle th |- _ => red in H; subst th end.
    discriminate.
  - destruct Hb as (_ & _ & Hs). unfold Effects.handshakes. rewrite Hs.
    split; [unfold Threads.handshakes; simpl; lia|].
    intros Hfin. exfalso. apply (Hbusy i th Hi); [|exact Hfin].
    destruct Ht as [->| ->]; reflexivity.
  - split.
    + assert (Hw : exists r w' u' new,
                 Effects.settled w0 r w' u'
                 /\ sent w' = (sent (Effects.shared s) ++ new)%list).
      { destruct th as [t|m k]; simpl in Hr; eapply wp_sent; exact Hr. }
      destruct Hw as (r & w' & u' & new & (_ & Hh & _) & Hs).
      rewrite <- Hh. eapply handshakes_app. exact Hs.
    + intros Hfin. exfalso. apply (Hbusy i th Hi); [|exact Hfin].
      destruct (proj2 Hx i Hl) as (th' & Hi' & Hin).
      rewrite Hi in Hi'. injection Hi' as <-.
      apply not_inside_finished. exact Hin.
  - destruct Ha as (_ & Hh & _). split; [rewrite Hh; lia|].
    intros Hfin. split; [exact Hh|].
    rewrite forallb_forall in Hfin. rewrite Forall_forall in *.
    intros th Hth. destruct (Hall th Hth) as [->| ->]; [|reflexivity].
    specialize (Hfin _ Hth). discriminate.
  - destruct Ha as (_ & Hh & _). split; [rewrite Hh; lia|].
    intros Hfin. exfalso. apply (Hbusy i th Hi); [|exact Hfin].
    destruct Ht as [[->| ->]| ->]; reflexivity.
Qed.

End Arrival.

Lemma timely_in_time (es : list Effects.event) (s0 s s' : Effects.system) :
  Effects.in_time s0 s -> Effects.timely es s = true -> Effects.run es s = Some s' ->
  Effects.in_time s0 s'.
Proof.
  revert s. induction es as [|e es IH]; intros s Hs Ht Hr; simpl in *.
  - inversion Hr; subst. exact Hs.
  - apply andb_prop in Ht. destruct Ht as [He Ht].
    destruct (Effects.fire e s) as [s1|] eqn:Hf; [|discriminate].
    apply (IH s1); auto. eapply Effects.in_time_step; eauto.
Qed.

Lemma timely_state_after (es : list Effects.event) (s0 : Effects.system) :
  Effects.timely es s0 = true ->
  Effects.in_time s0 (match Effects.run es s0 with Some s => s | None => s0 end).
Proof.
  intros Ht. destruct (Effects.run es s0) as [s|] eqn:Hr; [|constructor].
  apply (timely_in_time es s0 s0 s); auto. constructor.
Qed.

Lemma reachable_state_after (es : list Effects.event) (s0 : Effects.system) :
  Effects.reachable s0 (match Effects.run es s0 with Some s => s | None => s0 end).
Proof.
  destruct (Effects.run es s0) as [s|] eqn:Hr; [|constructor].
  apply (effects_run_reachable es s0 s Hr).
Qed.

End OneRefreshFacts.
(** C2, as amended.  In every state the handlers can reach, whatever the
    upstream does, at most one of them is inside a handshake sequence.
    When at least one handler arrives on a stale cache, the refresh run
    alone on that world succeeds with a catalog that Python takes as true,
    and every handler that reads the clock after the update of the cache
    does so before the expiry it holds, then at most one handshake is
    posted, and once every handler has left [ensure_cache] exactly one has
    been and every handler has returned normally. *)
Theorem one_handshake_in_flight {L : Library} {E : Environ} (n : nat) (w0 : world) :
  (forall s, Effects.reachable (Effects.arrive n w0) s ->
             (Effects.in_flight s <= 1)%nat)
  /\ ((1 <= n)%nat ->
      cache_fresh (the_cache w0) (clock w0) = false ->
      (exists w1, refresh_cache w0 = (Ok tt, w1)
                  /\ truthy (channels (the_cache w1)) = true) ->
      forall s, Effects.in_time (Effects.arrive n w0) s ->
        (Effects.handshakes s <= S (Threads.handshakes w0))%nat
        /\ (forallb Effects.finished (Effects.threads s) = true ->
            Effects.handshakes s = S (Threads.handshakes w0)
            /\ Forall (fun th => th = Effects.Running (Effects.Leaf (Ok tt)))
                      (Effects.threads s))).
Proof.
  split.
  - intros s Hr. apply exclusive_in_flight.
    apply (exclusive_reachable n w0 s Hr).
  - intros Hn Hstale Hgood s Hs.
    destruct (one_refresh_in_time w0 Hstale Hgood n s Hs) as [Hinv Hx].
    apply (one_refresh_outcome w0 n s Hn Hx Hinv).
Qed.

(** Two handlers on the end-to-end upstream: while the first waits for the
    answer to its handshake, it alone is in flight and the second cannot
    take the lock; when the first has refreshed and the second has tested
    the cache, one handshake has been posted and both have returned. *)
Lemma one_handshake_in_flight_witness :
  let L := Scenario.reference_library in
  let E := default_environ in
  let w0 := boot Scenario.portal Scenario.quarter 0 in
  let state_after es :=
    match Effects.run es (Effects.arrive 2 w0) with
    | Some s => s
    | None => Effects.arrive 2 w0
    end in
  let s1 := state_after [Effects.Step 0; Effects.Step 0; Effects.Step 0;
                         Effects.Step 0] in
  let s2 := state_after (Scenario.refresh_pass 0 ++ [Effects.Tick 1]
                           ++ Scenario.served_pass 1)%list in
  (Effects.in_flight s1 = 1%nat /\ Effects.fire (Effects.Step 1) s1 = None)
  /\ Effects.handshakes s2 = 1%nat
  /\ Forall (fun th => th = Effects.Running (Effects.Leaf (Ok tt))) (Effects.threads s2).
Proof.
  intros L E w0 state_after s1 s2.
  destruct (@one_handshake_in_flight L E 2%nat w0) as [H1 H2].
  split.
  - split; [|vm_compute; reflexivity].
    assert (Hle : (Effects.in_flight s1 <= 1)%nat)
      by (apply H1; apply reachable_state_after).
    assert (Hge : (1 <= Effects.in_flight s1)%nat) by (vm_compute; lia).
    lia.
  - assert (Hs2 : Effects.in_time (Effects.arrive 2 w0) s2)
      by (apply timely_state_after; vm_compute; reflexivity).
    assert (Hn : (1 <= 2)%nat) by lia.
    assert (Hstale : cache_fresh (the_cache w0) (clock w0) = false)
      by (vm_compute; reflexivity).
    assert (Hgood : exists w1, refresh_cache w0 = (Ok tt, w1)
                               /\ truthy (channels (the_cache w1)) = true).
    { exists (snd (refresh_cache w0)). split; vm_compute; reflexivity. }
    destruct (H2 Hn Hstale Hgood s2 Hs2) as [_ H3]. apply H3.
    vm_compute. reflexivity.
Defined.

(** C2 as stated fails: two handlers arrive on the empty cache and each
    runs a handshake sequence of its own, one after the other,
    - when the upstream serves an empty catalog,
    - when the upstream is down,
    - when the second handler tests the cache as its 300 seconds have
      passed,
    - and when the cache expires as soon as it is stored.
    In the first two cases every read of the clock is in time; in the last
    two the refresh succeeds with a catalog of one channel, and the second
    handler reads the clock too late. *)
Lemma two_callers_two_handshakes :
  let L := Scenario.reference_library in
  let outcome_on (E : Environ) up es :=
    option_map (fun s => (Effects.handshakes s,
                          List.map Effects.returned (Effects.threads s)))
               (Effects.run es (Effects.arrive 2 (boot up Scenario.quarter 0))) in
  let in_time_on (E : Environ) up es :=
    Effects.timely es (Effects.arrive 2 (boot up Scenario.quarter 0)) in
  let both := [Some (Ok tt); Some (Ok tt)] in
  let twice := (Scenario.refresh_pass 0 ++ Scenario.refresh_pass 1)%list in
  let late := (Scenario.refresh_pass 0 ++ [Effects.Tick 300]
                 ++ Scenario.refresh_pass 1)%list in
  cache_fresh _cache 0 = false
  /\ (outcome_on default_environ Scenario.empty_portal twice = Some (2%nat, both)
      /\ in_time_on default_environ Scenario.empty_portal twice = true)
  /\ (outcome_on default_environ Scenario.dead_portal
                 (Scenario.failed_pass 0 ++ Scenario.failed_pass 1)%list
      = Some (2%nat, [Some (Raise RequestException); Some (Raise RequestException)])
      /\ in_time_on default_environ Scenario.dead_portal
                    (Scenario.failed_pass 0 ++ Scenario.failed_pass 1)%list = true)
  /\ (outcome_on default_environ Scenario.steady_portal late = Some (2%nat, both)
      /\ in_time_on default_environ Scenario.steady_portal late = false)
  /\ (outcome_on Scenario.no_ttl_environ Scenario.steady_portal twice
      = Some (2%nat, both)
      /\ in_time_on Scenario.no_ttl_environ Scenario.steady_portal twice = false).
Proof.
  vm_compute. repeat split; reflexivity.
Qed.

(** ** The session acquisition *)

Lemma session_request_eq (m : http_method) (s : Session) (url : string)
    (hs : option dict) (t : Q) (w : world) :
  session_request m s url hs t w
  = (match upstream w (List.length (sent w)) with
     | NoResponse => Raise RequestException
     | Reply r => Ok r
     end,
     log_request {| req_method := m; req_url := url; req_headers := hs;
                    req_cookies := cookies s; req_timeout := t |} w).
Proof.
  unfold session_request, log_request.
  destruct (upstream w (List.length (sent w))); reflexivity.
Qed.

Lemma length_log_request (rq : request) (w : world) :
  List.length (sent (log_request rq w)) = S (List.length (sent w)).
Proof. unfold log_request; simpl. rewrite length_app. simpl. lia. Qed.

Lemma nth_error_log_request (rq : request) (w : world) :
  nth_error (sent (log_request rq w)) (List.length (sent w)) = Some rq.
Proof.
  unfold log_request; simpl. rewrite nth_error_app2 by lia.
  rewrite Nat.sub_diag. reflexivity.
Qed.

Lemma nth_error_extends (w w' : world) (extra : list request) (k : nat) (rq : request) :
  extends w w' extra -> nth_error (sent w) k = Some rq -> nth_error (sent w') k = Some rq.
Proof.
  intros (_ & _ & _ & Hs & _) Hn. rewrite Hs.
  rewrite nth_error_app1; [exact Hn|].
  apply nth_error_Some. congruence.
Qed.

(** C4: the code against the claim.  A catalog answer with status 200 whose
    [js] is [null], or whose body is not JSON, makes the acquisition raise
    after its three requests, and [ensure_cache] with it: the refresh fails
    and nothing is cached. *)
Theorem catalog_answer_can_fail_refresh :
  let L := Scenario.reference_library in
  let E := default_environ in
  let run up := ensure_cache (boot up Scenario.quarter 0) in
  Scenario.null_js_portal 2 = Scenario.json_reply (VDict [("js", VNone)])
  /\ fst (run Scenario.null_js_portal) = Raise AttributeError
  /\ List.length (sent (snd (run Scenario.null_js_portal))) = 3%nat
  /\ the_cache (snd (run Scenario.null_js_portal)) = _cache
  /\ fst (run Scenario.html_catalog_portal) = Raise JSONDecodeError
  /\ the_cache (snd (run Scenario.html_catalog_portal)) = _cache.
Proof.
  vm_compute. repeat split; reflexivity.
Qed.

Lemma bind_ok {A B : Type} (m : M A) (k : A -> M B) (w w1 : world) (a : A) :
  m w = (Ok a, w1) -> bind m k w = k a w1.
Proof. intros H. unfold bind. rewrite H. reflexivity. Qed.

Lemma bind_raise {A B : Type} (m : M A) (k : A -> M B) (w w1 : world) (e : exn) :
  m w = (Raise e, w1) -> bind m k w = (Raise e, w1).
Proof. intros H. unfold bind. rewrite H. reflexivity. Qed.

Lemma assoc_dict_set {A : Type} (k : string) (v : A) (d : list (string * A)) :
  assoc k (dict_set k v d) = Some v.
Proof.
  induction d as [|[k' v'] d IH]; simpl.
  - rewrite String.eqb_refl. reflexivity.
  - destruct (String.eqb k k') eqn:Hk; simpl.
    + rewrite String.eqb_refl. reflexivity.
    + rewrite Hk. exact IH.
Qed.

Section Protocol.
Context {L : Library} {E : Environ}.

Lemma parse_catalog_pure (session : Session) (headers : dict) (resp : response)
    (w w' : world) (r : result (Session * dict * value)) :
  parse_catalog session headers resp w = (r, w') ->
  w' = w /\ forall msg, r <> Raise (RuntimeError msg).
Proof.
  unfold parse_catalog, bind, lift, ret, resp_json, py_get. intros H.
  repeat (break_innermost H; cbn beta iota in H);
    inversion H; subst; (split; [reflexivity|intros msg Hc; discriminate]).
Qed.

(** The acquisition up to the profile request, when the handshake answer
    carries a token: what is left to run, and the world it runs in. *)
Lemma init_portal_granted (base mac ptype : string) (w : world) (r0 : response)
    (tok : value) :
  upstream w (List.length (sent w)) = Reply r0 ->
  grants r0 tok ->
  let prefix := portal_prefix ptype in
  let session := cookies_set "mac" mac {| cookies := [] |} in
  let headers := dict_set "Authorization" ("Bearer " ++ py_str tok)
                          (stb_headers base prefix) in
  let info := generate_device_info mac in
  init_portal_session_and_channels base mac ptype w
  = bind (session_get session
            (profile_url base prefix (SNCUT info) (Device_ID1 info) (Signature info))
            (Some headers) 10)
         (fun resp =>
            if negb (response_ok resp) || negb (Py.contains "js" (text resp))
            then raise (RuntimeError "Profile validation failed")
            else bind (session_get session (all_url base prefix) (Some headers) 15)
                      (parse_catalog session headers))
         (log_request {| req_method := POST;
                         req_url := handshake_url base prefix;
                         req_headers := Some (stb_headers base prefix);
                         req_cookies := [("mac", mac)];
                         req_timeout := 10 |} w).
Proof.
  intros Hup0 (Hs0 & body & js & Hj0 & Hjs & Htok & Htruthy).
  cbv zeta.
  unfold init_portal_session_and_channels, session_post.
  erewrite bind_ok; [|rewrite session_request_eq, Hup0; reflexivity].
  assert (Hok : response_ok r0 && (status_code r0 =? 200)%Z = true).
  { unfold response_ok. rewrite Hs0. reflexivity. }
  rewrite Hok.
  erewrite bind_ok;
    [|unfold bind, lift, resp_json; rewrite Hj0; simpl; rewrite Hjs; reflexivity].
  erewrite bind_ok; [|unfold lift; simpl; rewrite Htok; reflexivity].
  rewrite Htruthy. reflexivity.
Qed.

End Protocol.

(** C5, as amended.  Once the handshake has yielded a token and the profile
    request is answered, the acquisition raises "Profile validation failed"
    if and only if the answer has an error status (400 to 599) or its text
    does not contain the two letters "js"; otherwise nothing else of the
    answer is read and the catalog request is sent next. *)
Theorem profile_validation_is_substring_test {L : Library} {E : Environ}
    (base mac ptype : string) (w : world) (r0 r1 : response) (tok : value) :
  upstream w (List.length (sent w)) = Reply r0 ->
  grants r0 tok ->
  upstream w (S (List.length (sent w))) = Reply r1 ->
  let res := init_portal_session_and_channels base mac ptype w in
  (fst res = Raise (RuntimeError "Profile validation failed")
   <-> response_ok r1 = false \/ Py.contains "js" (text r1) = false)
  /\ (response_ok r1 = true -> Py.contains "js" (text r1) = true ->
      option_map (fun rq => (req_method rq, req_url rq))
                 (nth_error (sent (snd res)) (2 + List.length (sent w)))
      = Some (GET, base ++ "/" ++ portal_prefix ptype
                     ++ "/server/load.php?type=itv&action=get_all_channels&JsHttpRequest=1-xml")).
Proof.
  intros Hup0 Hg Hup1 res. subst res.
  rewrite (init_portal_granted base mac ptype w r0 tok Hup0 Hg).
  unfold session_get.
  erewrite bind_ok;
    [|rewrite session_request_eq, length_log_request;
      change (upstream (log_request ?r w)) with (upstream w);
      rewrite Hup1; reflexivity].
  destruct (response_ok r1) eqn:Hok1; cbn [negb orb].
  2:{ split; [split; auto|intros; discriminate]. }
  destruct (Py.contains "js" (text r1)) eqn:Hjs1; cbn [negb].
  2:{ split; [split; auto|intros; discriminate]. }
  match goal with
  | |- context [bind _ _ ?w2] => set (w3 := w2)
  end.
  unfold bind at 1. unfold bind at 1. rewrite !session_request_eq.
  match goal with
  | |- context [log_request ?rq w3] => set (w4 := log_request rq w3)
  end.
  assert (Hnth : option_map (fun rq => (req_method rq, req_url rq))
                   (nth_error (sent w4) (2 + List.length (sent w)))
                 = Some (GET, base ++ "/" ++ portal_prefix ptype
                     ++ "/server/load.php?type=itv&action=get_all_channels&JsHttpRequest=1-xml")).
  { subst w4. replace (2 + List.length (sent w))%nat with (List.length (sent w3)).
    - rewrite nth_error_log_request. reflexivity.
    - subst w3. rewrite !length_log_request. reflexivity. }
  destruct (upstream w3 (List.length (sent w3))) as [|r2].
  - cbn [fst snd]. split; [|intros _ _; exact Hnth].
    split; [discriminate|intros [?|?]; discriminate].
  - destruct (parse_catalog _ _ r2 w4) as [r w5] eqn:Hp.
    apply parse_catalog_pure in Hp. destruct Hp as [-> Hne].
    cbn [fst snd]. split; [|intros _ _; exact Hnth].
    split; [intros Hr; exfalso; eapply Hne; eauto|intros [?|?]; discriminate].
Qed.

(** The end-to-end upstream: the profile answer is accepted and the catalog
    is requested. *)
Lemma profile_validation_is_substring_test_witness :
  let L := Scenario.reference_library in
  let E := default_environ in
  let w := boot Scenario.portal Scenario.quarter 0 in
  let r1 := {| status_code := 200; text := Scenario.dumps Scenario.profile_ok;
               json := Some Scenario.profile_ok |} in
  let res := init_portal_session_and_channels "http://tatatv.cc" PORTAL_MAC PORTAL_TYPE w in
  (fst res = Raise (RuntimeError "Profile validation failed")
   <-> response_ok r1 = false \/ Py.contains "js" (text r1) = false)
  /\ option_map (fun rq => (req_method rq, req_url rq)) (nth_error (sent (snd res)) 2)
     = Some (GET, "http://tatatv.cc/stalker_portal/server/load.php?type=itv&action=get_all_channels&JsHttpRequest=1-xml").
Proof.
  intros L E w r1 res.
  destruct (@profile_validation_is_substring_test L E "http://tatatv.cc" PORTAL_MAC
              PORTAL_TYPE w
              {| status_code := 200; text := Scenario.dumps Scenario.handshake_T1;
                 json := Some Scenario.handshake_T1 |}
              r1 (VStr "T1")) as [H1 H2].
  - reflexivity.
  - split; [reflexivity|].
    exists [("js", VDict [("token", VStr "T1")])], [("token", VStr "T1")].
    repeat split; reflexivity.
  - reflexivity.
  - split; [exact H1|].
    apply H2; vm_compute; reflexivity.
Defined.

(** C5 as stated fails in both directions.  A profile answer without a [js]
    key passes when its text has the letters "js" in it, here in the key
    [jsx]; and an answer that has the [js] wrapper is refused when it comes
    with status 500. *)
Lemma profile_check_is_not_a_key_test :
  let L := Scenario.reference_library in
  let E := default_environ in
  let run up :=
    fst (init_portal_session_and_channels "http://tatatv.cc" PORTAL_MAC PORTAL_TYPE
           (boot up Scenario.quarter 0)) in
  Scenario.jsx_portal 1 = Scenario.json_reply (VDict [("jsx", VInt 1)])
  /\ assoc "js" [("jsx", VInt 1)] = None
  /\ is_ok (run Scenario.jsx_portal) = true
  /\ Scenario.profile_500_portal 1
     = Reply {| status_code := 500; text := Scenario.dumps Scenario.profile_ok;
                json := Some (VDict [("js", VDict [])]) |}
  /\ run Scenario.profile_500_portal = Raise (RuntimeError "Profile validation failed").
Proof.
  vm_compute. repeat split; reflexivity.
Qed.

Lemma any_requests_app (a b : list request) :
  any_requests a -> any_requests b -> any_requests (a ++ b)%list.
Proof. intros _ _. exact I. Qed.

(** C6, as amended.  The first request of the acquisition is an HTTP POST
    to the handshake URL, with the empty token in the query, the fixed
    set-top-box headers, the [mac] cookie and a timeout of ten seconds; and
    when the answer carries a string under [js.token], the request that
    follows bears it in its [Authorization] header. *)
Theorem handshake_is_posted {L : Library} {E : Environ}
    (base mac ptype : string) (w : world) :
  let res := init_portal_session_and_channels base mac ptype w in
  let prefix := if String.eqb ptype "1" then "stalker_portal" else "c" in
  nth_error (sent (snd res)) (List.length (sent w))
  = Some {| req_method := POST;
            req_url := base ++ "/" ++ prefix
              ++ "/server/load.php?action=handshake&type=stb&token=&JsHttpRequest=1-xml";
            req_headers := Some (stb_headers base prefix);
            req_cookies := [("mac", mac)];
            req_timeout := 10 |}
  /\ forall (r0 : response) (t : string),
       upstream w (List.length (sent w)) = Reply r0 ->
       grants r0 (VStr t) ->
       exists rq hs,
         nth_error (sent (snd res)) (S (List.length (sent w))) = Some rq
         /\ req_headers rq = Some hs
         /\ assoc "Authorization" hs = Some ("Bearer " ++ t).
Proof.
  intros res prefix. split.
  - subst res. destruct (init_portal_session_and_channels base mac ptype w) as [r w'] eqn:Hi.
    apply init_portal_trace in Hi. destruct Hi as (gets & (_ & _ & _ & Hs & _) & _).
    cbn [snd]. rewrite Hs, nth_error_app2 by lia. rewrite Nat.sub_diag. reflexivity.
  - intros r0 t Hup0 Hg. subst res.
    rewrite (init_portal_granted base mac ptype w r0 (VStr t) Hup0 Hg).
    unfold session_get. unfold bind at 1. rewrite session_request_eq.
    match goal with
    | |- context [log_request ?rq (log_request ?rq0 w)] =>
        set (w1 := log_request rq0 w); set (rq2 := rq)
    end.
    assert (Hn : nth_error (sent (log_request rq2 w1)) (S (List.length (sent w))) = Some rq2).
    { replace (S (List.length (sent w))) with (List.length (sent w1)).
      - apply nth_error_log_request.
      - subst w1. apply length_log_request. }
    exists rq2. eexists. split; [|split; [reflexivity|apply assoc_dict_set]].
    destruct (upstream w1 (List.length (sent w1))) as [|r1]; [exact Hn|].
    match goal with
    | |- context [snd (?k (log_request rq2 w1))] =>
        destruct (k (log_request rq2 w1)) as [r w'] eqn:Hk;
        assert (Hl : logs any_requests k)
    end.
    { unfold parse_catalog, session_get.
      repeat first
        [ exact any_requests_app | exact I
        | apply logs_bind; [ .. | intros ? ]
        | apply logs_if | apply logs_ret | apply logs_raise | apply logs_lift
        | apply logs_request ]. }
    destruct (Hl _ _ _ Hk) as (extra & Hx & _).
    cbn [snd]. eapply nth_error_extends; eauto.
Qed.

(** On the end-to-end upstream the profile request carries the token T1. *)
Lemma handshake_is_posted_witness :
  let L := Scenario.reference_library in
  let E := default_environ in
  let w := boot Scenario.portal Scenario.quarter 0 in
  let res := init_portal_session_and_channels "http://tatatv.cc" PORTAL_MAC PORTAL_TYPE w in
  exists rq hs,
    nth_error (sent (snd res)) 1 = Some rq
    /\ req_headers rq = Some hs
    /\ assoc "Authorization" hs = Some "Bearer T1".
Proof.
  intros L E w res.
  destruct (@handshake_is_posted L E "http://tatatv.cc" PORTAL_MAC PORTAL_TYPE w) as [_ H].
  apply (H {| status_code := 200; text := Scenario.dumps Scenario.handshake_T1;
              json := Some Scenario.handshake_T1 |} "T1").
  - reflexivity.
  - split; [reflexivity|].
    exists [("js", VDict [("token", VStr "T1")])], [("token", VStr "T1")].
    repeat split; reflexivity.
Defined.

(** C6 as stated fails: the handshake request is not a GET. *)
Lemma handshake_is_not_a_get :
  let L := Scenario.reference_library in
  let E := default_environ in
  let w := boot Scenario.portal Scenario.quarter 0 in
  let res := init_portal_session_and_channels "http://tatatv.cc" PORTAL_MAC PORTAL_TYPE w in
  option_map (fun rq => (req_method rq, req_url rq)) (nth_error (sent (snd res)) 0)
  = Some (POST, "http://tatatv.cc/stalker_portal/server/load.php?action=handshake&type=stb&token=&JsHttpRequest=1-xml")
  /\ POST <> GET.
Proof.
  split; [vm_compute; reflexivity|discriminate].
Qed.

(** C7: the code against the claim.  For the default MAC the two device
    identifiers differ, and the profile request carries the first of them
    under [device_id] and again under [device_id2]; the digest of the
    truncated serial is computed and never sent. *)
Theorem profile_request_repeats_device_id :
  let L := Scenario.reference_library in
  let E := default_environ in
  let info := generate_device_info PORTAL_MAC in
  let w := boot Scenario.portal Scenario.quarter 0 in
  let res := init_portal_session_and_channels "http://tatatv.cc" PORTAL_MAC PORTAL_TYPE w in
  SNCUT info = "8DC34D20E1021"
  /\ Device_ID1 info = "04AAC14D19D6184933091188770C419C0FB2D744BF402A8F56C6654A3A9CAA43"
  /\ Device_ID2 info = "B1AC2A62BA8F3A763C8DDFB73167EA39CCB92407656453186E6619C6760602B3"
  /\ Signature info = "F1682E1CC0E85200C328DC19BF21811EB9F337B065919A888D7F5BC45D46B556"
  /\ option_map req_url (nth_error (sent (snd res)) 1)
     = Some ("http://tatatv.cc/stalker_portal/server/load.php?type=stb&action=get_profile"
             ++ "&sn=8DC34D20E1021"
             ++ "&device_id=04AAC14D19D6184933091188770C419C0FB2D744BF402A8F56C6654A3A9CAA43"
             ++ "&device_id2=04AAC14D19D6184933091188770C419C0FB2D744BF402A8F56C6654A3A9CAA43"
             ++ "&signature=F1682E1CC0E85200C328DC19BF21811EB9F337B065919A888D7F5BC45D46B556"
             ++ "&JsHttpRequest=1-xml").
Proof.
  vm_compute. repeat split; reflexivity.
Qed.

(** ** The link resolver *)

Section Resolver.
Context {L : Library} {E : Environ}.

(** One iteration of the loop sends one request and returns the cleaned
    command of a usable answer, or nothing. *)
Lemma create_link_iteration (url : string) (s : Session) (hs : option dict)
    (w w1 : world) (r : result (option string)) :
  try_except (create_link_attempt url (Some s) hs)
             (time_sleep (1 # 2) ;;; ret None) w = (r, w1) ->
  r = Ok (option_map clean_link (usable_cmd (upstream w (List.length (sent w)))))
  /\ sent w1
     = (sent w ++ [{| req_method := GET; req_url := url; req_headers := hs;
                      req_cookies := cookies s; req_timeout := 8 |}])%list
  /\ upstream w1 = upstream w.
Proof.
  unfold try_except, create_link_attempt, session_get.
  unfold bind at 1. rewrite session_request_eq.
  unfold usable_cmd, bind, lift, ret, raise, resp_json, py_get, as_str, time_sleep,
    clean_link, truthy, Py.nonempty, is_dict.
  intros H.
  repeat (break_innermost H; cbn beta iota in H; cbn [assoc] in H);
    injection H as Hr Hw; subst r w1; repeat split.
Qed.

Lemma create_link_loop_spec (url : string) (s : Session) (hs : option dict)
    (retries : nat) (w w' : world) (r : result (option string)) :
  let rq := {| req_method := GET; req_url := url; req_headers := hs;
               req_cookies := cookies s; req_timeout := 8 |} in
  let next j := usable_cmd (upstream w (List.length (sent w) + j)) in
  create_link_loop retries url (Some s) hs w = (r, w') ->
  ((forall j, (j < retries)%nat -> next j = None) ->
   r = Ok None /\ sent w' = (sent w ++ List.repeat rq retries)%list)
  /\ (forall k c, (k < retries)%nat -> next k = Some c ->
        (forall j, (j < k)%nat -> next j = None) ->
        r = Ok (Some (clean_link c))
        /\ sent w' = (sent w ++ List.repeat rq (S k))%list).
Proof.
  cbv zeta. revert w r w'. induction retries as [|retries IH]; intros w r w' H.
  - simpl in H. unfold ret in H. injection H as <- <-. split.
    + intros _. simpl. rewrite app_nil_r. auto.
    + intros k c Hk. lia.
  - cbn [create_link_loop] in H. unfold bind at 1 in H.
    destruct (try_except (create_link_attempt url (Some s) hs)
                         (time_sleep (1 # 2);;; ret None) w) as [r1 w1] eqn:Ht.
    apply create_link_iteration in Ht. destruct Ht as (Hr & Hs & Hu). subst r1.
    assert (Hidx : forall j, upstream w1 (List.length (sent w1) + j)
                             = upstream w (List.length (sent w) + S j)).
    { intros j. rewrite Hu, Hs, length_app. simpl. f_equal. lia. }
    destruct (usable_cmd (upstream w (List.length (sent w)))) as [c0|] eqn:H0;
      cbn [option_map] in H.
    + unfold ret in H. injection H as <- <-. split.
      * intros Hnone. specialize (Hnone 0%nat ltac:(lia)).
        rewrite Nat.add_0_r in Hnone. congruence.
      * intros k c Hk Hc Hbefore. destruct k as [|k].
        -- rewrite Nat.add_0_r in Hc. split; [congruence|exact Hs].
        -- specialize (Hbefore 0%nat ltac:(lia)).
           rewrite Nat.add_0_r in Hbefore. congruence.
    + destruct (IH w1 r w' H) as [IHnone IHsome]. split.
      * intros Hnone. destruct IHnone as [H1 H2].
        { intros j Hj. rewrite Hidx. apply Hnone. lia. }
        split; [exact H1|]. rewrite H2, Hs, <- app_assoc. reflexivity.
      * intros k c Hk Hc Hbefore. destruct k as [|k].
        -- rewrite Nat.add_0_r in Hc. congruence.
        -- destruct (IHsome k c) as [H1 H2].
           { lia. }
           { rewrite Hidx. exact Hc. }
           { intros j Hj. rewrite Hidx. apply Hbefore. lia. }
           split; [exact H1|]. rewrite H2, Hs, <- app_assoc. reflexivity.
Qed.

(** The loop runs on the URL of a command that UTF-8 can encode; on
    another command the function raises where it builds the URL. *)
Lemma create_link_encodable (base_url cmd : string) (session : option Session)
    (hs : option dict) (ptype : string) (retries : nat) (w : world) :
  utf8_encodable (Py.replace "ffrt " EmptyString (Py.strip cmd)) = true ->
  create_link base_url cmd session hs ptype retries w
  = create_link_loop retries (create_link_url base_url cmd ptype) session hs w.
Proof. intros H. unfold create_link. rewrite H. reflexivity. Qed.

Lemma create_link_unencodable (base_url cmd : string) (session : option Session)
    (hs : option dict) (ptype : string) (retries : nat) (w : world) :
  utf8_encodable (Py.replace "ffrt " EmptyString (Py.strip cmd)) = false ->
  create_link base_url cmd session hs ptype retries w = (Raise UnicodeEncodeError, w).
Proof. intros H. unfold create_link. rewrite H. reflexivity. Qed.

(** Between one and three turns of the loop, whatever the upstream does. *)
Lemma create_link_loop_count (url : string) (s : Session) (hs : option dict)
    (w w' : world) (r : result (option string)) :
  create_link_loop 3 url (Some s) hs w = (r, w') ->
  exists k, (1 <= k <= 3)%nat
            /\ sent w'
               = (sent w
                  ++ List.repeat {| req_method := GET; req_url := url;
                                    req_headers := hs; req_cookies := cookies s;
                                    req_timeout := 8 |} k)%list.
Proof.
  intros Hrun.
  pose proof (create_link_loop_spec _ _ _ _ _ _ _ Hrun) as H.
  cbv zeta in H. destruct H as [Hnone Hsome].
  set (next := fun j => usable_cmd (upstream w (List.length (sent w) + j))) in *.
  destruct (next 0%nat) as [c0|] eqn:H0.
  { exists 1%nat. split; [lia|]. apply (Hsome 0%nat c0); [lia|exact H0|intros; lia]. }
  destruct (next 1%nat) as [c1|] eqn:H1.
  { exists 2%nat. split; [lia|]. apply (Hsome 1%nat c1); [lia|exact H1|].
    intros j Hj. assert (j = 0)%nat by lia. subst. exact H0. }
  destruct (next 2%nat) as [c2|] eqn:H2.
  { exists 3%nat. split; [lia|]. apply (Hsome 2%nat c2); [lia|exact H2|].
    intros j Hj. destruct j as [|[|j]]; [exact H0|exact H1|lia]. }
  exists 3%nat. split; [lia|]. apply Hnone.
  intros j Hj. destruct j as [|[|[|j]]]; [exact H0|exact H1|exact H2|lia].
Qed.

(** What the log keeps of [k] requests that are the same but for the
    cookies. *)
Lemma request_line_repeat (rq : request) (k : nat) (l l' : list request) :
  l' = (l ++ List.repeat rq k)%list ->
  exists new, l' = (l ++ new)%list
              /\ List.map request_line new = List.repeat (request_line rq) k.
Proof.
  intros ->. exists (List.repeat rq k). split; [reflexivity|].
  induction k as [|k IH]; simpl; [reflexivity|]. rewrite IH. reflexivity.
Qed.

End Resolver.

(** C8, as amended.  For a command that UTF-8 can encode, [create_link]
    with its three retries sends between one and three requests, each a GET
    of the same URL with the same headers and the timeout 8.  When none of
    the three answers yields a usable command (no response, a status other
    than 200, a body without a non-empty string under [js.cmd]) it returns
    [None] after exactly three requests; when the answer to attempt [k] is
    the first usable one it returns its command, every "ffrt " removed and
    the ends stripped, after exactly [k + 1] requests. *)
Theorem create_link_three_attempts {L : Library} {E : Environ}
    (base_url cmd : string) (s : Session) (hs : option dict) (ptype : string)
    (w : world) :
  utf8_encodable (Py.replace "ffrt " EmptyString (Py.strip cmd)) = true ->
  let line := (GET, create_link_url base_url cmd ptype, hs, 8%Q) in
  let res := create_link base_url cmd (Some s) hs ptype 3 w in
  let next j := usable_cmd (upstream w (List.length (sent w) + j)) in
  let added k :=
    exists new, sent (snd res) = (sent w ++ new)%list
                /\ List.map request_line new = List.repeat line k in
  (exists k, (1 <= k <= 3)%nat /\ added k)
  /\ ((forall j, (j < 3)%nat -> next j = None) ->
      fst res = Ok None /\ added 3%nat)
  /\ (forall k c, (k < 3)%nat -> next k = Some c ->
        (forall j, (j < k)%nat -> next j = None) ->
        fst res = Ok (Some (Py.strip (Py.replace "ffrt " EmptyString c)))
        /\ added (S k)).
Proof.
  intros Henc. cbv zeta.
  rewrite (create_link_encodable _ _ _ _ _ _ _ Henc).
  destruct (create_link_loop 3 (create_link_url base_url cmd ptype) (Some s) hs w)
    as [r w'] eqn:Hrun.
  cbn [fst snd].
  pose proof (create_link_loop_spec _ _ _ _ _ _ _ Hrun) as H.
  cbv zeta in H. destruct H as [Hnone Hsome].
  split; [|split].
  - destruct (create_link_loop_count _ _ _ _ _ _ Hrun) as (k & Hk & Hsent).
    exists k. split; [exact Hk|]. exact (request_line_repeat _ _ _ _ Hsent).
  - intros Hall. destruct (Hnone Hall) as [Hr Hsent].
    split; [exact Hr|]. exact (request_line_repeat _ _ _ _ Hsent).
  - intros k c Hk Hc Hbefore. destruct (Hsome k c Hk Hc Hbefore) as [Hr Hsent].
    split; [exact Hr|]. exact (request_line_repeat _ _ _ _ Hsent).
Qed.

(** The resolver after a refresh from the upstream that fails twice on
    [create_link] and then answers: the link comes with the third request;
    and on an upstream that is down: nothing after three requests. *)
Lemma create_link_three_attempts_witness :
  let L := Scenario.reference_library in
  let E := default_environ in
  let s := {| cookies := [("mac", "00:1A:79:00:13:DA")] |} in
  let w := snd (ensure_cache (boot Scenario.flaky_portal Scenario.quarter 0)) in
  let w' := boot Scenario.dead_portal Scenario.quarter 0 in
  let link w := create_link "http://tatatv.cc" "ffrt http://n/play" (Some s) None "1" 3 w in
  (fst (link w) = Ok (Some "http://n/play")
   /\ List.length (sent (snd (link w))) = (List.length (sent w) + 3)%nat)
  /\ (fst (link w') = Ok None
      /\ List.length (sent (snd (link w'))) = (List.length (sent w') + 3)%nat).
Proof.
  intros L E s w w' link. split.
  - destruct (@create_link_three_attempts L E "http://tatatv.cc" "ffrt http://n/play"
                s None "1" w eq_refl) as (_ & _ & H).
    specialize (H 2%nat "ffrt http://n/play").
    feed H; [lia|].
    feed H; [vm_compute; reflexivity|].
    feed H; [intros j Hj; destruct j as [|[|j]]; [vm_compute; reflexivity..|lia]|].
    destruct H as (Hr & new & Hsent & Hlines).
    split; [vm_compute in Hr; vm_compute; exact Hr|].
    unfold link. rewrite Hsent, length_app.
    rewrite <- (length_map request_line new), Hlines, repeat_length. reflexivity.
  - destruct (@create_link_three_attempts L E "http://tatatv.cc" "ffrt http://n/play"
                s None "1" w' eq_refl) as (_ & H & _).
    feed H; [intros j _; vm_compute; reflexivity|].
    destruct H as (Hr & new & Hsent & Hlines).
    split; [vm_compute in Hr; vm_compute; exact Hr|].
    unfold link. rewrite Hsent, length_app.
    rewrite <- (length_map request_line new), Hlines, repeat_length. reflexivity.
Defined.

(** C8 as stated fails on two counts.  An answer with the success status
    201 that carries a usable command is passed over like a failure: after
    three of them the function returns [None].  And the marker is not
    stripped as a prefix: a command that has "ffrt " in its middle, and no
    such prefix, comes back without it. *)
Lemma create_link_wants_200_and_cuts_inner_markers :
  let L := Scenario.reference_library in
  let E := default_environ in
  let s := {| cookies := [("mac", "00:1A:79:00:13:DA")] |} in
  let answer := fun (status : Z) (c : string) (_ : nat) =>
    Reply {| status_code := status;
             text := Scenario.dumps (VDict [("js", VDict [("cmd", VStr c)])]);
             json := Some (VDict [("js", VDict [("cmd", VStr c)])]) |} in
  let link up :=
    create_link "http://tatatv.cc" "http://n/play" (Some s) None "1" 3
                (boot up Scenario.quarter 0) in
  (fst (link (answer 201%Z "http://n/play")) = Ok None
   /\ List.length (sent (snd (link (answer 201%Z "http://n/play")))) = 3%nat)
  /\ Py.startswith "ffrt " "http://host/ffrt live/1.m3u8" = false
  /\ fst (link (answer 200%Z "http://host/ffrt live/1.m3u8"))
     = Ok (Some "http://host/live/1.m3u8").
Proof.
  vm_compute. repeat split; reflexivity.
Qed.

(** ** Strings: stripping and replacing *)

Lemma rstrip_by_empty (p : ascii -> bool) (s : string) :
  Py.rstrip_by p s = EmptyString -> all_chars p s = true.
Proof.
  induction s as [|c s IH]; simpl; [reflexivity|].
  destruct (Py.rstrip_by p s) eqn:Hr; [|discriminate].
  destruct (p c); [|discriminate]. intros _. simpl. apply IH. reflexivity.
Qed.

Lemma rstrip_by_last (p : ascii -> bool) (s : string) :
  last_char p (Py.rstrip_by p s) = false.
Proof.
  induction s as [|c s IH]; simpl; [reflexivity|].
  destruct (Py.rstrip_by p s) as [|d r] eqn:Hr.
  - destruct (p c) eqn:Hc; simpl; [reflexivity|exact Hc].
  - simpl in *. exact IH.
Qed.

Lemma lstrip_by_all (p : ascii -> bool) (s : string) :
  all_chars p (Py.lstrip_by p s) = true -> all_chars p s = true.
Proof.
  induction s as [|c s IH]; simpl; [reflexivity|].
  destruct (p c) eqn:Hc; simpl.
  - exact IH.
  - rewrite Hc. discriminate.
Qed.

Lemma strip_empty (s : string) :
  Py.strip s = EmptyString -> all_chars Py.isspace s = true.
Proof.
  unfold Py.strip. intros H. apply lstrip_by_all. apply rstrip_by_empty. exact H.
Qed.

Lemma strip_last (s : string) : last_char Py.isspace (Py.strip s) = false.
Proof. unfold Py.strip. apply rstrip_by_last. Qed.

Lemma last_char_append (p : ascii -> bool) (a b : string) :
  b <> EmptyString -> last_char p (a ++ b) = last_char p b.
Proof.
  intros Hb. induction a as [|c a IH]; simpl; [reflexivity|].
  destruct (a ++ b) eqn:Hab.
  - destruct a; [simpl in Hab; contradiction|discriminate].
  - exact IH.
Qed.

Lemma prefix_split (p s : string) :
  Py.startswith p s = true -> s = p ++ Py.drop (String.length p) s.
Proof.
  revert s. induction p as [|c p IH]; intros s H; simpl in *.
  - destruct s; reflexivity.
  - destruct s as [|d s]; [discriminate|].
    apply andb_true_iff in H. destruct H as [Hc H].
    apply Ascii.eqb_eq in Hc. subst d.
    rewrite <- (IH s H). reflexivity.
Qed.

Lemma length_drop (n : nat) (s : string) :
  (String.length (Py.drop n s) <= String.length s)%nat.
Proof.
  revert s. induction n as [|n IH]; intros [|c s]; simpl; auto.
  all: try (specialize (IH s); lia).
Qed.

Lemma replace_from_skip (old new : string) (k : nat) (s : string) :
  Py.replace_from old new k s = Py.replace_from old new 0 (Py.drop k s).
Proof.
  revert k. induction s as [|c s IH]; intros [|k]; simpl; auto.
Qed.

(** The two equations of [replace] for a non-empty [old]. *)
Lemma replace_match (old new : string) (c : ascii) (s : string) :
  old <> EmptyString ->
  Py.startswith old (String c s) = true ->
  Py.replace old new (String c s)
  = new ++ Py.replace old new (Py.drop (String.length old) (String c s)).
Proof.
  intros Hold Hp. unfold Py.replace. cbn [Py.replace_from]. rewrite Hp.
  rewrite replace_from_skip. destruct old as [|o old]; [contradiction|].
  simpl. rewrite Nat.sub_0_r. reflexivity.
Qed.

Lemma replace_no_match (old new : string) (c : ascii) (s : string) :
  Py.startswith old (String c s) = false ->
  Py.replace old new (String c s) = String c (Py.replace old new s).
Proof.
  intros Hp. unfold Py.replace. cbn [Py.replace_from]. rewrite Hp. reflexivity.
Qed.

Lemma contains_cons (sub : string) (c : ascii) (s : string) :
  Py.contains sub (String c s) = false ->
  Py.startswith sub (String c s) = false /\ Py.contains sub s = false.
Proof.
  cbn [Py.contains]. intros H. apply orb_false_iff in H. exact H.
Qed.

(** Where [old] does not occur, [replace] changes nothing. *)
Lemma replace_absent (old new s : string) :
  Py.contains old s = false -> Py.replace old new s = s.
Proof.
  induction s as [|c s IH]; intros H; [reflexivity|].
  apply contains_cons in H. destruct H as [Hp Hc].
  rewrite (replace_no_match old new c s Hp), (IH Hc). reflexivity.
Qed.

(** A command that carries the marker "ffrt " as its prefix and nowhere
    else comes back without the prefix. *)
Lemma clean_link_prefix (u : string) :
  Py.contains "ffrt " u = false ->
  clean_link ("ffrt " ++ u) = Py.strip u.
Proof.
  intros H. unfold clean_link.
  change ("ffrt " ++ u) with (String "f" ("frt " ++ u)).
  rewrite replace_match by (discriminate || reflexivity).
  change (Py.drop (String.length "ffrt ") (String "f" ("frt " ++ u))) with u.
  rewrite (replace_absent _ _ _ H). reflexivity.
Qed.

(** When nothing but whitespace is left once every "ffmpeg " is taken out,
    the string is empty or ends in whitespace. *)
Lemma replace_ffmpeg_blank (n : nat) (s : string) :
  (String.length s <= n)%nat ->
  all_chars Py.isspace (Py.replace "ffmpeg " EmptyString s) = true ->
  s = EmptyString \/ last_char Py.isspace s = true.
Proof.
  revert s. induction n as [|n IH]; intros s Hlen Hall.
  - destruct s; [left; reflexivity|simpl in Hlen; lia].
  - destruct s as [|c s]; [left; reflexivity|]. right.
    destruct (Py.startswith "ffmpeg " (String c s)) eqn:Hp.
    + rewrite replace_match in Hall by (discriminate || exact Hp).
      cbn [append] in Hall.
      pose proof (prefix_split _ _ Hp) as Hsplit.
      set (t := Py.drop (String.length "ffmpeg ") (String c s)) in *.
      assert (Ht : (String.length t <= n)%nat).
      { subst t. change (Py.drop (String.length "ffmpeg ") (String c s)) with (Py.drop 6 s).
        pose proof (length_drop 6 s). cbn [String.length] in Hlen. lia. }
      rewrite Hsplit.
      destruct (IH t Ht Hall) as [->|Hlast].
      * reflexivity.
      * rewrite last_char_append; [exact Hlast|].
        intros ->. simpl in Hlast. discriminate.
    + rewrite replace_no_match in Hall by exact Hp.
      cbn [all_chars] in Hall. apply andb_true_iff in Hall. destruct Hall as [Hc Hall].
      cbn [String.length] in Hlen.
      destruct (IH s ltac:(lia) Hall) as [->|Hlast].
      * simpl. exact Hc.
      * simpl. destruct s; [simpl in Hlast; discriminate|exact Hlast].
Qed.

(** The link of a local command is never empty. *)
Lemma local_link_nonempty (raw : string) :
  Py.strip raw <> EmptyString ->
  local_link (Py.strip raw) <> EmptyString.
Proof.
  intros Hne Hempty. unfold local_link in Hempty.
  apply strip_empty in Hempty.
  destruct (replace_ffmpeg_blank _ _ (Nat.le_refl _) Hempty) as [H|H].
  - contradiction.
  - rewrite strip_last in H. discriminate.
Qed.
(** C10.  Once [ensure_cache] has returned and the channel of the request
    is found with a command that is a string and is not blank: when
    "ffmpeg" occurs anywhere in the stripped command, [getlink] sends no
    request and redirects to the command with every "ffmpeg " removed and
    its ends stripped; when "ffmpeg" does not occur, [getlink] hands the
    stripped command to [create_link], with the base URL, the session and
    the headers of the cache, and answers from what it returns: a redirect
    to a link that is not empty, and 502 otherwise. *)
Theorem getlink_is_local_iff_ffmpeg {L : Library} {E : Environ}
    (ch_id : N) (w w1 : world) (items : list value) (ch : value) (raw : string) :
  ensure_cache w = (Ok tt, w1) ->
  iterate (channels (the_cache w1)) = Ok items ->
  find_channel (Py.str_of_N ch_id) items = Ok ch ->
  truthy ch = true ->
  py_get ch "cmd" (VStr EmptyString) = Ok (VStr raw) ->
  Py.strip raw <> EmptyString ->
  let cmd := Py.strip raw in
  (Py.contains "ffmpeg" cmd = true ->
   getlink ch_id w
   = (Ok (Redirect (Py.strip (Py.replace "ffmpeg " EmptyString cmd)) 302), w1))
  /\ (Py.contains "ffmpeg" cmd = false ->
      getlink ch_id w
      = bind (create_link (Py.rstrip "/" PORTAL_BASE_URL) cmd
                          (session (the_cache w1)) (headers (the_cache w1))
                          PORTAL_TYPE 3)
             (fun real_url =>
                match real_url with
                | Some (String a u) => ret (Redirect (String a u) 302)
                | _ => ret (JsonError 502 "failed_to_create_link" None)
                end) w1).
Proof.
  intros Hens Hiter Hfind Htruthy Hraw Hne cmd.
  assert (Hcmd : Py.nonempty cmd = true).
  { destruct cmd eqn:Hc; [exfalso; apply Hne; exact Hc|reflexivity]. }
  assert (Hg : getlink ch_id w
               = bind (if Py.contains "ffmpeg" cmd
                       then ret (Some (local_link cmd))
                       else bind get_cache
                              (fun c => create_link (Py.rstrip "/" PORTAL_BASE_URL) cmd
                                          (session c) (headers c) PORTAL_TYPE 3))
                      (fun real_url =>
                         match real_url with
                         | Some (String a u) => ret (Redirect (String a u) 302)
                         | _ => ret (JsonError 502 "failed_to_create_link" None)
                         end) w1).
  { unfold getlink. rewrite Hens.
    unfold bind at 1. unfold get_cache at 1. cbn beta iota.
    unfold bind at 1. unfold lift at 1. rewrite Hiter.
    unfold bind at 1. unfold lift at 1. rewrite Hfind.
    rewrite Htruthy. cbn [negb].
    unfold bind at 1. unfold lift at 1. rewrite Hraw.
    unfold bind at 1. unfold lift at 1. cbn [as_str].
    fold cmd. rewrite Hcmd. reflexivity. }
  rewrite Hg. clear Hg.
  destruct (Py.contains "ffmpeg" cmd) eqn:Hff.
  - split; [intros _|intros; discriminate].
    unfold bind, ret.
    pose proof (local_link_nonempty raw Hne) as Hlocal. fold cmd in Hlocal.
    unfold local_link in *.
    destruct (Py.strip (Py.replace "ffmpeg " EmptyString cmd)); [contradiction|reflexivity].
  - split; [intros; discriminate|intros _].
    unfold bind, get_cache. reflexivity.
Qed.

(** The two channels of the end-to-end catalog: channel 7 has a local
    command and channel 5 one that needs the upstream, which answers the
    first attempt. *)
Lemma getlink_is_local_iff_ffmpeg_witness :
  let L := Scenario.reference_library in
  let E := default_environ in
  let w := boot Scenario.portal Scenario.quarter 0 in
  let w1 := snd (ensure_cache w) in
  getlink 7 w = (Ok (Redirect "http://x/stream" 302), w1)
  /\ fst (getlink 5 w) = Ok (Redirect "http://n/play" 302)
  /\ List.length (sent (snd (getlink 5 w))) = S (List.length (sent w1)).
Proof.
  intros L E w w1.
  pose (items := [Scenario.news; Scenario.local_channel]).
  split.
  - assert (H : Py.contains "ffmpeg" (Py.strip "ffmpeg http://x/stream") = true)
      by reflexivity.
    revert H.
    apply (@getlink_is_local_iff_ffmpeg L E 7%N w w1 items Scenario.local_channel
             "ffmpeg http://x/stream"); try (vm_compute; reflexivity).
    discriminate.
  - destruct (@getlink_is_local_iff_ffmpeg L E 5%N w w1 items Scenario.news
                "ffrt http://n/play") as [_ H]; try (vm_compute; reflexivity).
    + discriminate.
    + rewrite (H eq_refl). split; vm_compute; reflexivity.
Defined.

(** ** The URL normaliser *)

Lemma all_chars_rstrip_empty (p : ascii -> bool) (s : string) :
  all_chars p s = true -> Py.rstrip_by p s = EmptyString.
Proof.
  induction s as [|c s IH]; simpl; [reflexivity|].
  intros H. apply andb_true_iff in H. destruct H as [Hc Hs].
  rewrite (IH Hs), Hc. reflexivity.
Qed.

Lemma rstrip_by_app (p : ascii -> bool) (a b : string) :
  all_chars p b = true -> Py.rstrip_by p (a ++ b) = Py.rstrip_by p a.
Proof.
  intros Hb. induction a as [|c a IH]; simpl.
  - apply all_chars_rstrip_empty. exact Hb.
  - rewrite IH. reflexivity.
Qed.

Lemma rstrip_by_id (p : ascii -> bool) (s : string) :
  last_char p s = false -> Py.rstrip_by p s = s.
Proof.
  induction s as [|c s IH]; [reflexivity|].
  intros H. destruct s as [|d s].
  - simpl in *. rewrite H. reflexivity.
  - change (Py.rstrip_by p (String c (String d s)))
      with (match Py.rstrip_by p (String d s) with
            | EmptyString => if p c then EmptyString else String c EmptyString
            | String e r => String c (String e r)
            end).
    rewrite (IH H). reflexivity.
Qed.

Lemma all_chars_last (p q : ascii -> bool) (s : string) :
  (forall c, p c = true -> q c = false) ->
  all_chars p s = true -> last_char q s = false.
Proof.
  intros Hpq. induction s as [|c s IH]; [reflexivity|].
  cbn [all_chars]. intros H. apply andb_true_iff in H. destruct H as [Hc Hs].
  destruct s as [|d s]; [apply Hpq; exact Hc|apply IH; exact Hs].
Qed.

Lemma remove_unsafe_clean (s : string) :
  all_chars not_unsafe (Urllib.remove_unsafe s) = true.
Proof.
  induction s as [|c s IH]; simpl; [reflexivity|].
  destruct (Urllib.unsafe c) eqn:Hc; [exact IH|].
  simpl. unfold not_unsafe at 1. rewrite Hc. exact IH.
Qed.

Lemma remove_unsafe_id (s : string) :
  all_chars not_unsafe s = true -> Urllib.remove_unsafe s = s.
Proof.
  induction s as [|c s IH]; simpl; [reflexivity|].
  intros H. apply andb_true_iff in H. destruct H as [Hc Hs].
  unfold not_unsafe in Hc. apply negb_true_iff in Hc. rewrite Hc, (IH Hs). reflexivity.
Qed.

Lemma break_fst_all (p q : ascii -> bool) (s : string) :
  all_chars q s = true -> all_chars q (fst (Urllib.break p s)) = true.
Proof.
  induction s as [|c s IH]; simpl; [reflexivity|].
  intros H. apply andb_true_iff in H. destruct H as [Hc Hs].
  destruct (p c); [reflexivity|].
  destruct (Urllib.break p s) as [a b]. simpl in *. rewrite Hc. exact (IH Hs).
Qed.

Lemma break_fst_not (p : ascii -> bool) (s : string) :
  all_chars (fun c => negb (p c)) (fst (Urllib.break p s)) = true.
Proof.
  induction s as [|c s IH]; simpl; [reflexivity|].
  destruct (p c) eqn:Hc; [reflexivity|].
  destruct (Urllib.break p s) as [a b]. simpl in *. rewrite Hc. exact IH.
Qed.

Lemma break_none (p : ascii -> bool) (s : string) :
  all_chars (fun c => negb (p c)) s = true -> Urllib.break p s = (s, EmptyString).
Proof.
  induction s as [|c s IH]; simpl; [reflexivity|].
  intros H. apply andb_true_iff in H. destruct H as [Hc Hs].
  apply negb_true_iff in Hc. rewrite Hc, (IH Hs). reflexivity.
Qed.

(** Characters that a string does not have are not in what is cut out of
    it. *)
Lemma mem_lstrip_by (c : ascii) (p : ascii -> bool) (s : string) :
  Py.mem c s = false -> Py.mem c (Py.lstrip_by p s) = false.
Proof.
  induction s as [|d s IH]; simpl; [reflexivity|].
  intros H. destruct (p d); [|exact H].
  apply orb_false_iff in H. apply IH, H.
Qed.

Lemma mem_rstrip_by (c : ascii) (p : ascii -> bool) (s : string) :
  Py.mem c s = false -> Py.mem c (Py.rstrip_by p s) = false.
Proof.
  induction s as [|d s IH]; simpl; [reflexivity|].
  intros H. apply orb_false_iff in H. destruct H as [Hd Hs].
  specialize (IH Hs).
  destruct (Py.rstrip_by p s) as [|e r].
  - destruct (p d); simpl; [reflexivity|]. rewrite Hd. reflexivity.
  - cbn [Py.mem] in *. rewrite Hd. exact IH.
Qed.

Lemma mem_drop (c : ascii) (n : nat) (s : string) :
  Py.mem c s = false -> Py.mem c (Py.drop n s) = false.
Proof.
  revert s. induction n as [|n IH]; intros [|d s] H; simpl; auto.
  simpl in H. apply orb_false_iff in H. apply IH, H.
Qed.

Lemma mem_remove_unsafe (c : ascii) (s : string) :
  Py.mem c s = false -> Py.mem c (Urllib.remove_unsafe s) = false.
Proof.
  induction s as [|d s IH]; simpl; [reflexivity|].
  intros H. apply orb_false_iff in H. destruct H as [Hd Hs].
  destruct (Urllib.unsafe d); simpl; [apply IH; exact Hs|].
  rewrite Hd. apply IH. exact Hs.
Qed.

Lemma mem_break_fst (c : ascii) (p : ascii -> bool) (s : string) :
  Py.mem c s = false -> Py.mem c (fst (Urllib.break p s)) = false.
Proof.
  induction s as [|d s IH]; simpl; [reflexivity|].
  intros H. apply orb_false_iff in H. destruct H as [Hd Hs].
  destruct (p d); [reflexivity|].
  destruct (Urllib.break p s) as [a b]. simpl in *. rewrite Hd. exact (IH Hs).
Qed.

Section Normalize.
Context {L : Library}.
Import Urllib.

Lemma lstrip_hosted (sch r : string) :
  sch = "http" \/ sch = "https" ->
  Py.lstrip_by c0_or_space (sch ++ "://" ++ r) = sch ++ "://" ++ r.
Proof. intros [-> | ->]; reflexivity. Qed.

Lemma remove_unsafe_hosted (sch r : string) :
  sch = "http" \/ sch = "https" ->
  remove_unsafe (sch ++ "://" ++ r) = sch ++ "://" ++ remove_unsafe r.
Proof. intros [-> | ->]; reflexivity. Qed.

Lemma split_scheme_hosted (sch r : string) :
  sch = "http" \/ sch = "https" ->
  split_scheme (sch ++ "://" ++ r) = Some (sch, "//" ++ r).
Proof. intros [-> | ->]; reflexivity. Qed.

(** [urlsplit] on a URL that starts with "http://" or "https://". *)
Lemma urlsplit_hosted (sch r : string) :
  sch = "http" \/ sch = "https" ->
  urlsplit (sch ++ "://" ++ r) EmptyString = parse_tail sch r.
Proof.
  intros Hsch. unfold urlsplit, parse_tail, bracket_check. cbv zeta.
  rewrite (lstrip_hosted sch r Hsch), (remove_unsafe_hosted sch r Hsch),
    (split_scheme_hosted sch _ Hsch).
  cbv iota beta.
  change (Py.startswith "//" ("//" ++ remove_unsafe r)) with true.
  change (Py.drop 2 ("//" ++ remove_unsafe r)) with (remove_unsafe r).
  cbv iota beta.
  change (fun c : ascii => Py.mem c "/?#") with is_delim.
  destruct (break is_delim (remove_unsafe r)) as [nl rest].
  destruct (xorb (Py.mem "[" nl) (Py.mem "]" nl)); [reflexivity|].
  destruct (Py.mem "[" nl && Py.mem "]" nl); [|reflexivity].
  destruct (check_bracketed_netloc nl); reflexivity.
Qed.

(** [parse_tail] in terms of the check of the network location. *)
Lemma parse_tail_checked (sch r : string) :
  parse_tail sch r
  = match netloc_check (fst (break is_delim (remove_unsafe r))) with
    | Some e => Raise e
    | None =>
        let (nl, rest) := break is_delim (remove_unsafe r) in
        let (url, frag) := split_once "#" rest in
        let (url, qry) := split_once "?" url in
        Ok {| scheme := sch; netloc := nl; path := url; query := qry;
              fragment := frag |}
    end.
Proof.
  unfold parse_tail, netloc_check.
  destruct (break is_delim (remove_unsafe r)) as [nl rest]. cbn [fst].
  destruct (bracket_check nl); [reflexivity|].
  destruct (split_once "#" rest) as [u frag]. destruct (split_once "?" u) as [u' qry].
  destruct (checknetloc nl); reflexivity.
Qed.

Lemma parse_tail_ok (sch r : string) (sr : SplitResult) :
  parse_tail sch r = Ok sr ->
  scheme sr = sch
  /\ netloc sr = fst (break is_delim (remove_unsafe r))
  /\ netloc_check (netloc sr) = None.
Proof.
  rewrite parse_tail_checked.
  destruct (break is_delim (remove_unsafe r)) as [nl rest]. cbn [fst].
  destruct (netloc_check nl) eqn:Hb; [discriminate|].
  destruct (split_once "#" rest) as [u frag]. destruct (split_once "?" u) as [u' qry].
  intros H. injection H as <-. simpl. auto.
Qed.

Lemma parse_tail_raise (sch sch' r : string) (e : exn) :
  parse_tail sch r = Raise e -> parse_tail sch' r = Raise e.
Proof.
  rewrite !parse_tail_checked.
  destruct (break is_delim (remove_unsafe r)) as [nl rest]. cbn [fst].
  destruct (netloc_check nl); [auto|].
  destruct (split_once "#" rest) as [u frag]. destruct (split_once "?" u) as [u' qry].
  discriminate.
Qed.

(** Parsing again a network location that a parse has produced. *)
Lemma parse_tail_netloc (sch nl : string) :
  all_chars not_delim nl = true ->
  all_chars not_unsafe nl = true ->
  netloc_check nl = None ->
  parse_tail sch nl
  = Ok {| scheme := sch; netloc := nl; path := EmptyString;
          query := EmptyString; fragment := EmptyString |}.
Proof.
  intros Hd Hu Hb. rewrite parse_tail_checked.
  rewrite (remove_unsafe_id _ Hu), (break_none is_delim _ Hd). cbn [fst].
  rewrite Hb. reflexivity.
Qed.

Lemma urlsplit_slash (sch : string) :
  sch = "http" \/ sch = "https" ->
  urlsplit "/" sch = Ok {| scheme := sch; netloc := EmptyString; path := "/";
                           query := EmptyString; fragment := EmptyString |}.
Proof. intros [-> | ->]; reflexivity. Qed.

Lemma urljoin_root_hosted (sch r : string) :
  sch = "http" \/ sch = "https" ->
  urljoin_root (sch ++ "://" ++ r)
  = match parse_tail sch r with
    | Raise e => Raise e
    | Ok sr => Ok (sch ++ "://" ++ netloc sr ++ "/")
    end.
Proof.
  intros Hsch. unfold urljoin_root, urlparse.
  replace (Py.nonempty (sch ++ "://" ++ r)) with true
    by (destruct Hsch as [-> | ->]; reflexivity).
  cbn [negb]. rewrite (urlsplit_hosted sch r Hsch).
  destruct (parse_tail sch r) as [sr|e] eqn:Hp; [|reflexivity].
  destruct (parse_tail_ok _ _ _ Hp) as (Hs & _ & _).
  rewrite Hs, (urlsplit_slash sch Hsch).
  cbn [scheme netloc query fragment path].
  unfold urlunsplit. cbn [scheme netloc query fragment path].
  destruct Hsch as [-> | ->]; cbn -[append]; destruct (netloc sr); reflexivity.
Qed.

Lemma append_assoc3 (a b c : string) : (a ++ b) ++ c = a ++ b ++ c.
Proof. induction a as [|x a IH]; simpl; [reflexivity|]. rewrite IH. reflexivity. Qed.

Lemma not_delim_not_slash (c : ascii) :
  not_delim c = true -> Py.mem c "/" = false.
Proof.
  unfold not_delim, is_delim. cbn [Py.mem]. intros H.
  apply negb_true_iff in H. apply orb_false_iff in H. destruct H as [H _].
  rewrite H. reflexivity.
Qed.

(** The input once stripped and given a scheme starts with "http://" or
    "https://", and what follows has no character that the input lacks. *)
Lemma with_scheme_hosted (x : string) :
  exists sch r,
    (sch = "http" \/ sch = "https")
    /\ with_scheme x = sch ++ "://" ++ r
    /\ forall c, Py.mem c x = false -> Py.mem c r = false.
Proof.
  unfold with_scheme.
  assert (Hstrip : forall c, Py.mem c x = false -> Py.mem c (Py.strip x) = false).
  { intros c Hc. unfold Py.strip. apply mem_rstrip_by, mem_lstrip_by, Hc. }
  destruct (Py.startswith "http://" (Py.strip x)) eqn:H1; cbn [negb andb].
  - exists "http", (Py.drop 7 (Py.strip x)). split; [auto|]. split.
    + exact (prefix_split _ _ H1).
    + intros c Hc. apply mem_drop, Hstrip, Hc.
  - destruct (Py.startswith "https://" (Py.strip x)) eqn:H2; cbn [negb].
    + exists "https", (Py.drop 8 (Py.strip x)). split; [auto|]. split.
      * exact (prefix_split _ _ H2).
      * intros c Hc. apply mem_drop, Hstrip, Hc.
    + exists "http", (Py.strip x). split; [auto|]. split; [reflexivity|exact Hstrip].
Qed.

(** [normalize_url_and_name] in terms of the parse of what follows the
    scheme. *)
Lemma normalize_hosted (x sch r : string) :
  sch = "http" \/ sch = "https" ->
  with_scheme x = sch ++ "://" ++ r ->
  normalize_url_and_name x
  = match parse_tail sch r with
    | Raise e => Raise e
    | Ok sr =>
        Ok (if Py.nonempty (netloc sr) then sch ++ "://" ++ netloc sr else sch ++ ":",
            name_of (netloc sr))
    end.
Proof.
  intros Hsch Hx. unfold normalize_url_and_name.
  cbv zeta.
  change (if negb (Py.startswith "http://" (Py.strip x))
             && negb (Py.startswith "https://" (Py.strip x))
          then "http://" ++ Py.strip x else Py.strip x) with (with_scheme x).
  rewrite Hx, (urljoin_root_hosted sch r Hsch).
  destruct (parse_tail sch r) as [sr|e] eqn:Hp; [|reflexivity].
  destruct (parse_tail_ok _ _ _ Hp) as (_ & Hnl & Hb).
  assert (Hd : all_chars not_delim (netloc sr) = true).
  { rewrite Hnl. apply (break_fst_not is_delim). }
  assert (Hu : all_chars not_unsafe (netloc sr) = true).
  { rewrite Hnl. apply break_fst_all, remove_unsafe_clean. }
  destruct (netloc sr) as [|a nl] eqn:Hn.
  - cbn [Py.nonempty]. destruct Hsch as [-> | ->]; reflexivity.
  - cbn [Py.nonempty]. rewrite <- Hn in *.
    assert (Hne : netloc sr <> EmptyString) by (rewrite Hn; discriminate).
    assert (Hr : Py.rstrip "/" (sch ++ "://" ++ netloc sr ++ "/")
                 = sch ++ "://" ++ netloc sr).
    { unfold Py.rstrip.
      replace (sch ++ "://" ++ netloc sr ++ "/")
        with ((sch ++ "://" ++ netloc sr) ++ "/")
        by (rewrite !append_assoc3; reflexivity).
      rewrite rstrip_by_app by reflexivity.
      apply rstrip_by_id.
      replace (sch ++ "://" ++ netloc sr) with ((sch ++ "://") ++ netloc sr)
        by (rewrite append_assoc3; reflexivity).
      rewrite last_char_append by exact Hne.
      apply (all_chars_last not_delim); [exact not_delim_not_slash|exact Hd]. }
    rewrite Hr. unfold urlparse.
    rewrite (urlsplit_hosted sch _ Hsch), (parse_tail_netloc sch _ Hd Hu Hb).
    reflexivity.
Qed.

Lemma parse_tail_total (sch r : string) :
  netloc_check (fst (break is_delim (remove_unsafe r))) = None ->
  exists sr, parse_tail sch r = Ok sr.
Proof.
  rewrite parse_tail_checked. intros ->.
  destruct (break is_delim (remove_unsafe r)) as [nl rest].
  destruct (split_once "#" rest) as [u frag]. destruct (split_once "?" u) as [u' qry].
  eexists. reflexivity.
Qed.

Lemma parse_tail_refused (sch r : string) (e : exn) :
  netloc_check (fst (break is_delim (remove_unsafe r))) = Some e ->
  parse_tail sch r = Raise e.
Proof. rewrite parse_tail_checked. intros ->. reflexivity. Qed.

(** The network location of an input is the one of what follows its
    scheme. *)
Lemma netloc_of_hosted (x sch r : string) :
  sch = "http" \/ sch = "https" ->
  with_scheme x = sch ++ "://" ++ r ->
  netloc_of x = fst (break is_delim (remove_unsafe r)).
Proof.
  intros Hsch Hx. unfold netloc_of. rewrite Hx.
  destruct Hsch as [-> | ->]; reflexivity.
Qed.

End Normalize.

(** C9, as amended.  [normalize_url_and_name] returns a pair for every
    input whose network location [urlsplit] accepts, and raises the
    [ValueError] of [urlsplit] for the others: a location with one square
    bracket and not the other, with a bracketed host that the check of
    [urlsplit] refuses, or, when it is not ASCII, with an NFKC form that
    has a URL delimiter.  And whenever it returns a pair whose base URL has
    a host (it is not the bare "http:" or "https:") and no white space left
    at its end, normalising that base URL again gives the same pair. *)
Theorem normalize_idempotent_on_hosts {L : Library} :
  (forall x : string,
      match netloc_check (netloc_of x) with
      | Some e => normalize_url_and_name x = Raise e
      | None => exists u n, normalize_url_and_name x = Ok (u, n)
      end)
  /\ (forall x u n : string,
         normalize_url_and_name x = Ok (u, n) ->
         u <> "http:" -> u <> "https:" -> Py.strip u = u ->
         normalize_url_and_name u = Ok (u, n)).
Proof.
  split.
  - intros x.
    destruct (with_scheme_hosted x) as (sch & r & Hsch & Hx & _).
    rewrite (normalize_hosted x sch r Hsch Hx), (netloc_of_hosted x sch r Hsch Hx).
    destruct (netloc_check (fst (Urllib.break is_delim (Urllib.remove_unsafe r))))
      as [e|] eqn:Hc.
    + rewrite (parse_tail_refused sch r e Hc). reflexivity.
    + destruct (parse_tail_total sch r Hc) as [sr Hsr]. rewrite Hsr. eauto.
  - intros x u n Hnorm Hu1 Hu2 Hstrip.
    destruct (with_scheme_hosted x) as (sch & r & Hsch & Hx & _).
    rewrite (normalize_hosted x sch r Hsch Hx) in Hnorm.
    destruct (parse_tail sch r) as [sr|e] eqn:Hp; [|discriminate].
    injection Hnorm as Hu Hn.
    destruct (parse_tail_ok _ _ _ Hp) as (_ & Hnl & Hb).
    destruct (Py.nonempty (Urllib.netloc sr)) eqn:Hne.
    2:{ exfalso. destruct Hsch as [-> | ->]; [apply Hu1|apply Hu2]; symmetry; exact Hu. }
    assert (Hwith : with_scheme u = sch ++ "://" ++ Urllib.netloc sr).
    { unfold with_scheme. rewrite Hstrip. clear Hstrip Hu1 Hu2. subst u.
      destruct Hsch as [-> | ->]; reflexivity. }
    rewrite (normalize_hosted u sch _ Hsch Hwith).
    rewrite parse_tail_netloc.
    + cbn [Urllib.netloc]. rewrite Hne, <- Hu, Hn. reflexivity.
    + rewrite Hnl. apply (break_fst_not is_delim).
    + rewrite Hnl. apply break_fst_all, remove_unsafe_clean.
    + exact Hb.
Qed.

(** The example of the specification, a host with a port and a path, and
    the default base URL. *)
Lemma normalize_idempotent_on_hosts_witness :
  let L := Scenario.reference_library in
  (exists u n, normalize_url_and_name "example.com" = Ok (u, n))
  /\ normalize_url_and_name "http://example.com" = Ok ("http://example.com", "examplecom")
  /\ normalize_url_and_name "http://tatatv.cc" = Ok ("http://tatatv.cc", "tatatvcc").
Proof.
  intros L. destruct (@normalize_idempotent_on_hosts L) as [H1 H2].
  split; [|split].
  - exact (H1 "example.com").
  - apply (H2 "example.com"); [vm_compute; reflexivity|discriminate..|reflexivity].
  - apply (H2 "http://tatatv.cc/stalker_portal/c/");
      [vm_compute; reflexivity|discriminate..|reflexivity].
Defined.

(** C9 as stated fails on both counts.  The empty input normalises to the
    base URL "http:" with an empty name, and "http:" to "http://http:" with
    the name "http:"; an input whose
    host is followed by a space and a path keeps the space, which the second
    pass strips; and an input with a lone bracket makes [urlsplit] raise. *)
Lemma normalize_not_idempotent_nor_total :
  let L := Scenario.reference_library in
  normalize_url_and_name EmptyString = Ok ("http:", EmptyString)
  /\ normalize_url_and_name "http:" = Ok ("http://http:", "http:")
  /\ normalize_url_and_name "http://a /path" = Ok ("http://a ", "a ")
  /\ normalize_url_and_name "http://a " = Ok ("http://a", "a")
  /\ normalize_url_and_name "[" = Raise (ValueError "Invalid IPv6 URL").
Proof.
  vm_compute. repeat split; reflexivity.
Qed.
(** ** The link resolver, whatever the session and the upstream *)

Lemma all_chars_app (p : ascii -> bool) (a b : string) :
  all_chars p (a ++ b) = all_chars p a && all_chars p b.
Proof.
  induction a as [|c a IH]; simpl; [reflexivity|].
  rewrite IH, andb_assoc. reflexivity.
Qed.

Lemma quote_char_quoted (c : ascii) : all_chars quoted_char (Py.quote_char c) = true.
Proof.
  destruct c as [b0 b1 b2 b3 b4 b5 b6 b7].
  destruct b0, b1, b2, b3, b4, b5, b6, b7; vm_compute; reflexivity.
Qed.

Lemma quote_quoted (s : string) : all_chars quoted_char (Py.quote s) = true.
Proof.
  induction s as [|c s IH]; simpl; [reflexivity|].
  rewrite all_chars_app, quote_char_quoted, IH. reflexivity.
Qed.

(** X1.  Whatever the command and the MAC address hold, what [quote] makes
    of them has letters, digits, the characters [_.-~/] and the percent
    sign only: the command is one parameter of the URL of [create_link],
    and can neither end it nor add another. *)
Theorem quoted_text_stays_in_its_parameter {L : Library}
    (base_url cmd portal_type mac : string) :
  (exists q,
     create_link_url base_url cmd portal_type
     = base_url ++ "/" ++ portal_prefix portal_type
         ++ "/server/load.php?type=itv&action=create_link&cmd=" ++ q
         ++ "&JsHttpRequest=1-xml"
     /\ all_chars quoted_char q = true
     /\ Py.mem "&" q = false /\ Py.mem "#" q = false /\ Py.mem " " q = false)
  /\ all_chars quoted_char (MAC_Encoded (generate_device_info mac)) = true.
Proof.
  split.
  - exists (Py.quote (Py.replace "ffrt " EmptyString (Py.strip cmd))).
    split; [reflexivity|].
    pose proof (quote_quoted (Py.replace "ffrt " EmptyString (Py.strip cmd))) as Hq.
    split; [exact Hq|].
    assert (Hm : forall c s, quoted_char c = false -> all_chars quoted_char s = true ->
                             Py.mem c s = false).
    { intros c s Hc. induction s as [|d s IH]; simpl; [reflexivity|].
      intros Hs. apply andb_prop in Hs. destruct Hs as [Hd Hs].
      rewrite (IH Hs), orb_false_r.
      destruct (Ascii.eqb c d) eqn:Hcd; [|reflexivity].
      apply Ascii.eqb_eq in Hcd. subst d. congruence. }
    repeat split; apply Hm; try exact Hq; reflexivity.
  - apply quote_quoted.
Qed.

Section ResolverAny.
Context {L : Library} {E : Environ}.

(** One turn of the loop never raises, whatever the session is, and sends
    one request at most. *)
Lemma create_link_iteration_any (url : string) (session : option Session)
    (hs : option dict) (w w1 : world) (r : result (option string)) :
  try_except (create_link_attempt url session hs)
             (time_sleep (1 # 2) ;;; ret None) w = (r, w1) ->
  (exists o, r = Ok o)
  /\ the_cache w1 = the_cache w
  /\ (List.length (sent w1) <= S (List.length (sent w)))%nat
  /\ (session = None -> r = Ok None /\ sent w1 = sent w).
Proof.
  intros H. destruct session as [s|].
  - assert (Hl : logs only_gets
                   (try_except (create_link_attempt url (Some s) hs)
                               (time_sleep (1 # 2) ;;; ret None))).
    { unfold create_link_attempt, session_get. logs_tac. }
    destruct (Hl _ _ _ H) as (extra & (Hc & _) & _).
    apply create_link_iteration in H. destruct H as (Hr & Hs & _).
    split; [eexists; exact Hr|]. split; [exact Hc|]. split.
    + rewrite Hs, length_app. simpl. lia.
    + discriminate.
  - unfold try_except, create_link_attempt, bind, raise, time_sleep, ret in H.
    injection H as <- <-. simpl.
    split; [eexists; reflexivity|]. repeat split; auto.
Qed.

Lemma create_link_loop_total (retries : nat) (url : string)
    (session : option Session) (hs : option dict) (w w' : world)
    (r : result (option string)) :
  create_link_loop retries url session hs w = (r, w') ->
  (exists o, r = Ok o)
  /\ the_cache w' = the_cache w
  /\ (List.length (sent w') <= List.length (sent w) + retries)%nat.
Proof.
  revert w. induction retries as [|n IH]; intros w H.
  - simpl in H. unfold ret in H. injection H as <- <-.
    split; [eexists; reflexivity|]. split; [reflexivity|lia].
  - cbn [create_link_loop] in H. unfold bind at 1 in H.
    destruct (try_except (create_link_attempt url session hs)
                         (time_sleep (1 # 2);;; ret None) w) as [r1 w1] eqn:Ht.
    apply create_link_iteration_any in Ht.
    destruct Ht as ((o & ->) & Hc & Hn & _).
    destruct o as [link|].
    + unfold ret in H. injection H as <- <-.
      split; [eexists; reflexivity|]. split; [exact Hc|lia].
    + destruct (IH w1 H) as (Ho & Hc1 & Hn1).
      split; [exact Ho|]. split; [congruence|lia].
Qed.

(** Without a session every turn fails on the method call and pauses. *)
Lemma create_link_loop_no_session (retries : nat) (url : string) (hs : option dict)
    (w : world) :
  exists t,
    create_link_loop retries url None hs w = (Ok None, with_clock t w)
    /\ (t == clock w + inject_Z (Z.of_nat retries) * (1 # 2))%Q.
Proof.
  revert w. induction retries as [|n IH]; intros w.
  - exists (clock w). split.
    + simpl. unfold ret, with_clock. destruct w; reflexivity.
    + simpl. ring.
  - destruct (IH (with_clock (clock w + (1 # 2)) w)) as (t & Hrun & Ht).
    exists t. split.
    + cbn [create_link_loop]. unfold bind at 1.
      change (try_except (create_link_attempt url None hs)
                         (time_sleep (1 # 2);;; ret None) w)
        with (@Ok (option string) None, with_clock (clock w + (1 # 2)) w).
      cbn beta iota. exact Hrun.
    + rewrite Ht. cbn [with_clock clock].
      rewrite Nat2Z.inj_succ, <- Z.add_1_r, inject_Z_plus.
      change (inject_Z 1) with 1%Q. ring.
Qed.

End ResolverAny.

(** X2.  [create_link] raises only where it builds its URL.  For a
    command that UTF-8 can encode it never raises: whatever the session (a
    session or [None]), the headers and the upstream, it returns a link or
    [None], leaves the cache as it is and sends no more requests than it has
    retries; without a session it sends nothing at all and returns [None]
    after one pause of half a second per retry.  For a command that UTF-8
    cannot encode it raises [UnicodeEncodeError] at once: no request, no
    pause, nothing changed. *)
Theorem create_link_raises_only_at_quote {L : Library} {E : Environ}
    (base_url cmd : string) (session : option Session) (hs : option dict)
    (portal_type : string) (retries : nat) (w : world) :
  let res := create_link base_url cmd session hs portal_type retries w in
  let bare := create_link base_url cmd None hs portal_type retries w in
  (utf8_encodable (Py.replace "ffrt " EmptyString (Py.strip cmd)) = true ->
   (exists link, fst res = Ok link)
   /\ the_cache (snd res) = the_cache w
   /\ (List.length (sent (snd res)) <= List.length (sent w) + retries)%nat
   /\ fst bare = Ok None
   /\ sent (snd bare) = sent w
   /\ (clock (snd bare) == clock w + inject_Z (Z.of_nat retries) * (1 # 2))%Q)
  /\ (utf8_encodable (Py.replace "ffrt " EmptyString (Py.strip cmd)) = false ->
      res = (Raise UnicodeEncodeError, w)).
Proof.
  cbv zeta. split.
  - intros Henc. rewrite !(create_link_encodable _ _ _ _ _ _ _ Henc).
    destruct (create_link_loop retries (create_link_url base_url cmd portal_type)
                session hs w) as [r w'] eqn:Hrun.
    apply create_link_loop_total in Hrun. destruct Hrun as (Ho & Hc & Hn).
    destruct (create_link_loop_no_session retries
                (create_link_url base_url cmd portal_type) hs w) as (t & -> & Ht).
    cbn [fst snd]. repeat split; auto.
  - intros Henc. apply create_link_unencodable. exact Henc.
Qed.

(** Three retries without a session, on the end-to-end upstream: nothing
    is sent, and a second and a half goes by.  And with a session, under a
    library whose encoder refuses the command: the call raises before
    anything is sent. *)
Lemma create_link_raises_only_at_quote_witness :
  let L := Scenario.reference_library in
  let refusing :=
    {| md5_hexdigest := @md5_hexdigest L;
       sha256_hexdigest := @sha256_hexdigest L;
       check_bracketed_netloc := @check_bracketed_netloc L;
       check_nfkc_netloc := @check_nfkc_netloc L;
       utf8_encodable := fun _ => false |} in
  let E := default_environ in
  let w := boot Scenario.portal Scenario.quarter 0 in
  let s := {| cookies := [("mac", "00:1A:79:00:13:DA")] |} in
  let bare := @create_link L "http://tatatv.cc" "ffrt http://n/play" None None "1" 3 w in
  (fst bare = Ok None /\ sent (snd bare) = [] /\ (clock (snd bare) == 3 # 2)%Q)
  /\ @create_link refusing "http://tatatv.cc" "ffrt http://n/play" (Some s) None "1" 3 w
     = (Raise UnicodeEncodeError, w).
Proof.
  intros L refusing E w s bare. split.
  - destruct (@create_link_raises_only_at_quote L E "http://tatatv.cc"
                "ffrt http://n/play" None None "1" 3 w) as [H _].
    destruct (H eq_refl) as (_ & _ & _ & Hr & Hs & Hk).
    split; [exact Hr|]. split; [exact Hs|].
    unfold bare. rewrite Hk. vm_compute. reflexivity.
  - destruct (@create_link_raises_only_at_quote refusing E "http://tatatv.cc"
                "ffrt http://n/play" (Some s) None "1" 3 w) as [_ H].
    exact (H eq_refl).
Defined.

Section Backoff.
Context {L : Library} {E : Environ}.

Variables (url : string) (s : Session) (hs : option dict).

Lemma turn_no_response (w : world) :
  upstream w (List.length (sent w)) = NoResponse -> idle_turn url s hs (1 # 2) w.
Proof.
  intros H. eexists. split.
  - unfold try_except, create_link_attempt, session_get.
    unfold bind at 1. rewrite session_request_eq, H. reflexivity.
  - cbn [with_clock upstream latency sent clock log_request].
    rewrite length_app. simpl. repeat split; try reflexivity. lia.
Qed.

Lemma turn_bad_status (w : world) (r0 : response) :
  upstream w (List.length (sent w)) = Reply r0 -> status_code r0 <> 200%Z ->
  idle_turn url s hs 0 w.
Proof.
  intros H Hs. apply Z.eqb_neq in Hs. eexists. split.
  - unfold try_except, create_link_attempt, session_get.
    unfold bind at 1. rewrite session_request_eq, H. cbn beta iota.
    rewrite Hs. reflexivity.
  - cbn [with_clock upstream latency sent clock log_request].
    rewrite length_app. simpl. repeat split; try reflexivity; [lia|ring].
Qed.

Lemma turn_not_json (w : world) (r0 : response) :
  upstream w (List.length (sent w)) = Reply r0 -> status_code r0 = 200%Z ->
  json r0 = None -> idle_turn url s hs (1 # 2) w.
Proof.
  intros H Hs Hj. eexists. split.
  - unfold try_except, create_link_attempt, session_get.
    unfold bind at 1. rewrite session_request_eq, H. cbn beta iota.
    rewrite Hs. cbn [Z.eqb Pos.eqb negb].
    unfold bind at 1. unfold lift at 1, resp_json. rewrite Hj. reflexivity.
  - cbn [with_clock upstream latency sent clock log_request].
    rewrite length_app. simpl. repeat split; try reflexivity. lia.
Qed.

(** The loop over turns that all yield nothing and pause for [d]. *)
Lemma create_link_loop_idle (P : outcome -> Prop) (d : Q) :
  (forall w, P (upstream w (List.length (sent w))) -> idle_turn url s hs d w) ->
  forall (retries : nat) (w : world),
    (forall j, (j < retries)%nat -> P (upstream w (List.length (sent w) + j))) ->
    exists w',
      create_link_loop retries url (Some s) hs w = (Ok None, w')
      /\ upstream w' = upstream w /\ latency w' = latency w
      /\ List.length (sent w') = (List.length (sent w) + retries)%nat
      /\ (clock w' == clock w + waited (latency w) (List.length (sent w)) retries
                      + inject_Z (Z.of_nat retries) * d)%Q.
Proof.
  intros Hturn retries. induction retries as [|n IH]; intros w HP.
  - exists w. repeat split; auto. simpl. ring.
  - destruct (Hturn w) as (w1 & Ht & Hu & Hl & Hn & Hk).
    { rewrite <- (Nat.add_0_r (List.length (sent w))). apply HP. lia. }
    destruct (IH w1) as (w' & Hrun & Hu' & Hl' & Hn' & Hk').
    { intros j Hj. rewrite Hu, Hn. replace (S (List.length (sent w)) + j)%nat
        with (List.length (sent w) + S j)%nat by lia. apply HP. lia. }
    exists w'. split.
    + cbn [create_link_loop]. unfold bind at 1. rewrite Ht. exact Hrun.
    + split; [congruence|]. split; [congruence|]. split; [lia|].
      rewrite Hk', Hk, Hl, Hn. cbn [waited].
      rewrite Nat2Z.inj_succ, <- Z.add_1_r, inject_Z_plus.
      change (inject_Z 1) with 1%Q. ring.
Qed.

End Backoff.

(** X3.  The half-second pause of [create_link] follows an exception, not
    an error status.  For a command that UTF-8 can encode: on an upstream
    that does not respond, or that answers 200 with a body that is not
    JSON, the call returns [None] after the latencies of its requests plus
    half a second per retry; on an upstream that answers every request with
    a status other than 200 it returns [None] after the latencies alone. *)
Theorem create_link_pauses_after_exceptions_only {L : Library} {E : Environ}
    (base_url cmd : string) (s : Session) (hs : option dict) (portal_type : string)
    (retries : nat) (w : world) :
  utf8_encodable (Py.replace "ffrt " EmptyString (Py.strip cmd)) = true ->
  let res := create_link base_url cmd (Some s) hs portal_type retries w in
  let n0 := List.length (sent w) in
  let answers := waited (latency w) n0 retries in
  ((forall j, (j < retries)%nat ->
      upstream w (n0 + j) = NoResponse
      \/ exists r, upstream w (n0 + j) = Reply r
                   /\ status_code r = 200%Z /\ json r = None) ->
   fst res = Ok None
   /\ List.length (sent (snd res)) = (n0 + retries)%nat
   /\ (clock (snd res) == clock w + answers + inject_Z (Z.of_nat retries) * (1 # 2))%Q)
  /\ ((forall j, (j < retries)%nat ->
         exists r, upstream w (n0 + j) = Reply r /\ status_code r <> 200%Z) ->
      fst res = Ok None
      /\ List.length (sent (snd res)) = (n0 + retries)%nat
      /\ (clock (snd res) == clock w + answers)%Q).
Proof.
  intros Henc. cbv zeta. rewrite (create_link_encodable _ _ _ _ _ _ _ Henc).
  set (url := create_link_url base_url cmd portal_type).
  split; intros H.
  - destruct (create_link_loop_idle url s hs
                (fun o => o = NoResponse
                          \/ exists r, o = Reply r /\ status_code r = 200%Z
                                       /\ json r = None)
                (1 # 2)) with (retries := retries) (w := w)
      as (w' & -> & _ & _ & Hn & Hk).
    + intros w0 [Hno|(r & Hr & Hs & Hj)].
      * apply turn_no_response. exact Hno.
      * eapply turn_not_json; eauto.
    + exact H.
    + cbn [fst snd]. auto.
  - destruct (create_link_loop_idle url s hs
                (fun o => exists r, o = Reply r /\ status_code r <> 200%Z) 0)
      with (retries := retries) (w := w) as (w' & -> & _ & _ & Hn & Hk).
    + intros w0 (r & Hr & Hs). eapply turn_bad_status; eauto.
    + exact H.
    + cbn [fst snd]. split; [reflexivity|]. split; [exact Hn|].
      rewrite Hk. ring.
Qed.

(** Three retries on the upstream that is down take three quarters of a
    second of waiting and a second and a half of pauses; on an upstream
    that is busy, the waiting alone. *)
Lemma create_link_pauses_after_exceptions_only_witness :
  let L := Scenario.reference_library in
  let E := default_environ in
  let s := {| cookies := [("mac", "00:1A:79:00:13:DA")] |} in
  let link up :=
    create_link "http://tatatv.cc" "ffrt http://n/play" (Some s) None "1" 3
                (boot up Scenario.quarter 0) in
  let busy := fun _ : nat => Scenario.plain_reply 503 "busy" in
  (fst (link Scenario.dead_portal) = Ok None
   /\ (clock (snd (link Scenario.dead_portal)) == 9 # 4)%Q)
  /\ (fst (link busy) = Ok None /\ (clock (snd (link busy)) == 3 # 4)%Q).
Proof.
  intros L E s link busy. split.
  - destruct (@create_link_pauses_after_exceptions_only L E "http://tatatv.cc"
                "ffrt http://n/play" s None "1" 3
                (boot Scenario.dead_portal Scenario.quarter 0) eq_refl) as [H _].
    feed H; [intros j _; left; reflexivity|].
    destruct H as (Hr & _ & Hk). split; [exact Hr|].
    unfold link. rewrite Hk. vm_compute. reflexivity.
  - destruct (@create_link_pauses_after_exceptions_only L E "http://tatatv.cc"
                "ffrt http://n/play" s None "1" 3
                (boot busy Scenario.quarter 0) eq_refl) as [_ H].
    feed H; [intros j _; eexists; split; [reflexivity|discriminate]|].
    destruct H as (Hr & _ & Hk). split; [exact Hr|].
    unfold link. rewrite Hk. vm_compute. reflexivity.
Defined.
(** ** The session acquisition, step by step *)

Section Acquisition.
Context {L : Library} {E : Environ}.

(** An acquisition that returns has met a handshake answer with a token. *)
Lemma init_portal_ok_granted (base mac ptype : string) (w w' : world)
    (x : Session * dict * value) :
  init_portal_session_and_channels base mac ptype w = (Ok x, w') ->
  exists r0 tok, upstream w (List.length (sent w)) = Reply r0 /\ grants r0 tok.
Proof.
  unfold init_portal_session_and_channels, session_post. intros H.
  unfold bind at 1 in H. rewrite session_request_eq in H.
  destruct (upstream w (List.length (sent w))) as [|r0]; [discriminate H|].
  exists r0. cbn beta iota in H.
  unfold bind at 1 in H.
  destruct (response_ok r0 && (status_code r0 =? 200)%Z) eqn:Hok.
  - unfold bind at 1 in H. unfold lift at 1 in H. unfold resp_json in H.
    destruct (json r0) as [body|] eqn:Hj; [|discriminate H].
    unfold lift at 1 in H.
    destruct (py_get body "js" (VDict [])) as [js|] eqn:Hjs; [|discriminate H].
    unfold bind at 1 in H. unfold lift at 1 in H.
    destruct (py_get js "token" VNone) as [tok|] eqn:Htok; [|discriminate H].
    destruct (truthy tok) eqn:Ht; cbn [negb] in H; [|discriminate H].
    exists tok. apply andb_prop in Hok. destruct Hok as [_ Hs].
    apply Z.eqb_eq in Hs. split; [reflexivity|]. split; [exact Hs|].
    destruct body as [| | | | |b]; try discriminate Hjs.
    cbn [py_get] in Hjs.
    destruct (assoc "js" b) as [v|] eqn:Hb.
    + injection Hjs as ->.
      destruct js as [| | | | |j]; try discriminate Htok.
      cbn [py_get] in Htok.
      destruct (assoc "token" j) as [t|] eqn:Hjt.
      * injection Htok as ->. exists b, j. auto.
      * injection Htok as <-. discriminate Ht.
    + injection Hjs as <-. cbn in Htok. injection Htok as <-. discriminate Ht.
  - unfold ret at 1 in H. unfold bind at 1 in H. discriminate H.
Qed.

Lemma parse_catalog_ok (session s : Session) (headers h : dict) (resp : response)
    (w w' : world) (ch : value) :
  parse_catalog session headers resp w = (Ok (s, h, ch), w') ->
  s = session /\ h = headers /\ w' = w.
Proof.
  unfold parse_catalog, bind, lift, ret, resp_json, py_get. intros H.
  repeat (break_innermost H; cbn beta iota in H);
    inversion H; subst; auto.
Qed.

(** What [parse_catalog] makes of an answer that carries no catalog. *)
Lemma parse_catalog_none (session : Session) (headers : dict) (resp : response)
    (w : world) :
  no_catalog resp ->
  parse_catalog session headers resp w = (Ok (session, headers, VList []), w).
Proof.
  unfold parse_catalog. intros [Hs|[(v & Hj & Hd)|(body & Hj & Hb)]].
  - apply Z.eqb_neq in Hs. rewrite Hs, andb_false_r. reflexivity.
  - destruct (response_ok resp && (status_code resp =? 200)%Z).
    + unfold bind at 1. unfold lift at 1, resp_json. rewrite Hj.
      cbn beta iota. rewrite Hd. reflexivity.
    + reflexivity.
  - destruct (response_ok resp && (status_code resp =? 200)%Z).
    + unfold bind at 1. unfold lift at 1, resp_json. rewrite Hj.
      cbn beta iota. cbn [is_dict]. unfold bind at 1. unfold bind at 1.
      unfold lift at 1. cbn [py_get]. rewrite Hb. reflexivity.
    + reflexivity.
Qed.

(** The acquisition once the token is there and the profile answer is
    accepted: the catalog request and what [parse_catalog] makes of its
    answer. *)
Lemma init_portal_accepted (base mac ptype : string) (w : world)
    (r0 r1 : response) (tok : value) :
  upstream w (List.length (sent w)) = Reply r0 ->
  grants r0 tok ->
  upstream w (S (List.length (sent w))) = Reply r1 ->
  response_ok r1 = true ->
  Py.contains "js" (text r1) = true ->
  let prefix := portal_prefix ptype in
  let session := cookies_set "mac" mac {| cookies := [] |} in
  let headers := dict_set "Authorization" ("Bearer " ++ py_str tok)
                          (stb_headers base prefix) in
  let info := generate_device_info mac in
  let rqs := acquisition_requests base mac ptype headers
               (SNCUT info) (Device_ID1 info) (Signature info) in
  exists w3,
    sent w3 = (sent w ++ rqs)%list
    /\ the_cache w3 = the_cache w /\ upstream w3 = upstream w
    /\ latency w3 = latency w
    /\ (clock w3 == clock w + waited (latency w) (List.length (sent w)) 3)%Q
    /\ init_portal_session_and_channels base mac ptype w
       = match upstream w (S (S (List.length (sent w)))) with
         | NoResponse => (Raise RequestException, w3)
         | Reply r2 => parse_catalog session headers r2 w3
         end.
Proof.
  intros Hup0 Hg Hup1 Hok1 Hjs1. cbv zeta.
  rewrite (init_portal_granted base mac ptype w r0 tok Hup0 Hg).
  unfold session_get.
  erewrite bind_ok;
    [|rewrite session_request_eq, length_log_request;
      change (upstream (log_request ?r w)) with (upstream w);
      rewrite Hup1; reflexivity].
  rewrite Hok1, Hjs1. cbn [negb orb].
  unfold bind at 1. rewrite session_request_eq.
  rewrite !length_log_request.
  match goal with
  | |- context [log_request ?rq2 (log_request ?rq1 (log_request ?rq0 w))] =>
      exists (log_request rq2 (log_request rq1 (log_request rq0 w)))
  end.
  split.
  { unfold log_request, acquisition_requests; cbn [sent].
    rewrite <- !app_assoc. reflexivity. }
  split; [reflexivity|]. split; [reflexivity|]. split; [reflexivity|]. split.
  { unfold log_request; cbn [clock sent latency waited].
    rewrite !length_app. cbn [List.length].
    replace (List.length (sent w) + 1)%nat with (S (List.length (sent w))) by lia.
    replace (S (List.length (sent w)) + 1)%nat
      with (S (S (List.length (sent w)))) by lia.
    ring. }
  change (upstream (log_request ?a (log_request ?b w))) with (upstream w).
  destruct (upstream w (S (S (List.length (sent w))))); reflexivity.
Qed.

(** An acquisition that returns has run all three exchanges. *)
Lemma init_portal_success (base mac ptype : string) (w w' : world)
    (s : Session) (h : dict) (ch : value) :
  init_portal_session_and_channels base mac ptype w = (Ok (s, h, ch), w') ->
  let info := generate_device_info mac in
  exists tok,
    truthy tok = true
    /\ s = {| cookies := [("mac", mac)] |}
    /\ h = dict_set "Authorization" ("Bearer " ++ py_str tok)
                    (stb_headers base (portal_prefix ptype))
    /\ sent w' = (sent w ++ acquisition_requests base mac ptype h
                              (SNCUT info) (Device_ID1 info) (Signature info))%list
    /\ the_cache w' = the_cache w
    /\ (clock w' == clock w + waited (latency w) (List.length (sent w)) 3)%Q.
Proof.
  intros H. cbv zeta.
  destruct (init_portal_ok_granted _ _ _ _ _ _ H) as (r0 & tok & Hup0 & Hg).
  exists tok.
  assert (Htok : truthy tok = true).
  { destruct Hg as (_ & b & j & _ & _ & _ & Ht). exact Ht. }
  pose proof H as H'.
  rewrite (init_portal_granted base mac ptype w r0 tok Hup0 Hg) in H'.
  unfold session_get in H'. unfold bind at 1 in H'.
  rewrite session_request_eq, length_log_request in H'.
  change (upstream (log_request ?r w)) with (upstream w) in H'.
  destruct (upstream w (S (List.length (sent w)))) as [|r1] eqn:Hup1;
    [discriminate H'|].
  cbn beta iota in H'.
  destruct (response_ok r1) eqn:Hok1; [|discriminate H'].
  destruct (Py.contains "js" (text r1)) eqn:Hjs1; [|discriminate H'].
  clear H'.
  destruct (init_portal_accepted base mac ptype w r0 r1 tok Hup0 Hg Hup1 Hok1 Hjs1)
    as (w3 & Hsent & Hc & _ & _ & Hk & Hrun).
  rewrite Hrun in H.
  destruct (upstream w (S (S (List.length (sent w))))) as [|r2];
    [discriminate H|].
  apply parse_catalog_ok in H. destruct H as (-> & -> & ->).
  repeat split; auto.
Qed.

End Acquisition.

(** X4.  A handshake answer without a token ends the acquisition at once:
    whether it has another status than 200, or is a JSON object without
    [js], or has no token under [js], or a token that Python takes as
    false, [init_portal_session_and_channels] raises the error "Handshake
    failed or token missing" and the handshake is the only request sent. *)
Theorem handshake_refusal_ends_acquisition {L : Library} {E : Environ}
    (base mac ptype : string) (w : world) (r0 : response) :
  upstream w (List.length (sent w)) = Reply r0 ->
  refuses r0 ->
  init_portal_session_and_channels base mac ptype w
  = (Raise (RuntimeError "Handshake failed or token missing"),
     log_request {| req_method := POST;
                    req_url := handshake_url base (portal_prefix ptype);
                    req_headers := Some (stb_headers base (portal_prefix ptype));
                    req_cookies := [("mac", mac)];
                    req_timeout := 10 |} w).
Proof.
  intros Hup Href.
  unfold init_portal_session_and_channels, session_post.
  erewrite bind_ok; [|rewrite session_request_eq, Hup; reflexivity].
  destruct (response_ok r0 && (status_code r0 =? 200)%Z) eqn:Hok;
    [|reflexivity].
  destruct Href as [Hs|(body & Hj & Hb)].
  { apply Z.eqb_neq in Hs. rewrite Hs, andb_false_r in Hok. discriminate Hok. }
  unfold bind at 1. unfold bind at 1. unfold lift at 1, resp_json. rewrite Hj.
  unfold lift at 1. cbn [py_get].
  destruct Hb as [Hb|(js & Hb & Htok)]; rewrite Hb.
  - reflexivity.
  - unfold bind at 1. unfold lift at 1. cbn [py_get].
    destruct (assoc "token" js) as [tok|] eqn:Hjt.
    + rewrite (Htok tok eq_refl). reflexivity.
    + reflexivity.
Qed.

(** A portal that answers 403 to the handshake, and one whose token is the
    empty string. *)
Lemma handshake_refusal_ends_acquisition_witness :
  let L := Scenario.reference_library in
  let E := default_environ in
  let run up :=
    init_portal_session_and_channels "http://tatatv.cc" PORTAL_MAC PORTAL_TYPE
      (boot up Scenario.quarter 0) in
  let forbidden := fun _ : nat => Scenario.plain_reply 403 "forbidden" in
  let blank := fun _ : nat =>
    Scenario.json_reply (VDict [("js", VDict [("token", VStr EmptyString)])]) in
  (fst (run forbidden) = Raise (RuntimeError "Handshake failed or token missing")
   /\ List.map req_method (sent (snd (run forbidden))) = [POST])
  /\ (fst (run blank) = Raise (RuntimeError "Handshake failed or token missing")
      /\ List.map req_method (sent (snd (run blank))) = [POST]).
Proof.
  intros L E run forbidden blank. split.
  - unfold run.
    rewrite (@handshake_refusal_ends_acquisition L E "http://tatatv.cc" PORTAL_MAC
               PORTAL_TYPE (boot forbidden Scenario.quarter 0)
               {| status_code := 403; text := "forbidden"; json := None |}).
    + split; reflexivity.
    + reflexivity.
    + left. discriminate.
  - unfold run.
    rewrite (@handshake_refusal_ends_acquisition L E "http://tatatv.cc" PORTAL_MAC
               PORTAL_TYPE (boot blank Scenario.quarter 0)
               {| status_code := 200;
                  text := Scenario.dumps
                            (VDict [("js", VDict [("token", VStr EmptyString)])]);
                  json := Some (VDict [("js", VDict [("token", VStr EmptyString)])]) |}).
    + split; reflexivity.
    + reflexivity.
    + right. exists [("js", VDict [("token", VStr EmptyString)])].
      split; [reflexivity|]. right. exists [("token", VStr EmptyString)].
      split; [reflexivity|]. intros tok Htok. injection Htok as <-. reflexivity.
Defined.

(** X5.  The catalog request is the one step of the acquisition that
    degrades instead of failing.  With a token and an accepted profile, a
    catalog answer that has another status than 200, or is JSON but not an
    object, or is an object without [js], makes the acquisition return
    normally with the empty list as its channels, after three requests;
    and a cache that holds the empty list is never fresh. *)
Theorem missing_catalog_gives_empty_list {L : Library} {E : Environ}
    (base mac ptype : string) (w : world) (r0 r1 r2 : response) (tok : value) :
  upstream w (List.length (sent w)) = Reply r0 ->
  grants r0 tok ->
  upstream w (S (List.length (sent w))) = Reply r1 ->
  response_ok r1 = true ->
  Py.contains "js" (text r1) = true ->
  upstream w (S (S (List.length (sent w)))) = Reply r2 ->
  no_catalog r2 ->
  exists s h w',
    init_portal_session_and_channels base mac ptype w = (Ok (s, h, VList []), w')
    /\ List.length (sent w') = (List.length (sent w) + 3)%nat
    /\ forall pname t now,
         cache_fresh {| session := Some s; headers := Some h; channels := VList [];
                        portal_name := pname; expires := t |} now = false.
Proof.
  intros Hup0 Hg Hup1 Hok1 Hjs1 Hup2 Hno.
  destruct (init_portal_accepted base mac ptype w r0 r1 tok Hup0 Hg Hup1 Hok1 Hjs1)
    as (w3 & Hsent & _ & _ & _ & _ & Hrun).
  rewrite Hup2 in Hrun. rewrite parse_catalog_none in Hrun by exact Hno.
  eexists _, _, w3. split; [exact Hrun|]. split.
  - rewrite Hsent, length_app. reflexivity.
  - reflexivity.
Qed.

(** A portal whose catalog endpoint answers 404. *)
Lemma missing_catalog_gives_empty_list_witness :
  let L := Scenario.reference_library in
  let E := default_environ in
  let up := fun n : nat =>
    match n with
    | 0%nat => Scenario.json_reply Scenario.handshake_T1
    | 1%nat => Scenario.json_reply Scenario.profile_ok
    | _ => Scenario.plain_reply 404 "not found"
    end in
  exists s h w',
    init_portal_session_and_channels "http://tatatv.cc" PORTAL_MAC PORTAL_TYPE
      (boot up Scenario.quarter 0) = (Ok (s, h, VList []), w')
    /\ List.length (sent w') = 3%nat
    /\ forall pname t now,
         cache_fresh {| session := Some s; headers := Some h; channels := VList [];
                        portal_name := pname; expires := t |} now = false.
Proof.
  intros L E up.
  apply (@missing_catalog_gives_empty_list L E "http://tatatv.cc" PORTAL_MAC
           PORTAL_TYPE (boot up Scenario.quarter 0)
           {| status_code := 200; text := Scenario.dumps Scenario.handshake_T1;
              json := Some Scenario.handshake_T1 |}
           {| status_code := 200; text := Scenario.dumps Scenario.profile_ok;
              json := Some Scenario.profile_ok |}
           {| status_code := 404; text := "not found"; json := None |}
           (VStr "T1")).
  - reflexivity.
  - split; [reflexivity|].
    exists [("js", VDict [("token", VStr "T1")])], [("token", VStr "T1")].
    repeat split; reflexivity.
  - reflexivity.
  - reflexivity.
  - reflexivity.
  - reflexivity.
  - left. discriminate.
Defined.

(** X6.  An acquisition that returns has sent exactly three requests: the
    handshake by POST with the timeout 10, then the profile by GET with the
    timeout 10 and the catalog by GET with the timeout 15.  The headers it
    returns are the ones of the handshake with [Authorization: Bearer
    <token>] added, for a token that Python takes as true; they are the
    headers passed with both GET requests, and the handshake went without
    that header.  The cache is not touched, and the time spent is the
    latency of the three exchanges. *)
Theorem acquisition_success_shape {L : Library} {E : Environ}
    (base mac ptype : string) (w w' : world) (s : Session) (h : dict) (ch : value) :
  init_portal_session_and_channels base mac ptype w = (Ok (s, h, ch), w') ->
  let info := generate_device_info mac in
  let prefix := portal_prefix ptype in
  exists tok new,
    truthy tok = true
    /\ h = dict_set "Authorization" ("Bearer " ++ py_str tok) (stb_headers base prefix)
    /\ assoc "Authorization" h = Some ("Bearer " ++ py_str tok)
    /\ assoc "Authorization" (stb_headers base prefix) = None
    /\ sent w' = (sent w ++ new)%list
    /\ List.map request_line new
       = [ (POST, handshake_url base prefix, Some (stb_headers base prefix), 10%Q);
           (GET, profile_url base prefix (SNCUT info) (Device_ID1 info)
                             (Signature info), Some h, 10%Q);
           (GET, all_url base prefix, Some h, 15%Q) ]
    /\ the_cache w' = the_cache w
    /\ (clock w' == clock w + waited (latency w) (List.length (sent w)) 3)%Q.
Proof.
  intros H. cbv zeta.
  destruct (init_portal_success _ _ _ _ _ _ _ _ H)
    as (tok & Ht & Hs & Hh & Hsent & Hc & Hk).
  exists tok. eexists. split; [exact Ht|]. split; [exact Hh|].
  split; [rewrite Hh; apply assoc_dict_set|]. split; [reflexivity|].
  split; [exact Hsent|]. split; [reflexivity|]. split; assumption.
Qed.

(** The acquisition on the end-to-end upstream. *)
Lemma acquisition_success_shape_witness :
  let L := Scenario.reference_library in
  let E := default_environ in
  let res := init_portal_session_and_channels "http://tatatv.cc" PORTAL_MAC PORTAL_TYPE
               (boot Scenario.portal Scenario.quarter 0) in
  List.map req_method (sent (snd res)) = [POST; GET; GET]
  /\ List.map req_timeout (sent (snd res)) = [10; 10; 15]%Q
  /\ the_cache (snd res) = _cache.
Proof.
  intros L E res.
  destruct res as [r w'] eqn:Hres.
  assert (Hr : r = Ok ({| cookies := [("mac", "00:1A:79:00:13:DA")] |},
                       dict_set "Authorization" "Bearer T1"
                                (stb_headers "http://tatatv.cc" "stalker_portal"),
                       VList [Scenario.news; Scenario.local_channel])).
  { apply (f_equal fst) in Hres. cbn [fst] in Hres. rewrite <- Hres.
    vm_compute. reflexivity. }
  subst r.
  destruct (@acquisition_success_shape L E "http://tatatv.cc" PORTAL_MAC PORTAL_TYPE
              _ _ _ _ _ Hres) as (tok & new & _ & _ & _ & _ & Hsent & Hlines & Hc & _).
  cbn [snd]. rewrite Hsent, Hc. cbn [sent boot app].
  split; [|split; [|reflexivity]].
  - apply (f_equal (List.map (fun l => fst (fst (fst l))))) in Hlines.
    rewrite map_map in Hlines. exact Hlines.
  - apply (f_equal (List.map snd)) in Hlines.
    rewrite map_map in Hlines. exact Hlines.
Defined.
(** ** The cache at and after its expiry, and what a served cache holds *)

Section Served.
Context {L : Library} {E : Environ}.

(** A refresh posts one handshake, whether it succeeds or the acquisition
    raises. *)
Lemma refresh_cache_handshake (w w1 : world) (r : result unit) (base pname : string) :
  normalize_url_and_name PORTAL_BASE_URL = Ok (base, pname) ->
  refresh_cache w = (r, w1) ->
  Threads.handshakes w1 = S (Threads.handshakes w).
Proof.
  intros Hn H. destruct r as [[]|e].
  - apply refresh_cache_success in H. tauto.
  - apply refresh_cache_raise in H.
    destruct H as [_ [[Hr _]|(base' & pname' & _ & Hi)]]; [congruence|].
    apply init_portal_trace in Hi. destruct Hi as (gets & Hx & Hg).
    destruct Hx as (_ & _ & _ & Hs & _).
    unfold Threads.handshakes. rewrite Hs, filter_app, length_app. simpl.
    rewrite (only_gets_no_handshake _ Hg). simpl. lia.
Qed.

(** What a populated cache holds. *)
Lemma populated_session (c : cache) :
  populated c ->
  exists s h tok pname,
    session c = Some s /\ headers c = Some h /\ portal_name c = Some pname
    /\ cookies s = [("mac", PORTAL_MAC)]
    /\ assoc "Authorization" h = Some ("Bearer " ++ py_str tok)
    /\ truthy tok = true
    /\ exists base, normalize_url_and_name PORTAL_BASE_URL = Ok (base, pname).
Proof.
  intros (base & pname & w & w' & s & h & ch & Hn & Hi & ->).
  apply init_portal_success in Hi. cbv zeta in Hi.
  destruct Hi as (tok & Ht & Hs & Hh & _).
  exists s, h, tok, pname. cbn [session headers portal_name].
  split; [reflexivity|]. split; [reflexivity|]. split; [reflexivity|].
  split; [rewrite Hs; reflexivity|].
  split; [rewrite Hh; apply assoc_dict_set|].
  split; [exact Ht|]. exists base. exact Hn.
Qed.

(** A call of [ensure_cache] that returns leaves a populated cache, when
    it started on the initial cache or on a populated one. *)
Lemma ensure_cache_populated (w w1 : world) :
  the_cache w = _cache \/ populated (the_cache w) ->
  ensure_cache w = (Ok tt, w1) ->
  populated (the_cache w1).
Proof.
  intros H0 H. rewrite ensure_cache_unfold in H.
  destruct (cache_fresh (the_cache w) (clock w)) eqn:Hf.
  - injection H as <-. destruct H0 as [H0|H0]; [|exact H0].
    rewrite H0 in Hf. discriminate Hf.
  - eapply refresh_cache_populated; eauto.
Qed.

End Served.

(** X7.  The expiry is exclusive.  After a refresh that succeeded, a call
    of [ensure_cache] made when the clock has reached the time of the
    update plus the TTL, or later, is a refresh again, whatever the catalog
    holds, and posts a new handshake; with a TTL of zero or less that is
    every later call. *)
Theorem ensure_cache_refreshes_from_expiry {L : Library} {E : Environ}
    (w w1 : world) (t : Q) :
  refresh_cache w = (Ok tt, w1) ->
  (clock w1 + inject_Z CACHE_TTL <= t)%Q ->
  ensure_cache (with_clock t w1) = refresh_cache (with_clock t w1)
  /\ Threads.handshakes (snd (ensure_cache (with_clock t w1)))
     = S (Threads.handshakes w1).
Proof.
  intros Hr Ht.
  pose proof (refresh_cache_success _ _ Hr) as (_ & _ & _ & Hexp).
  assert (He : ensure_cache (with_clock t w1) = refresh_cache (with_clock t w1)).
  { rewrite ensure_cache_unfold. cbn [with_clock the_cache clock].
    unfold cache_fresh. rewrite Hexp.
    replace (Qlt_bool t (clock w1 + inject_Z CACHE_TTL)) with false.
    - rewrite andb_false_r. reflexivity.
    - symmetry. apply Qlt_bool_false. exact Ht. }
  split; [exact He|]. rewrite He.
  apply refresh_cache_ok in Hr.
  destruct Hr as (base & pname & _ & _ & _ & _ & Hn & _ & _).
  destruct (refresh_cache (with_clock t w1)) as [r w2] eqn:H2.
  apply (refresh_cache_handshake _ _ _ _ _ Hn) in H2. exact H2.
Qed.

(** The end-to-end upstream with the default TTL of 300 seconds: the call
    made 300 seconds after the update posts the second handshake. *)
Lemma ensure_cache_refreshes_from_expiry_witness :
  let L := Scenario.reference_library in
  let E := default_environ in
  let w1 := snd (refresh_cache (boot Scenario.portal Scenario.quarter 0)) in
  truthy (channels (the_cache w1)) = true
  /\ Threads.handshakes (snd (ensure_cache (with_clock (clock w1 + 300) w1))) = 2%nat.
Proof.
  intros L E w1. split; [vm_compute; reflexivity|].
  destruct (@ensure_cache_refreshes_from_expiry L E
              (boot Scenario.portal Scenario.quarter 0) w1 (clock w1 + 300)) as [_ H].
  - vm_compute. reflexivity.
  - apply Qle_refl.
  - rewrite H. vm_compute. reflexivity.
Defined.

(** X8.  Whenever [ensure_cache] returns normally, on the initial cache or
    on one a refresh has written, the cache holds a session and headers,
    neither of them [None]: the headers have [Authorization: Bearer
    <token>] for a token that Python takes as true, and the portal name is
    set.  So [getlink] never hands [None] to [create_link]. *)
Theorem served_cache_holds_session {L : Library} {E : Environ} (w w1 : world) :
  the_cache w = _cache \/ populated (the_cache w) ->
  ensure_cache w = (Ok tt, w1) ->
  exists s h tok pname,
    session (the_cache w1) = Some s
    /\ headers (the_cache w1) = Some h
    /\ portal_name (the_cache w1) = Some pname
    /\ assoc "Authorization" h = Some ("Bearer " ++ py_str tok)
    /\ truthy tok = true.
Proof.
  intros H0 H.
  destruct (populated_session _ (ensure_cache_populated _ _ H0 H))
    as (s & h & tok & pname & Hs & Hh & Hp & Hc & Ha & Ht & _).
  exists s, h, tok, pname. auto 10.
Qed.

(** The first call on the end-to-end upstream. *)
Lemma served_cache_holds_session_witness :
  let L := Scenario.reference_library in
  let E := default_environ in
  let w1 := snd (ensure_cache (boot Scenario.portal Scenario.quarter 0)) in
  exists s h tok pname,
    session (the_cache w1) = Some s
    /\ headers (the_cache w1) = Some h
    /\ portal_name (the_cache w1) = Some pname
    /\ assoc "Authorization" h = Some ("Bearer " ++ py_str tok)
    /\ truthy tok = true.
Proof.
  intros L E w1.
  apply (@served_cache_holds_session L E (boot Scenario.portal Scenario.quarter 0) w1).
  - left. reflexivity.
  - vm_compute. reflexivity.
Defined.

(** X19.  The TTL counts from the end of the acquisition.  A refresh that
    succeeds has sent three requests, has taken the latency of the three
    exchanges, and sets the expiry to the time it started plus that
    latency plus the TTL: the time the upstream takes to answer is not
    taken off the life of the cache. *)
Theorem expiry_counts_from_the_end_of_the_refresh {L : Library} {E : Environ}
    (w w1 : world) :
  refresh_cache w = (Ok tt, w1) ->
  List.length (sent w1) = (List.length (sent w) + 3)%nat
  /\ (clock w1 == clock w + waited (latency w) (List.length (sent w)) 3)%Q
  /\ (expires (the_cache w1)
      == clock w + waited (latency w) (List.length (sent w)) 3
         + inject_Z CACHE_TTL)%Q.
Proof.
  intros H. apply refresh_cache_ok in H.
  destruct H as (base & pname & w' & s & h & ch & _ & Hi & ->).
  apply init_portal_success in Hi. cbv zeta in Hi.
  destruct Hi as (tok & _ & _ & _ & Hsent & _ & Hk).
  cbn [with_cache sent clock the_cache expires].
  split; [rewrite Hsent, length_app; reflexivity|].
  split; [exact Hk|]. rewrite Hk. reflexivity.
Qed.

(** The end-to-end upstream, a quarter of a second per exchange, with the
    default TTL: the cache written by a refresh that starts at time 0
    expires at 300.75. *)
Lemma expiry_counts_from_the_end_of_the_refresh_witness :
  let L := Scenario.reference_library in
  let E := default_environ in
  let w1 := snd (refresh_cache (boot Scenario.portal Scenario.quarter 0)) in
  List.length (sent w1) = 3%nat
  /\ (clock w1 == 3 # 4)%Q
  /\ (expires (the_cache w1) == 1203 # 4)%Q.
Proof.
  intros L E w1.
  destruct (@expiry_counts_from_the_end_of_the_refresh L E
              (boot Scenario.portal Scenario.quarter 0) w1) as (Hn & Hk & He).
  - vm_compute. reflexivity.
  - split; [exact Hn|]. split.
    + rewrite Hk. vm_compute. reflexivity.
    + rewrite He. vm_compute. reflexivity.
Defined.
(** ** The handler [getlink] on catalogs of objects *)

(** The decimal form of a number is not the text of [None]. *)
Lemma str_of_N_not_None (n : N) : Py.str_of_N n <> "None".
Proof.
  unfold Py.str_of_N. destruct (N.to_uint n); simpl; discriminate.
Qed.

Lemma well_formed_dict (c : value) :
  well_formed c = true -> exists d, c = VDict d.
Proof. destruct c; try discriminate. eauto. Qed.

Lemma find_channel_cons (target : string) (d : list (string * value))
    (items : list value) :
  find_channel target (VDict d :: items)
  = if has_id target (VDict d) then Ok (VDict d) else find_channel target items.
Proof.
  unfold has_id. cbn [find_channel py_get].
  destruct (assoc "id" d); reflexivity.
Qed.

(** The search of [getlink] on a catalog of objects: nothing, or the first
    object with the identifier. *)
Lemma find_channel_well_formed (target : string) (items : list value) :
  forallb well_formed items = true ->
  (find_channel target items = Ok VNone
   /\ existsb (has_id target) items = false)
  \/ exists d, find_channel target items = Ok (VDict d)
               /\ In (VDict d) items
               /\ well_formed (VDict d) = true
               /\ has_id target (VDict d) = true
               /\ existsb (has_id target) items = true.
Proof.
  induction items as [|c items IH]; intros Hwf.
  - left. split; reflexivity.
  - cbn [forallb] in Hwf. apply andb_prop in Hwf. destruct Hwf as [Hc Hrest].
    destruct (well_formed_dict _ Hc) as (d & ->).
    rewrite find_channel_cons. cbn [existsb].
    destruct (has_id target (VDict d)) eqn:Hid.
    + right. exists d. repeat split; auto. left. reflexivity.
    + destruct (IH Hrest) as [[Hf He]|(d' & Hf & Hin & Hw & Hid' & He)].
      * left. split; [exact Hf|exact He].
      * right. exists d'. repeat split; auto. right. exact Hin.
Qed.

(** An object found under a number is not empty. *)
Lemma found_is_true (n : N) (d : list (string * value)) :
  has_id (Py.str_of_N n) (VDict d) = true -> truthy (VDict d) = true.
Proof.
  destruct d as [|kv d]; [|reflexivity].
  unfold has_id. cbn [py_get assoc].
  change (py_str VNone) with "None". intros H. apply String.eqb_eq in H.
  exfalso. exact (str_of_N_not_None n (eq_sym H)).
Qed.

(** [getlink] on a catalog of objects with string commands. *)
Lemma getlink_classified {L : Library} {E : Environ}
    (ch_id : N) (w w1 : world) (items : list value) :
  ensure_cache w = (Ok tt, w1) ->
  channels (the_cache w1) = VList items ->
  forallb well_formed items = true ->
  forallb encodable_cmd items = true ->
  exists rep w2,
    getlink ch_id w = (Ok rep, w2)
    /\ the_cache w2 = the_cache w1
    /\ (List.length (sent w2) <= List.length (sent w1) + 3)%nat
    /\ (rep = JsonError 404 "not_found" None
        \/ rep = JsonError 400 "no_cmd" None
        \/ rep = JsonError 502 "failed_to_create_link" None
        \/ exists u, u <> EmptyString /\ rep = Redirect u 302)
    /\ (rep = JsonError 404 "not_found" None
        <-> existsb (has_id (Py.str_of_N ch_id)) items = false).
Proof.
  intros Hens Hch Hwf Henc.
  unfold getlink. rewrite Hens.
  unfold bind at 1. unfold get_cache at 1. cbn beta iota.
  rewrite Hch. unfold bind at 1. unfold lift at 1. cbn [iterate].
  unfold bind at 1. unfold lift at 1.
  assert (Hredirect : forall a u, String a u <> EmptyString) by discriminate.
  destruct (find_channel_well_formed (Py.str_of_N ch_id) items Hwf)
    as [[Hf He]|(d & Hf & Hin & Hw & Hid & He)]; rewrite Hf; cbn beta iota.
  - cbn [truthy negb]. unfold ret. eexists _, w1.
    split; [reflexivity|]. split; [reflexivity|]. split; [lia|].
    split; [auto|]. split; auto.
  - rewrite (found_is_true _ _ Hid). cbn [negb].
    unfold bind at 1. unfold lift at 1. cbn [py_get].
    assert (Hnot404 : forall rep,
              rep <> JsonError 404 "not_found" None ->
              (rep = JsonError 404 "not_found" None
               <-> existsb (has_id (Py.str_of_N ch_id)) items = false)).
    { intros rep Hrep. rewrite He. split; [contradiction|discriminate]. }
    unfold well_formed in Hw.
    destruct (assoc "cmd" d) as [[| | |raw| |]|] eqn:Hcmd; try discriminate Hw.
    + unfold bind at 1. unfold lift at 1. cbn [as_str].
      destruct (Py.nonempty (Py.strip raw)) eqn:Hne; cbn [negb].
      * destruct (Py.contains "ffmpeg" (Py.strip raw)) eqn:Hff.
        -- unfold bind at 1. unfold ret at 1.
           destruct (local_link (Py.strip raw)) as [|a u]; unfold ret;
             eexists _, w1; (split; [reflexivity|]); (split; [reflexivity|]);
             (split; [lia|]); (split; [|apply Hnot404; discriminate]).
           ++ auto.
           ++ right; right; right. eexists. split; [apply Hredirect|reflexivity].
        -- unfold bind at 1. unfold bind at 1. unfold get_cache at 1.
           cbn beta iota.
           destruct (create_link (Py.rstrip "/" PORTAL_BASE_URL) (Py.strip raw)
                       (session (the_cache w1)) (headers (the_cache w1))
                       PORTAL_TYPE 3 w1) as [r w2] eqn:Hrun.
           rewrite create_link_encodable in Hrun.
           2:{ rewrite forallb_forall in Henc. specialize (Henc _ Hin).
               cbn [encodable_cmd] in Henc. rewrite Hcmd in Henc. exact Henc. }
           apply create_link_loop_total in Hrun.
           destruct Hrun as ((o & ->) & Hc & Hn).
           destruct o as [[|a u]|]; unfold ret;
             eexists _, w2; (split; [reflexivity|]); (split; [exact Hc|]);
             (split; [exact Hn|]); (split; [|apply Hnot404; discriminate]).
           ++ auto.
           ++ right; right; right. eexists. split; [apply Hredirect|reflexivity].
           ++ auto.
      * unfold ret. eexists _, w1.
        split; [reflexivity|]. split; [reflexivity|]. split; [lia|].
        split; [auto|apply Hnot404; discriminate].
    + unfold bind at 1. unfold lift at 1. cbn [as_str].
      change (Py.nonempty (Py.strip EmptyString)) with false. cbn [negb].
      unfold ret. eexists _, w1.
      split; [reflexivity|]. split; [reflexivity|]. split; [lia|].
      split; [auto|apply Hnot404; discriminate].
Qed.

(** X9.  On a catalog that is a list of objects whose [cmd], where there
    is one, is a string that UTF-8 can encode, [getlink] never raises.  It
    answers 404, 400, 502 or a redirect to a non-empty address, leaves the
    cache as [ensure_cache] left it, sends at most three requests of its
    own, and answers 404 exactly when no object of the catalog has the
    identifier of the request under [id]. *)
Theorem getlink_answers_on_well_formed_catalog {L : Library} {E : Environ}
    (ch_id : N) (w w1 : world) (items : list value) :
  ensure_cache w = (Ok tt, w1) ->
  channels (the_cache w1) = VList items ->
  forallb well_formed items = true ->
  forallb encodable_cmd items = true ->
  exists rep w2,
    getlink ch_id w = (Ok rep, w2)
    /\ the_cache w2 = the_cache w1
    /\ (List.length (sent w2) <= List.length (sent w1) + 3)%nat
    /\ (rep = JsonError 404 "not_found" None
        \/ rep = JsonError 400 "no_cmd" None
        \/ rep = JsonError 502 "failed_to_create_link" None
        \/ exists u, u <> EmptyString /\ rep = Redirect u 302)
    /\ (rep = JsonError 404 "not_found" None
        <-> existsb (has_id (Py.str_of_N ch_id)) items = false).
Proof.
  exact (getlink_classified ch_id w w1 items).
Qed.

(** The catalog of the end-to-end upstream, asked for a channel it has and
    for one it has not. *)
Lemma getlink_answers_on_well_formed_catalog_witness :
  let L := Scenario.reference_library in
  let E := default_environ in
  let w := boot Scenario.portal Scenario.quarter 0 in
  let items := [Scenario.news; Scenario.local_channel] in
  (exists w2, getlink 8 w = (Ok (JsonError 404 "not_found" None), w2))
  /\ (exists rep w2, getlink 5 w = (Ok rep, w2)
                     /\ rep <> JsonError 404 "not_found" None).
Proof.
  intros L E w items. split.
  - destruct (@getlink_answers_on_well_formed_catalog L E 8%N w (snd (ensure_cache w))
                items) as (rep & w2 & Hrun & _ & _ & _ & H404);
      try (vm_compute; reflexivity).
    exists w2. rewrite Hrun. f_equal. f_equal.
    apply H404. vm_compute. reflexivity.
  - destruct (@getlink_answers_on_well_formed_catalog L E 5%N w (snd (ensure_cache w))
                items) as (rep & w2 & Hrun & _ & _ & _ & H404);
      try (vm_compute; reflexivity).
    exists rep, w2. split; [exact Hrun|].
    intros Hrep. apply H404 in Hrep. vm_compute in Hrep. discriminate Hrep.
Defined.

Section Negotiated.
Context {L : Library} {E : Environ}.

(** [getlink] up to the call of [create_link], for a channel whose command
    is a string that is not blank and does not name ffmpeg. *)
Lemma getlink_negotiates (ch_id : N) (w w1 : world) (items : list value)
    (d : list (string * value)) (raw : string) (s : Session) :
  ensure_cache w = (Ok tt, w1) ->
  session (the_cache w1) = Some s ->
  channels (the_cache w1) = VList items ->
  find_channel (Py.str_of_N ch_id) items = Ok (VDict d) ->
  assoc "cmd" d = Some (VStr raw) ->
  Py.strip raw <> EmptyString ->
  Py.contains "ffmpeg" (Py.strip raw) = false ->
  getlink ch_id w
  = bind (create_link (Py.rstrip "/" PORTAL_BASE_URL) (Py.strip raw) (Some s)
                      (headers (the_cache w1)) PORTAL_TYPE 3)
         (fun real_url =>
            match real_url with
            | Some (String a u) => ret (Redirect (String a u) 302)
            | _ => ret (JsonError 502 "failed_to_create_link" None)
            end) w1.
Proof.
  intros Hens Hsess Hch Hfind Hcmd Hne Hff.
  assert (Hd : truthy (VDict d) = true).
  { destruct d; [discriminate Hcmd|reflexivity]. }
  assert (Hn : Py.nonempty (Py.strip raw) = true).
  { destruct (Py.strip raw); [contradiction|reflexivity]. }
  unfold getlink. rewrite Hens.
  unfold bind at 1. unfold get_cache at 1. cbn beta iota.
  rewrite Hch. unfold bind at 1. unfold lift at 1. cbn [iterate].
  unfold bind at 1. unfold lift at 1. rewrite Hfind. cbn beta iota.
  rewrite Hd. cbn [negb].
  unfold bind at 1. unfold lift at 1. cbn [py_get]. rewrite Hcmd.
  unfold bind at 1. unfold lift at 1. cbn [as_str].
  rewrite Hn, Hff. cbn [negb].
  unfold bind, get_cache. cbn beta iota. rewrite Hsess.
  reflexivity.
Qed.

End Negotiated.

(** X10.  How [getlink] follows [create_link].  For a channel whose
    command is a string that UTF-8 can encode, not blank and without
    "ffmpeg", and a cache that holds a session: when none of the three
    answers is usable the reply is 502 after three requests; when the
    answer to attempt [k] is the first usable one, the handler stops there
    and redirects to its command, cleaned, after [k + 1] requests; and when
    cleaning leaves nothing of that command the reply is 502, with no
    further attempt. *)
Theorem getlink_follows_create_link {L : Library} {E : Environ}
    (ch_id : N) (w w1 : world) (items : list value) (d : list (string * value))
    (raw : string) (s : Session) :
  ensure_cache w = (Ok tt, w1) ->
  session (the_cache w1) = Some s ->
  channels (the_cache w1) = VList items ->
  find_channel (Py.str_of_N ch_id) items = Ok (VDict d) ->
  assoc "cmd" d = Some (VStr raw) ->
  Py.strip raw <> EmptyString ->
  Py.contains "ffmpeg" (Py.strip raw) = false ->
  utf8_encodable (Py.replace "ffrt " EmptyString (Py.strip (Py.strip raw))) = true ->
  let next j := usable_cmd (upstream w1 (List.length (sent w1) + j)) in
  let res := getlink ch_id w in
  ((forall j, (j < 3)%nat -> next j = None) ->
   fst res = Ok (JsonError 502 "failed_to_create_link" None)
   /\ List.length (sent (snd res)) = (List.length (sent w1) + 3)%nat)
  /\ (forall k c, (k < 3)%nat -> next k = Some c ->
        (forall j, (j < k)%nat -> next j = None) ->
        fst res = Ok (match clean_link c with
                      | EmptyString => JsonError 502 "failed_to_create_link" None
                      | u => Redirect u 302
                      end)
        /\ List.length (sent (snd res)) = (List.length (sent w1) + S k)%nat).
Proof.
  intros Hens Hsess Hch Hfind Hcmd Hne Hff Henc. cbv zeta.
  rewrite (getlink_negotiates ch_id w w1 items d raw s Hens Hsess Hch Hfind Hcmd Hne Hff).
  unfold bind. rewrite (create_link_encodable _ _ _ _ _ _ _ Henc).
  destruct (create_link_loop 3
              (create_link_url (Py.rstrip "/" PORTAL_BASE_URL) (Py.strip raw) PORTAL_TYPE)
              (Some s) (headers (the_cache w1)) w1) as [r w2] eqn:Hrun.
  pose proof (create_link_loop_spec _ _ _ _ _ _ _ Hrun) as H.
  cbv zeta in H. destruct H as [Hnone Hsome]. split.
  - intros Hall. destruct (Hnone Hall) as [-> Hsent].
    unfold ret. cbn [fst snd]. split; [reflexivity|].
    rewrite Hsent, length_app, repeat_length. reflexivity.
  - intros k c Hk Hc Hbefore. destruct (Hsome k c Hk Hc Hbefore) as [-> Hsent].
    destruct (clean_link c) as [|a u]; unfold ret; cbn [fst snd];
      (split; [reflexivity|]);
      rewrite Hsent, length_app, repeat_length; reflexivity.
Qed.

(** Channel 5 of the end-to-end catalog: on the upstream that answers at
    once the handler redirects after one request; on an upstream whose
    answer is the bare prefix "ffrt " it gives up after one request. *)
Lemma getlink_follows_create_link_witness :
  let L := Scenario.reference_library in
  let E := default_environ in
  let bare := fun n : nat =>
    match n with
    | 3%nat => Scenario.json_reply (VDict [("js", VDict [("cmd", VStr "ffrt ")])])
    | _ => Scenario.portal n
    end in
  let run up := getlink 5 (boot up Scenario.quarter 0) in
  (fst (run Scenario.portal) = Ok (Redirect "http://n/play" 302)
   /\ List.length (sent (snd (run Scenario.portal))) = 4%nat)
  /\ (fst (run bare) = Ok (JsonError 502 "failed_to_create_link" None)
      /\ List.length (sent (snd (run bare))) = 4%nat).
Proof.
  intros L E bare run.
  pose (s := {| cookies := [("mac", "00:1A:79:00:13:DA")] |}).
  pose (items := [Scenario.news; Scenario.local_channel]).
  pose (d := [("id", VInt 5); ("name", VStr "News"); ("logo", VStr "n.png");
              ("cmd", VStr "ffrt http://n/play")]).
  split.
  - destruct (@getlink_follows_create_link L E 5%N
                (boot Scenario.portal Scenario.quarter 0)
                (snd (ensure_cache (boot Scenario.portal Scenario.quarter 0)))
                items d "ffrt http://n/play" s) as [_ H];
      try (vm_compute; reflexivity); [discriminate|].
    specialize (H 0%nat "ffrt http://n/play").
    feed H; [lia|]. feed H; [vm_compute; reflexivity|].
    feed H; [intros j Hj; lia|].
    destruct H as [Hr Hn]. split; [exact Hr|]. unfold run. rewrite Hn.
    vm_compute. reflexivity.
  - destruct (@getlink_follows_create_link L E 5%N
                (boot bare Scenario.quarter 0)
                (snd (ensure_cache (boot bare Scenario.quarter 0)))
                items d "ffrt http://n/play" s) as [_ H];
      try (vm_compute; reflexivity); [discriminate|].
    specialize (H 0%nat "ffrt ").
    feed H; [lia|]. feed H; [vm_compute; reflexivity|].
    feed H; [intros j Hj; lia|].
    destruct H as [Hr Hn]. split; [exact Hr|]. unfold run. rewrite Hn.
    vm_compute. reflexivity.
Defined.

(** The search stops with an [AttributeError] on the first item that is
    not an object, when no object before it has the identifier. *)
Lemma find_channel_bad_item (target : string) (pre post : list value) (bad : value) :
  forallb is_dict pre = true ->
  existsb (has_id target) pre = false ->
  is_dict bad = false ->
  find_channel target (pre ++ bad :: post) = Raise AttributeError.
Proof.
  intros Hpre Hid Hbad. induction pre as [|c pre IH].
  - destruct bad; try reflexivity. discriminate Hbad.
  - cbn [forallb] in Hpre. apply andb_prop in Hpre. destruct Hpre as [Hc Hpre].
    cbn [existsb] in Hid. apply orb_false_elim in Hid. destruct Hid as [Hc' Hid].
    destruct c as [| | | | |d]; try discriminate Hc.
    cbn [app]. rewrite find_channel_cons, Hc'. exact (IH Hpre Hid).
Qed.

(** The search on a list of objects, whatever their commands. *)
Lemma find_channel_dicts (target : string) (items : list value) :
  forallb is_dict items = true ->
  (find_channel target items = Ok VNone
   /\ existsb (has_id target) items = false)
  \/ exists d, find_channel target items = Ok (VDict d)
               /\ In (VDict d) items
               /\ has_id target (VDict d) = true.
Proof.
  induction items as [|c items IH]; intros Hd.
  - left. split; reflexivity.
  - cbn [forallb] in Hd. apply andb_prop in Hd. destruct Hd as [Hc Hrest].
    destruct c as [| | | | |d]; try discriminate Hc.
    rewrite find_channel_cons. cbn [existsb].
    destruct (has_id target (VDict d)) eqn:Hid.
    + right. exists d. repeat split; auto. left. reflexivity.
    + destruct (IH Hrest) as [[Hf He]|(d' & Hf & Hin & Hid')].
      * left. split; [exact Hf|exact He].
      * right. exists d'. repeat split; auto. right. exact Hin.
Qed.

(** Once the channel is found, the reply is not the 404: the handler
    raises, or answers 400, 502 or a redirect. *)
Lemma getlink_found_not_404 {L : Library} {E : Environ}
    (ch_id : N) (w w1 : world) (items : list value) (d : list (string * value)) :
  ensure_cache w = (Ok tt, w1) ->
  channels (the_cache w1) = VList items ->
  find_channel (Py.str_of_N ch_id) items = Ok (VDict d) ->
  truthy (VDict d) = true ->
  forall w2, getlink ch_id w <> (Ok (JsonError 404 "not_found" None), w2).
Proof.
  intros Hens Hch Hfind Htrue w2.
  unfold getlink. rewrite Hens.
  unfold bind at 1. unfold get_cache at 1. cbn beta iota.
  rewrite Hch. unfold bind at 1. unfold lift at 1. cbn [iterate].
  unfold bind at 1. unfold lift at 1. rewrite Hfind. cbn beta iota.
  rewrite Htrue. cbn [negb].
  unfold bind at 1. unfold lift at 1. cbn [py_get].
  destruct (assoc "cmd" d) as [v|].
  - unfold bind at 1. unfold lift at 1.
    destruct v as [| | |raw| |]; cbn [as_str]; try discriminate.
    destruct (Py.nonempty (Py.strip raw)); cbn [negb]; [|discriminate].
    unfold bind at 1.
    destruct (Py.contains "ffmpeg" (Py.strip raw)).
    + unfold ret at 1. destruct (local_link (Py.strip raw)); discriminate.
    + unfold bind at 1. unfold get_cache at 1. cbn beta iota.
      destruct (create_link (Py.rstrip "/" PORTAL_BASE_URL) (Py.strip raw)
                  (session (the_cache w1)) (headers (the_cache w1))
                  PORTAL_TYPE 3 w1) as [[[[|a u]|]|e] w3]; discriminate.
  - unfold bind at 1. unfold lift at 1. cbn [as_str].
    change (Py.nonempty (Py.strip EmptyString)) with false. discriminate.
Qed.

(** X11.  The [try] of [getlink] covers [ensure_cache] alone: what the
    catalog makes the rest of the handler raise leaves the handler.  After
    a call of [ensure_cache] that returned, a catalog that is [None], a
    boolean or a number raises [TypeError]; an item that is not an object,
    met before any object with the identifier, raises [AttributeError]; and
    so does a channel found whose [cmd] is there and is not a string.  No
    request is sent and the cache stays as it is. *)
Theorem getlink_raises_on_ill_typed_catalog {L : Library} {E : Environ}
    (ch_id : N) (w w1 : world) :
  ensure_cache w = (Ok tt, w1) ->
  (iterate (channels (the_cache w1)) = Raise TypeError ->
   getlink ch_id w = (Raise TypeError, w1))
  /\ (forall pre bad post,
        channels (the_cache w1) = VList (pre ++ bad :: post) ->
        forallb is_dict pre = true ->
        existsb (has_id (Py.str_of_N ch_id)) pre = false ->
        is_dict bad = false ->
        getlink ch_id w = (Raise AttributeError, w1))
  /\ (forall items d v,
        channels (the_cache w1) = VList items ->
        find_channel (Py.str_of_N ch_id) items = Ok (VDict d) ->
        assoc "cmd" d = Some v ->
        (forall s, v <> VStr s) ->
        getlink ch_id w = (Raise AttributeError, w1)).
Proof.
  intros Hens. split; [|split].
  - intros Hit. unfold getlink. rewrite Hens.
    unfold bind at 1. unfold get_cache at 1. cbn beta iota.
    unfold bind at 1. unfold lift at 1. rewrite Hit. reflexivity.
  - intros pre bad post Hch Hpre Hid Hbad. unfold getlink. rewrite Hens.
    unfold bind at 1. unfold get_cache at 1. cbn beta iota.
    rewrite Hch. unfold bind at 1. unfold lift at 1. cbn [iterate].
    unfold bind at 1. unfold lift at 1.
    rewrite (find_channel_bad_item _ _ _ _ Hpre Hid Hbad). reflexivity.
  - intros items d v Hch Hfind Hcmd Hv. unfold getlink. rewrite Hens.
    unfold bind at 1. unfold get_cache at 1. cbn beta iota.
    rewrite Hch. unfold bind at 1. unfold lift at 1. cbn [iterate].
    unfold bind at 1. unfold lift at 1. rewrite Hfind. cbn beta iota.
    replace (truthy (VDict d)) with true
      by (destruct d; [discriminate Hcmd|reflexivity]).
    cbn [negb]. unfold bind at 1. unfold lift at 1. cbn [py_get]. rewrite Hcmd.
    unfold bind at 1. unfold lift at 1.
    destruct v; try reflexivity. exfalso. exact (Hv s eq_refl).
Qed.

(** A portal whose catalog answer has [null] for its list of channels: the
    refresh succeeds, and the handler raises. *)
Lemma getlink_raises_on_ill_typed_catalog_witness :
  let L := Scenario.reference_library in
  let E := default_environ in
  let up := fun n : nat =>
    match n with
    | 0%nat => Scenario.json_reply Scenario.handshake_T1
    | 1%nat => Scenario.json_reply Scenario.profile_ok
    | _ => Scenario.json_reply (VDict [("js", VDict [("data", VNone)])])
    end in
  fst (ensure_cache (boot up Scenario.quarter 0)) = Ok tt
  /\ fst (getlink 5 (boot up Scenario.quarter 0)) = Raise TypeError.
Proof.
  intros L E up. split; [vm_compute; reflexivity|].
  destruct (@getlink_raises_on_ill_typed_catalog L E 5%N (boot up Scenario.quarter 0)
              (snd (ensure_cache (boot up Scenario.quarter 0)))) as [H _].
  - vm_compute. reflexivity.
  - rewrite H; [reflexivity|]. vm_compute. reflexivity.
Defined.
(** ** The routes [/] and [/playlist.m3u] *)

Lemma str_of_Z_of_N (n : N) : Py.str_of_Z (Z.of_N n) = Py.str_of_N n.
Proof. destruct n; reflexivity. Qed.

Section RouteFacts.
Context {L : Library} {E : Environ}.

(** A call of [ensure_cache] that raises leaves the cache as it was. *)
Lemma ensure_cache_raise_keeps (w w1 : world) (e : exn) :
  ensure_cache w = (Raise e, w1) -> the_cache w1 = the_cache w.
Proof.
  intros H. rewrite ensure_cache_unfold in H.
  destruct (cache_fresh (the_cache w) (clock w)); [discriminate H|].
  apply refresh_cache_raise in H. tauto.
Qed.

(** The stream over a list of objects: one line per object. *)
Lemma generate_from_dicts (base host : string) (items : list value) :
  forallb is_dict items = true ->
  failure (generate_from base host items) = None
  /\ Forall2 (fun ch line => playlist_entry base host ch = Ok line)
             items (chunks (generate_from base host items)).
Proof.
  induction items as [|c items IH]; intros Hd.
  - split; [reflexivity|constructor].
  - cbn [forallb] in Hd. apply andb_prop in Hd. destruct Hd as [Hc Hd].
    destruct (IH Hd) as [Hf Hl].
    destruct c as [| | | | |d]; try discriminate Hc.
    cbn [generate_from].
    destruct (playlist_entry base host (VDict d)) as [line|e] eqn:He.
    + cbn [failure chunks]. split; [exact Hf|]. constructor; assumption.
    + unfold playlist_entry in He. cbn [py_get] in He.
      destruct (assoc "name" d), (assoc "id" d), (assoc "logo" d); discriminate He.
Qed.

(** The stream is cut at the first item that is not an object. *)
Lemma generate_from_bad_item (base host : string) (pre post : list value)
    (bad : value) :
  forallb is_dict pre = true ->
  is_dict bad = false ->
  failure (generate_from base host (pre ++ bad :: post)) = Some AttributeError
  /\ Forall2 (fun ch line => playlist_entry base host ch = Ok line)
             pre (chunks (generate_from base host (pre ++ bad :: post))).
Proof.
  intros Hpre Hbad. induction pre as [|c pre IH].
  - cbn [app generate_from].
    destruct bad; try discriminate Hbad; split; try reflexivity; constructor.
  - cbn [forallb] in Hpre. apply andb_prop in Hpre. destruct Hpre as [Hc Hpre].
    destruct (IH Hpre) as [Hf Hl].
    destruct c as [| | | | |d]; try discriminate Hc.
    cbn [app generate_from].
    destruct (playlist_entry base host (VDict d)) as [line|e] eqn:He.
    + cbn [failure chunks]. split; [exact Hf|]. constructor; assumption.
    + unfold playlist_entry in He. cbn [py_get] in He.
      destruct (assoc "name" d), (assoc "id" d), (assoc "logo" d); discriminate He.
Qed.

End RouteFacts.

(** X12.  No handler lets a failure of [ensure_cache] out.  When the call
    raises, [index] and [getlink] answer 500 with the JSON error
    "init_failed", [playlist] answers 500 with a plain text that starts
    with "#ERROR", each with the text of the exception, and the cache is
    as it was before the call; when the call returns, [index] answers with
    the address of the playlist, the host URL followed by "playlist.m3u". *)
Theorem handlers_answer_500_when_refresh_fails {L : Library} {E : Environ}
    (host_url : string) (ch_id : N) (w w1 : world) :
  (forall e, ensure_cache w = (Raise e, w1) ->
     index host_url w = (Ok (PageJsonError 500 "init_failed" e), w1)
     /\ playlist host_url w = (Ok (PageText 500 ("#ERROR" ++ LF) e "text/plain"), w1)
     /\ getlink ch_id w = (Ok (JsonError 500 "init_failed" (Some e)), w1)
     /\ the_cache w1 = the_cache w)
  /\ (ensure_cache w = (Ok tt, w1) ->
      index host_url w
      = (Ok (PageJson [("message", "IPTV playlist serverless endpoint");
                       ("playlist", host_url ++ "playlist.m3u")]), w1)).
Proof.
  split.
  - intros e H. unfold index, playlist, getlink. rewrite H.
    repeat split. exact (ensure_cache_raise_keeps _ _ _ H).
  - intros H. unfold index. rewrite H. reflexivity.
Qed.

(** The three handlers on the upstream that is down, and [index] on the
    end-to-end upstream. *)
Lemma handlers_answer_500_when_refresh_fails_witness :
  let L := Scenario.reference_library in
  let E := default_environ in
  let down := boot Scenario.dead_portal Scenario.quarter 0 in
  let up := boot Scenario.portal Scenario.quarter 0 in
  (fst (index "http://localhost/" down)
   = Ok (PageJsonError 500 "init_failed" RequestException)
   /\ fst (playlist "http://localhost/" down)
      = Ok (PageText 500 ("#ERROR" ++ LF) RequestException "text/plain")
   /\ fst (getlink 5 down) = Ok (JsonError 500 "init_failed" (Some RequestException))
   /\ the_cache (snd (getlink 5 down)) = _cache)
  /\ fst (index "http://localhost/" up)
     = Ok (PageJson [("message", "IPTV playlist serverless endpoint");
                     ("playlist", "http://localhost/playlist.m3u")]).
Proof.
  intros L E down up. split.
  - destruct (@handlers_answer_500_when_refresh_fails L E "http://localhost/" 5%N
                down (snd (ensure_cache down))) as [H _].
    destruct (H RequestException) as (Hi & Hp & Hg & Hc);
      [vm_compute; reflexivity|].
    rewrite Hi, Hp, Hg. cbn [fst snd].
    split; [reflexivity|]. split; [reflexivity|]. split; [reflexivity|].
    rewrite Hc. reflexivity.
  - destruct (@handlers_answer_500_when_refresh_fails L E "http://localhost/" 5%N
                up (snd (ensure_cache up))) as [_ H].
    rewrite H; [reflexivity|]. vm_compute. reflexivity.
Defined.

(** X13.  From the initial cache, or from one a refresh has written,
    [playlist] never raises, although it normalises the base URL outside
    its [try]: a call of [ensure_cache] that returns has left a cache that
    a refresh wrote, and that refresh normalised the same URL.  The reply
    is then the stream of [generate] over the cache the call leaves, with
    the host URL stripped of its trailing slashes. *)
Theorem playlist_never_raises {L : Library} {E : Environ}
    (host_url : string) (w : world) :
  the_cache w = _cache \/ populated (the_cache w) ->
  exists rep,
    playlist host_url w = (Ok rep, snd (ensure_cache w))
    /\ (fst (ensure_cache w) = Ok tt ->
        exists base pname,
          normalize_url_and_name PORTAL_BASE_URL = Ok (base, pname)
          /\ rep = PageStream (generate base (Py.rstrip "/" host_url)
                                        (the_cache (snd (ensure_cache w))))
                              "application/x-mpegurl").
Proof.
  intros H0. unfold playlist.
  destruct (ensure_cache w) as [[[]|e] w1] eqn:Hens; cbn [fst snd].
  - destruct (populated_session _ (ensure_cache_populated _ _ H0 Hens))
      as (_ & _ & _ & pname & _ & _ & _ & _ & _ & _ & base & Hn).
    eexists. split.
    + unfold bind, lift, get_cache, ret. rewrite Hn. reflexivity.
    + intros _. exists base, pname. split; [exact Hn|reflexivity].
  - eexists. split; [reflexivity|]. intros Hc. discriminate Hc.
Qed.

(** The first call on the end-to-end upstream: two entries after the
    header. *)
Lemma playlist_never_raises_witness :
  let L := Scenario.reference_library in
  let E := default_environ in
  let w := boot Scenario.portal Scenario.quarter 0 in
  exists rep,
    playlist "http://localhost:5000/" w = (Ok rep, snd (ensure_cache w))
    /\ exists body,
         rep = PageStream body "application/x-mpegurl"
         /\ List.length (chunks body) = 3%nat /\ failure body = None.
Proof.
  intros L E w.
  destruct (@playlist_never_raises L E "http://localhost:5000/" w) as (rep & Hrun & H).
  - left. reflexivity.
  - exists rep. split; [exact Hrun|].
    destruct H as (base & pname & Hn & ->); [vm_compute; reflexivity|].
    eexists. split; [reflexivity|].
    vm_compute in Hn. injection Hn as <- <-.
    split; vm_compute; reflexivity.
Defined.

(** X14.  What the playlist streams.  The header "#EXTM3U" is the first
    chunk whatever the cache holds; over a list of objects the stream ends
    normally with one entry per object, in the order of the catalog; an
    item that is not an object cuts the stream with [AttributeError] after
    the entries of the objects before it. *)
Theorem playlist_streams_one_entry_per_object {L : Library} {E : Environ}
    (base host : string) (c : cache) (items : list value) :
  let entry := fun ch line => playlist_entry base host ch = Ok line in
  (forall c', exists lines,
      chunks (generate base host c') = ("#EXTM3U" ++ LF) :: lines)
  /\ (channels c = VList items ->
      forallb is_dict items = true ->
      failure (generate base host c) = None
      /\ exists lines,
           chunks (generate base host c) = ("#EXTM3U" ++ LF) :: lines
           /\ Forall2 entry items lines)
  /\ (forall pre bad post,
        channels c = VList (pre ++ bad :: post) ->
        forallb is_dict pre = true ->
        is_dict bad = false ->
        failure (generate base host c) = Some AttributeError
        /\ exists lines,
             chunks (generate base host c) = ("#EXTM3U" ++ LF) :: lines
             /\ Forall2 entry pre lines).
Proof.
  cbv zeta. split; [|split].
  - intros c'. unfold generate.
    destruct (iterate (channels c')); eexists; reflexivity.
  - intros Hch Hd. unfold generate. rewrite Hch. cbn [iterate].
    destruct (generate_from_dicts base host items Hd) as [Hf Hl].
    cbn [failure chunks]. split; [exact Hf|]. eexists. split; [reflexivity|exact Hl].
  - intros pre bad post Hch Hpre Hbad. unfold generate. rewrite Hch. cbn [iterate].
    destruct (generate_from_bad_item base host pre post bad Hpre Hbad) as [Hf Hl].
    cbn [failure chunks]. split; [exact Hf|]. eexists. split; [reflexivity|exact Hl].
Qed.

(** The end-to-end catalog, and the same with a string between its two
    channels. *)
Lemma playlist_streams_one_entry_per_object_witness :
  let L := Scenario.reference_library in
  let E := default_environ in
  let holding := fun items =>
    {| session := None; headers := None; channels := VList items;
       portal_name := None; expires := 0 |} in
  let good := generate "http://tatatv.cc" "http://h"
                (holding [Scenario.news; Scenario.local_channel]) in
  let cut := generate "http://tatatv.cc" "http://h"
               (holding [Scenario.news; VStr "x"; Scenario.local_channel]) in
  (failure good = None /\ List.length (chunks good) = 3%nat)
  /\ (failure cut = Some AttributeError /\ List.length (chunks cut) = 2%nat).
Proof.
  intros L E holding good cut. split.
  - destruct (@playlist_streams_one_entry_per_object L E "http://tatatv.cc" "http://h"
                (holding [Scenario.news; Scenario.local_channel])
                [Scenario.news; Scenario.local_channel]) as (_ & H & _).
    destruct H as (Hf & lines & Hc & Hl); [reflexivity|reflexivity|].
    split; [exact Hf|]. unfold good. rewrite Hc.
    apply Forall2_length in Hl. cbn [List.length] in *. lia.
  - destruct (@playlist_streams_one_entry_per_object L E "http://tatatv.cc" "http://h"
                (holding [Scenario.news; VStr "x"; Scenario.local_channel])
                [Scenario.news; VStr "x"; Scenario.local_channel]) as (_ & _ & H).
    destruct (H [Scenario.news] (VStr "x") [Scenario.local_channel])
      as (Hf & lines & Hc & Hl); [reflexivity|reflexivity|reflexivity|].
    split; [exact Hf|]. unfold cut. rewrite Hc.
    apply Forall2_length in Hl. cbn [List.length] in *. lia.
Defined.

(** X15.  The playlist and [getlink] agree on the identifiers.  For a
    channel of a catalog of objects whose [id] is a natural number, or the
    decimal text of one, the entry the playlist writes ends with the link
    "<host>/getlink/<id>" and a line feed, and [getlink] asked for that
    number finds a channel with that identifier: whatever it does next, it
    does not answer 404. *)
Theorem playlist_links_resolve {L : Library} {E : Environ}
    (n : N) (w w1 : world) (items : list value) (d : list (string * value))
    (base host : string) :
  ensure_cache w = (Ok tt, w1) ->
  channels (the_cache w1) = VList items ->
  forallb is_dict items = true ->
  In (VDict d) items ->
  assoc "id" d = Some (VInt (Z.of_N n)) \/ assoc "id" d = Some (VStr (Py.str_of_N n)) ->
  (exists head,
     playlist_entry base host (VDict d)
     = Ok (head ++ host ++ "/getlink/" ++ Py.str_of_N n ++ LF))
  /\ (exists d',
        find_channel (Py.str_of_N n) items = Ok (VDict d')
        /\ In (VDict d') items
        /\ has_id (Py.str_of_N n) (VDict d') = true)
  /\ forall w2, getlink n w <> (Ok (JsonError 404 "not_found" None), w2).
Proof.
  intros Hens Hch Hdicts Hin Hid.
  assert (Hi : exists i, assoc "id" d = Some i /\ py_str i = Py.str_of_N n).
  { destruct Hid as [Hid|Hid]; eexists; (split; [exact Hid|]).
    - apply str_of_Z_of_N.
    - reflexivity. }
  destruct Hi as (i & Hi & Hstr).
  assert (Hfound : exists d',
             find_channel (Py.str_of_N n) items = Ok (VDict d')
             /\ In (VDict d') items
             /\ has_id (Py.str_of_N n) (VDict d') = true).
  { destruct (find_channel_dicts (Py.str_of_N n) items Hdicts)
      as [[_ He]|Hd']; [|exact Hd'].
    exfalso.
    assert (Hex : existsb (has_id (Py.str_of_N n)) items = true).
    { apply existsb_exists. exists (VDict d). split; [exact Hin|].
      unfold has_id. cbn [py_get]. rewrite Hi, Hstr. apply String.eqb_refl. }
    congruence. }
  split; [|split; [exact Hfound|]].
  - unfold playlist_entry. cbn [py_get]. rewrite Hi, Hstr.
    destruct (assoc "name" d), (assoc "logo" d);
      match goal with
      | |- exists head,
             Ok (?p1 ++ ?p2 ++ ?p3 ++ ?p4 ++ ?p5 ++ ?p6 ++ ?p7 ++ ?p8 ++ ?p9
                   ++ ?p10 ++ ?p11 ++ ?rest) = _ =>
          exists (p1 ++ p2 ++ p3 ++ p4 ++ p5 ++ p6 ++ p7 ++ p8 ++ p9 ++ p10 ++ p11)
      end;
      rewrite !append_assoc3; reflexivity.
  - destruct Hfound as (d' & Hfind & _ & Hid').
    exact (getlink_found_not_404 n w w1 items d' Hens Hch Hfind
             (found_is_true n d' Hid')).
Qed.

(** The channel 5 of the end-to-end catalog. *)
Lemma playlist_links_resolve_witness :
  let L := Scenario.reference_library in
  let E := default_environ in
  let w := boot Scenario.portal Scenario.quarter 0 in
  (exists head,
     playlist_entry "http://tatatv.cc" "http://h" Scenario.news
     = Ok (head ++ "http://h/getlink/5" ++ LF))
  /\ (exists d',
        find_channel "5" [Scenario.news; Scenario.local_channel] = Ok (VDict d')
        /\ In (VDict d') [Scenario.news; Scenario.local_channel]
        /\ has_id "5" (VDict d') = true)
  /\ forall w2, getlink 5 w <> (Ok (JsonError 404 "not_found" None), w2).
Proof.
  intros L E w.
  apply (@playlist_links_resolve L E 5%N w (snd (ensure_cache w))
           [Scenario.news; Scenario.local_channel]
           [("id", VInt 5); ("name", VStr "News"); ("logo", VStr "n.png");
            ("cmd", VStr "ffrt http://n/play")]
           "http://tatatv.cc" "http://h").
  - vm_compute. reflexivity.
  - vm_compute. reflexivity.
  - reflexivity.
  - left. reflexivity.
  - left. reflexivity.
Defined.
(** ** What the normaliser returns *)

Lemma mem_app (c : ascii) (a b : string) :
  Py.mem c (a ++ b) = Py.mem c a || Py.mem c b.
Proof.
  induction a as [|x a IH]; simpl; [reflexivity|].
  rewrite IH, orb_assoc. reflexivity.
Qed.

Lemma mem_split (sep : ascii) (s : string) :
  Forall (fun p => Py.mem sep p = false) (Py.split sep s).
Proof.
  induction s as [|c s IH]; cbn [Py.split].
  - repeat constructor.
  - destruct (Ascii.eqb c sep) eqn:Hc.
    + constructor; [reflexivity|exact IH].
    + destruct (Py.split sep s) as [|p ps].
      * repeat constructor. cbn [Py.mem]. rewrite Ascii.eqb_sym, Hc. reflexivity.
      * inversion IH as [|? ? Hp Hps]; subst. constructor; [|exact Hps].
        cbn [Py.mem]. rewrite Ascii.eqb_sym, Hc, Hp. reflexivity.
Qed.

Lemma Forall_last_two {A : Type} (P : A -> Prop) (l : list A) :
  Forall P l -> Forall P (Py.last_two l).
Proof.
  unfold Py.last_two. generalize (List.length l - 2)%nat. intros n Hl.
  revert n. induction Hl as [|x l Hx Hl IH]; intros [|n]; cbn [skipn]; auto.
Qed.

Lemma mem_join_empty (c : ascii) (parts : list string) :
  Forall (fun p => Py.mem c p = false) parts ->
  Py.mem c (Py.join EmptyString parts) = false.
Proof.
  unfold Py.join. induction 1 as [|p parts Hp Hparts IH]; [reflexivity|].
  destruct parts as [|q parts]; [exact Hp|].
  change (String.concat EmptyString (p :: q :: parts))
    with (p ++ EmptyString ++ String.concat EmptyString (q :: parts)).
  rewrite !mem_app, Hp, IH. reflexivity.
Qed.

Lemma mem_replace_dot (s : string) :
  Py.mem "." (Py.replace "." EmptyString s) = false.
Proof.
  unfold Py.replace. induction s as [|c s IH]; [reflexivity|].
  cbn [Py.replace_from Py.startswith String.length Nat.sub].
  destruct (Ascii.eqb "." c) eqn:Hc; cbn [andb].
  - exact IH.
  - cbn [Py.mem]. rewrite Hc, IH. reflexivity.
Qed.

Lemma lower_char_dot (c : ascii) :
  Ascii.eqb "." (Py.lower_char c) = Ascii.eqb "." c.
Proof.
  destruct c as [b0 b1 b2 b3 b4 b5 b6 b7].
  destruct b0, b1, b2, b3, b4, b5, b6, b7; vm_compute; reflexivity.
Qed.

Lemma mem_lower_dot (s : string) :
  Py.mem "." (Py.lower s) = Py.mem "." s.
Proof.
  unfold Py.lower. induction s as [|c s IH]; [reflexivity|].
  cbn [String.list_ascii_of_string List.map String.string_of_list_ascii Py.mem].
  rewrite lower_char_dot, IH. reflexivity.
Qed.

Lemma name_of_no_dot (nl : string) : Py.mem "." (name_of nl) = false.
Proof.
  unfold name_of. rewrite mem_lower_dot.
  destruct (Py.contains "." nl).
  - apply mem_join_empty, Forall_last_two, mem_split.
  - apply mem_replace_dot.
Qed.

(** X16.  Whatever [normalize_url_and_name] returns is a scheme and a
    network location and nothing else.  The base URL is "http://" or
    "https://" followed by a network location that has none of the
    characters [/?#] (or the bare "http:" or "https:" when that location
    is empty): the path, the query and the fragment of the input are gone,
    and the base URL does not end with a slash.  The name is derived from
    that network location alone, and has no dot. *)
Theorem normalize_keeps_scheme_and_host {L : Library} (x u n : string) :
  normalize_url_and_name x = Ok (u, n) ->
  exists sch nl,
    (sch = "http" \/ sch = "https")
    /\ u = (if Py.nonempty nl then sch ++ "://" ++ nl else sch ++ ":")
    /\ all_chars not_delim nl = true
    /\ last_char (fun c => Py.mem c "/") u = false
    /\ n = name_of nl
    /\ Py.mem "." n = false.
Proof.
  intros H.
  destruct (with_scheme_hosted x) as (sch & r & Hsch & Hx & _).
  rewrite (normalize_hosted x sch r Hsch Hx) in H.
  destruct (parse_tail sch r) as [sr|e] eqn:Hp; [|discriminate H].
  injection H as Hu Hn.
  destruct (parse_tail_ok _ _ _ Hp) as (_ & Hnl & _).
  assert (Hd : all_chars not_delim (Urllib.netloc sr) = true).
  { rewrite Hnl. apply (break_fst_not is_delim). }
  exists sch, (Urllib.netloc sr).
  split; [exact Hsch|]. split; [symmetry; exact Hu|]. split; [exact Hd|].
  split; [|split; [symmetry; exact Hn|rewrite <- Hn; apply name_of_no_dot]].
  rewrite <- Hu.
  destruct (Urllib.netloc sr) as [|a nl] eqn:Hnet.
  - cbn [Py.nonempty]. destruct Hsch as [-> | ->]; reflexivity.
  - cbn [Py.nonempty]. rewrite <- Hnet in *.
    change (last_char (fun c => Py.mem c "/") (sch ++ "://" ++ Urllib.netloc sr)
            = false).
    replace (sch ++ "://" ++ Urllib.netloc sr)
      with ((sch ++ "://") ++ Urllib.netloc sr)
      by (rewrite append_assoc3; reflexivity).
    rewrite last_char_append by (rewrite Hnet; discriminate).
    apply (all_chars_last not_delim); [exact not_delim_not_slash|exact Hd].
Qed.

(** The default base URL, with its path, and a URL with a port, a query
    and a fragment. *)
Lemma normalize_keeps_scheme_and_host_witness :
  let L := Scenario.reference_library in
  (exists sch nl,
     (sch = "http" \/ sch = "https")
     /\ "http://tatatv.cc" = (if Py.nonempty nl then sch ++ "://" ++ nl else sch ++ ":")
     /\ all_chars not_delim nl = true
     /\ last_char (fun c => Py.mem c "/") "http://tatatv.cc" = false
     /\ "tatatvcc" = name_of nl
     /\ Py.mem "." "tatatvcc" = false)
  /\ normalize_url_and_name "https://a.b.c.d:80/x?y#z"
     = Ok ("https://a.b.c.d:80", "cd:80").
Proof.
  intros L. split.
  - apply (@normalize_keeps_scheme_and_host L "http://tatatv.cc/stalker_portal/c/").
    vm_compute. reflexivity.
  - vm_compute. reflexivity.
Defined.
(** ** The lock is never left held *)

Section Progress.
Context {L : Library} {E : Environ}.

(** A handler inside the block has its next step to take, or an answer to
    receive. *)
Lemma inside_moves (s : Effects.system) (i : nat) (th : Effects.thread) :
  Effects.lock s = Some i -> nth_error (Effects.threads s) i = Some th ->
  Effects.inside th ->
  exists e s', (e = Effects.Step i \/ e = Effects.Answer i)
               /\ Effects.fire e s = Some s'.
Proof.
  intros Hl Hi Hin. destruct th as [t|m k].
  - exists (Effects.Step i). simpl in Hin.
    destruct Hin as [r|k Hk|k Hk|c k Hk|rq k Hk]; simpl; rewrite Hi;
      try rewrite Hl, Nat.eqb_refl; eexists; (split; [left; reflexivity|reflexivity]).
  - exists (Effects.Answer i). simpl. rewrite Hi.
    eexists. split; [right; reflexivity|reflexivity].
Qed.

End Progress.

(** X17.  In every state the handlers can reach, whatever the upstream
    does: a handler that has left [ensure_cache], by a return or by an
    exception, does not hold the lock; the handler that holds the lock has
    its next step to take or an answer to receive; and when the lock is free
    every handler that has not left is about to call [ensure_cache] and can
    take the lock. *)
Theorem lock_is_never_left_held {L : Library} {E : Environ}
    (n : nat) (w0 : world) (s : Effects.system) :
  Effects.reachable (Effects.arrive n w0) s ->
  (forall i th, nth_error (Effects.threads s) i = Some th ->
                Effects.finished th = true -> Effects.lock s <> Some i)
  /\ (forall i, Effects.lock s = Some i ->
        exists e s', (e = Effects.Step i \/ e = Effects.Answer i)
                     /\ Effects.fire e s = Some s')
  /\ (Effects.lock s = None ->
      forall i th, nth_error (Effects.threads s) i = Some th ->
                   Effects.finished th = false ->
                   th = Effects.Running Effects.ensure_cache
                   /\ exists s', Effects.fire (Effects.Step i) s = Some s').
Proof.
  intros Hr. pose proof (exclusive_reachable n w0 s Hr) as [Hx Hh].
  split; [|split].
  - intros i th Hi Hfin Hl.
    destruct (Hh i Hl) as (th' & Hi' & Hin).
    rewrite Hi in Hi'. injection Hi' as <-.
    rewrite (not_inside_finished th Hin) in Hfin. discriminate.
  - intros i Hl. destruct (Hh i Hl) as (th & Hi & Hin).
    apply (inside_moves s i th Hl Hi Hin).
  - intros Hl i th Hi Hfin.
    destruct (Hx i th Hi) as [->|[H|[H _]]]; try congruence.
    split; [reflexivity|].
    simpl. rewrite Hi, ensure_cache_eq, Hl. eexists. reflexivity.
Qed.

(** Two handlers on an upstream that is down: the first takes the lock,
    gets no answer to its handshake and leaves [ensure_cache] by the
    exception; it does not hold the lock, and the second can take it. *)
Lemma lock_is_never_left_held_witness :
  let L := Scenario.reference_library in
  let E := default_environ in
  let s0 := Effects.arrive 2 (boot Scenario.dead_portal Scenario.quarter 0) in
  let s := match Effects.run (Scenario.failed_pass 0) s0 with
           | Some s => s
           | None => s0
           end in
  List.map Effects.returned (Effects.threads s)
  = [Some (Raise RequestException); None]
  /\ Effects.lock s <> Some 0%nat
  /\ exists s', Effects.fire (Effects.Step 1) s = Some s'.
Proof.
  intros L E s0 s.
  destruct (@lock_is_never_left_held L E 2%nat
              (boot Scenario.dead_portal Scenario.quarter 0) s) as (H1 & _ & H3).
  - apply reachable_state_after.
  - split; [vm_compute; reflexivity|]. split.
    + apply (H1 0%nat (Effects.Running (Effects.Leaf (Raise RequestException))));
        vm_compute; reflexivity.
    + assert (Hl : Effects.lock s = None) by (vm_compute; reflexivity).
      destruct (H3 Hl 1%nat (Effects.Running Effects.ensure_cache)) as [_ H];
        [reflexivity|reflexivity|exact H].
Defined.
(** ** The device identity *)

Lemma upper_char_hex (c : ascii) :
  hex_lower c = true ->
  match Py.upper_char c with
  | String d EmptyString => hex_upper d
  | _ => false
  end = true.
Proof.
  destruct c as [b0 b1 b2 b3 b4 b5 b6 b7].
  destruct b0, b1, b2, b3, b4, b5, b6, b7; vm_compute;
    intros H; first [reflexivity|discriminate H].
Qed.

Lemma upper_hexdigest (n : nat) (s : string) :
  is_hexdigest n s = true -> is_upper_hex n (Py.upper s) = true.
Proof.
  unfold is_hexdigest, is_upper_hex. intros H.
  apply andb_prop in H. destruct H as [Hn Hs].
  apply Nat.eqb_eq in Hn. subst n.
  assert (H : String.length (Py.upper s) = String.length s
              /\ all_chars hex_upper (Py.upper s) = true).
  { induction s as [|c s IH]; [split; reflexivity|].
    cbn [all_chars] in Hs. apply andb_prop in Hs. destruct Hs as [Hc Hs].
    destruct (IH Hs) as [Hl Ha].
    pose proof (upper_char_hex c Hc) as Hu.
    cbn [Py.upper]. destruct (Py.upper_char c) as [|d [|e r]]; try discriminate Hu.
    cbn [append String.length all_chars]. rewrite Hl, Hu, Ha. split; reflexivity. }
  destruct H as [-> ->]. rewrite Nat.eqb_refl. reflexivity.
Qed.

Lemma take_spec (p : ascii -> bool) (n : nat) (s : string) :
  (n <= String.length s)%nat ->
  String.length (Py.take n s) = n
  /\ (all_chars p s = true -> all_chars p (Py.take n s) = true)
  /\ Py.take n s ++ Py.drop n s = s.
Proof.
  unfold Py.take. revert s. induction n as [|n IH]; intros s Hn.
  - destruct s; repeat split; auto.
  - destruct s as [|c s]; [simpl in Hn; lia|].
    simpl in Hn. destruct (IH s ltac:(lia)) as (Hl & Ha & Hd).
    cbn [String.substring Py.drop String.length all_chars append].
    split; [rewrite Hl; reflexivity|]. split.
    + intros H. apply andb_prop in H. destruct H as [Hc Hs].
      rewrite Hc, (Ha Hs). reflexivity.
    + rewrite Hd. reflexivity.
Qed.

(** X18.  The device identity is made of upper-case hexadecimal digits.
    When the digests come as [hexdigest] prints them (32 digits for MD5,
    64 for SHA-256, in lower case), the serial number has 32 upper-case
    hexadecimal digits, its cut is the first 13 of them, and the two
    device identifiers and the signature have 64 each: the profile URL,
    which takes the cut, the first identifier and the signature as they
    are, needs no quoting for them. *)
Theorem device_identity_is_upper_hex {L : Library} (mac : string) :
  let info := generate_device_info mac in
  is_hexdigest 32 (md5_hexdigest mac) = true ->
  is_hexdigest 64 (sha256_hexdigest mac) = true ->
  is_hexdigest 64 (sha256_hexdigest (SNCUT info)) = true ->
  is_hexdigest 64 (sha256_hexdigest (SNCUT info ++ mac)) = true ->
  is_upper_hex 32 (SN info) = true
  /\ is_upper_hex 13 (SNCUT info) = true
  /\ SN info = SNCUT info ++ Py.drop 13 (SN info)
  /\ is_upper_hex 64 (Device_ID1 info) = true
  /\ is_upper_hex 64 (Device_ID2 info) = true
  /\ is_upper_hex 64 (Signature info) = true
  /\ Py.quote (SNCUT info) = SNCUT info.
Proof.
  cbv zeta. unfold generate_device_info.
  cbn [SN SNCUT Device_ID1 Device_ID2 Signature].
  intros Hmd5 Hsha Hdev2 Hsig.
  pose proof (upper_hexdigest _ _ Hmd5) as Hsn.
  assert (Hcut : is_upper_hex 13 (Py.take 13 (Py.upper (md5_hexdigest mac))) = true
                 /\ Py.upper (md5_hexdigest mac)
                    = Py.take 13 (Py.upper (md5_hexdigest mac))
                        ++ Py.drop 13 (Py.upper (md5_hexdigest mac))).
  { unfold is_upper_hex in *. apply andb_prop in Hsn. destruct Hsn as [Hn Ha].
    apply Nat.eqb_eq in Hn.
    destruct (take_spec hex_upper 13 (Py.upper (md5_hexdigest mac)))
      as (Hl & Hall & Hd); [lia|].
    rewrite Hl, (Hall Ha), Hd. split; reflexivity. }
  destruct Hcut as [Hcut Hsplit].
  split; [exact Hsn|]. split; [exact Hcut|]. split; [exact Hsplit|].
  split; [exact (upper_hexdigest _ _ Hsha)|].
  split; [exact (upper_hexdigest _ _ Hdev2)|].
  split; [exact (upper_hexdigest _ _ Hsig)|].
  unfold is_upper_hex in Hcut. apply andb_prop in Hcut. destruct Hcut as [_ Ha].
  revert Ha. generalize (Py.take 13 (Py.upper (md5_hexdigest mac))).
  intros s. induction s as [|c s IH]; [reflexivity|].
  cbn [all_chars Py.quote]. intros H. apply andb_prop in H. destruct H as [Hc Hs].
  rewrite (IH Hs).
  replace (Py.quote_char c) with (String c EmptyString); [reflexivity|].
  clear - Hc. destruct c as [b0 b1 b2 b3 b4 b5 b6 b7].
  destruct b0, b1, b2, b3, b4, b5, b6, b7; vm_compute in Hc |- *;
    first [reflexivity|discriminate Hc].
Qed.

(** The default MAC address, with the digests computed. *)
Lemma device_identity_is_upper_hex_witness :
  let L := Scenario.reference_library in
  let info := generate_device_info "00:1A:79:00:13:DA" in
  is_upper_hex 32 (SN info) = true
  /\ is_upper_hex 13 (SNCUT info) = true
  /\ SN info = SNCUT info ++ Py.drop 13 (SN info)
  /\ is_upper_hex 64 (Device_ID1 info) = true
  /\ is_upper_hex 64 (Device_ID2 info) = true
  /\ is_upper_hex 64 (Signature info) = true
  /\ Py.quote (SNCUT info) = SNCUT info.
Proof.
  intros L info.
  apply (@device_identity_is_upper_hex L "00:1A:79:00:13:DA");
    vm_compute; reflexivity.
Defined.
